(** * Policy Chat: the browser client and the retrieval engine it talks to

    A shallow embedding of the React client of the policy chatbot
    ([policyTransport.js], [usePolicyChat.js], [policyChatUI.jsx]) and of the
    retrieval engine described by the specification.

    Conventions of the embedding.
    - [localStorage] is a finite map from keys to strings.
    - JavaScript strings are Rocq strings, which hold the UTF-8 bytes of the
      text.  The string builtins that the client calls ([trim], [replace] of
      white space, [length], [slice]) are parameters of the development, as
      the JSON builtins are; an instance on UTF-8 text runs the model.
    - [null] and [undefined] of a string-valued expression are [None].
    - Values that went through [JSON.parse] are terms of [json]; the two JSON
      builtins themselves are parameters of the development.
    - A function that can throw returns in [js]; a handler that both throws and
      has effects runs in the monad [H], which keeps the effects made before
      the throw.
    - Session ids are strings: the [id] of an entry of the sidebar and the
      [session_id] of a response are not modelled at other types.
    - React state setters do not assign: they queue an [update].  The queue is
      processed at the next render, after the synchronous code that filled it
      has run, and this is when an updater function passed to a setter is
      called ([flush]); updates made after an [await] are batched in the same
      way (React 18 and later, [createRoot]).  React's shortcut of calling an
      updater at once when the component has no update pending is not
      modelled.  Effects run after the render, when one of their dependencies
      changed ([effects_pass], [settle]).
    - An exception while rendering or in an effect unmounts the component;
      the model stops there ([commit] gives [None]). *)

From stdpp Require Import gmap strings list fin_maps pretty sorting.
From Stdlib Require Import Ascii String ZArith.

Open Scope string_scope.

(** ** JavaScript values and exceptions *)

#[local] Set Warnings "-register-all".

Inductive json : Type :=
| JNull
| JBool (b : bool)
| JNum (n : Z)
| JStr (s : string)
| JArr (items : list json)
| JObj (fields : list (string * json)).

Record exn : Type := Exn { e_name : string; e_message : string }.

Inductive js (A : Type) : Type :=
| Ok (a : A)
| Throw (e : exn).
Arguments Ok {A} a.
Arguments Throw {A} e.

Definition js_bind {A B} (m : js A) (k : A -> js B) : js B :=
  match m with
  | Ok a => k a
  | Throw e => Throw e
  end.

(** [try { m } catch { h }] *)
Definition js_catch {A} (m : js A) (h : exn -> js A) : js A :=
  match m with
  | Ok a => Ok a
  | Throw e => h e
  end.

(** Truthiness of a string-valued expression that may be [null]. *)
Definition truthy (o : option string) : bool :=
  match o with
  | Some s => negb (String.eqb s "")
  | None => false
  end.

(** [a || b] on such expressions. *)
Definition or_else (a b : option string) : option string :=
  if truthy a then a else b.

(** [a ?? b] *)
Definition nullish (a b : option string) : option string :=
  match a with
  | Some s => Some s
  | None => b
  end.

(** [o.k] on a parsed value that is not [null]: [None] is [undefined]. *)
Fixpoint assoc (k : string) (fields : list (string * json)) : option json :=
  match fields with
  | [] => None
  | (k', v) :: rest => if String.eqb k k' then Some v else assoc k rest
  end.

(** [{...o, k: v}]: the key keeps its place when [o] has it, and is added last
    otherwise. *)
Fixpoint set_field (k : string) (v : json) (fields : list (string * json))
  : list (string * json) :=
  match fields with
  | [] => [(k, v)]
  | (k', v') :: rest =>
      if String.eqb k k' then (k', v) :: rest else (k', v') :: set_field k v rest
  end.

(** ** The string builtins on UTF-8 text

    The instance of [trim], [replace(/\s+/g, " ")], [length] and [slice(0, n)]
    that runs the model.  A text is held as its UTF-8 bytes, and a lone
    surrogate, which [slice] can leave, as the three bytes of its generalised
    encoding. *)

(** The UTF-16 code units that a byte opens: none for a continuation byte,
    two for the first byte of a four-byte sequence, one otherwise. *)
Definition units_of_byte (c : ascii) : nat :=
  let b := N_of_ascii c in
  if ((128 <=? b) && (b <? 192))%N then 0
  else if (240 <=? b)%N then 2
  else 1.

(** [s.length] *)
Fixpoint text_length (s : string) : nat :=
  match s with
  | EmptyString => 0
  | String c r => units_of_byte c + text_length r
  end.

(** The high surrogate of the character whose four bytes start with [c] and
    go on in [r], in its generalised encoding. *)
Definition high_surrogate (c : ascii) (r : string) : string :=
  let b1 := match r with String d _ => N_of_ascii d | _ => 0%N end in
  let b2 := match r with String _ (String f _) => N_of_ascii f | _ => 0%N end in
  let plane :=
    (((N_of_ascii c) mod 8) * 256 + (b1 mod 64) * 4 + (b2 mod 64) / 16 - 64)%N in
  String (ascii_of_N 237)
    (String (ascii_of_N (160 + (plane / 64) mod 16))
       (String (ascii_of_N (128 + plane mod 64)) EmptyString)).

(** [s.slice(0, n)] *)
Fixpoint text_slice (n : nat) (s : string) : string :=
  match s with
  | EmptyString => EmptyString
  | String c r =>
      match units_of_byte c, n with
      | O, _ => String c (text_slice n r)
      | _, O => EmptyString
      | S O, S m => String c (text_slice m r)
      | _, S O => high_surrogate c r
      | _, S (S m) => String c (text_slice m r)
      end
  end.

Fixpoint take_bytes (n : nat) (s : string) : string :=
  match n, s with
  | S m, String c r => String c (take_bytes m r)
  | _, _ => EmptyString
  end.

Fixpoint skip_bytes (n : nat) (s : string) : string :=
  match n, s with
  | S m, String _ r => skip_bytes m r
  | _, _ => s
  end.

(** The width in bytes of the white space character that starts [s], or 0:
    the characters that [trim] and the class [\s] take as white space are
    U+0009 to U+000D, U+0020, U+00A0, U+1680, U+2000 to U+200A, U+2028,
    U+2029, U+202F, U+205F, U+3000 and U+FEFF. *)
Definition ws_width (s : string) : nat :=
  match s with
  | EmptyString => 0
  | String c r =>
      let b := N_of_ascii c in
      if ((9 <=? b) && (b <=? 13) || (b =? 32))%N then 1
      else
        match r with
        | EmptyString => 0
        | String d r' =>
            let b1 := N_of_ascii d in
            if ((b =? 194) && (b1 =? 160))%N then 2
            else
              match r' with
              | EmptyString => 0
              | String f _ =>
                  let b2 := N_of_ascii f in
                  if ((b =? 225) && (b1 =? 154) && (b2 =? 128)
                      || (b =? 226) && (b1 =? 128)
                         && ((128 <=? b2) && (b2 <=? 138)
                             || (b2 =? 168) || (b2 =? 169) || (b2 =? 175))
                      || (b =? 226) && (b1 =? 129) && (b2 =? 159)
                      || (b =? 227) && (b1 =? 128) && (b2 =? 128)
                      || (b =? 239) && (b1 =? 187) && (b2 =? 191))%N
                  then 3
                  else 0
              end
        end
  end.

(** A text cut into its white space characters, marked [true], and its other
    bytes. *)
Fixpoint pieces (fuel : nat) (s : string) : list (bool * string) :=
  match fuel, s with
  | S fuel', String c r =>
      match ws_width s with
      | O => (false, String c EmptyString) :: pieces fuel' r
      | w => (true, take_bytes w s) :: pieces fuel' (skip_bytes w s)
      end
  | _, _ => []
  end.

Fixpoint drop_spaces (l : list (bool * string)) : list (bool * string) :=
  match l with
  | (true, _) :: rest => drop_spaces rest
  | _ => l
  end.

Fixpoint join (l : list (bool * string)) : string :=
  match l with
  | [] => EmptyString
  | (_, bytes) :: rest => bytes +:+ join rest
  end.

(** [s.trim()] *)
Definition text_trim (s : string) : string :=
  join (rev (drop_spaces (rev (drop_spaces (pieces (String.length s) s))))).

Fixpoint squeeze (in_ws : bool) (l : list (bool * string)) : string :=
  match l with
  | [] => EmptyString
  | (true, _) :: rest =>
      if in_ws then squeeze true rest else String " " (squeeze true rest)
  | (false, bytes) :: rest => bytes +:+ squeeze false rest
  end.

(** [s.replace(/\s+/g, " ")] *)
Definition text_collapse_ws (s : string) : string :=
  squeeze false (pieces (String.length s) s).

(** ** A reference JSON codec

    A printer and a reader for JSON texts over [json], in the format of
    [JSON.stringify] (no white space, members in order).  They instantiate the
    two builtins when the model is run on concrete inputs. *)

(** The white space of JSON: tab, line feed, carriage return and space. *)
Definition json_ws (c : ascii) : bool :=
  match nat_of_ascii c with
  | 9 | 10 | 13 | 32 => true
  | _ => false
  end.

Fixpoint skip_ws (s : string) : string :=
  match s with
  | EmptyString => EmptyString
  | String c r => if json_ws c then skip_ws r else s
  end.

Definition dquote : ascii := ascii_of_nat 34.
Definition backslash : ascii := ascii_of_nat 92.

Fixpoint escape (s : string) : string :=
  match s with
  | EmptyString => EmptyString
  | String c r =>
      if Ascii.eqb c dquote || Ascii.eqb c backslash
      then String backslash (String c (escape r))
      else String c (escape r)
  end.

Definition quoted (s : string) : string :=
  String dquote (escape s +:+ String dquote EmptyString).

Fixpoint json_print (v : json) : string :=
  match v with
  | JNull => "null"
  | JBool true => "true"
  | JBool false => "false"
  | JNum n => pretty n
  | JStr s => quoted s
  | JArr items =>
      "[" +:+
      (fix go (l : list json) : string :=
         match l with
         | [] => ""
         | [x] => json_print x
         | x :: r => json_print x +:+ "," +:+ go r
         end) items +:+ "]"
  | JObj fields =>
      "{" +:+
      (fix go (l : list (string * json)) : string :=
         match l with
         | [] => ""
         | [(k, x)] => quoted k +:+ ":" +:+ json_print x
         | (k, x) :: r => quoted k +:+ ":" +:+ json_print x +:+ "," +:+ go r
         end) fields +:+ "}"
  end.

(** The text of a string literal, after its opening quote. *)
Fixpoint read_string (s : string) : option (string * string) :=
  match s with
  | EmptyString => None
  | String c r =>
      if Ascii.eqb c dquote then Some (EmptyString, r)
      else if Ascii.eqb c backslash then
        match r with
        | String d r' =>
            match read_string r' with
            | Some (t, rest) => Some (String d t, rest)
            | None => None
            end
        | EmptyString => None
        end
      else
        match read_string r with
        | Some (t, rest) => Some (String c t, rest)
        | None => None
        end
  end.

Definition digit (c : ascii) : option Z :=
  let n := nat_of_ascii c in
  if (48 <=? n)%nat && (n <=? 57)%nat then Some (Z.of_nat (n - 48)) else None.

Fixpoint read_digits (acc : Z) (s : string) : Z * string :=
  match s with
  | EmptyString => (acc, s)
  | String c r =>
      match digit c with
      | Some d => read_digits (10 * acc + d)%Z r
      | None => (acc, s)
      end
  end.

Definition read_number (s : string) : option (Z * string) :=
  match s with
  | String c r =>
      if Ascii.eqb c "-" then
        match r with
        | String d _ =>
            match digit d with
            | Some _ => let (n, rest) := read_digits 0 r in Some (Z.opp n, rest)
            | None => None
            end
        | EmptyString => None
        end
      else
        match digit c with
        | Some _ => Some (read_digits 0 s)
        | None => None
        end
  | EmptyString => None
  end.

Definition read_word (w : string) (v : json) (s : string) : option (json * string) :=
  if String.prefix w s
  then Some (v, String.substring (String.length w) (String.length s - String.length w) s)
  else None.

Fixpoint read_value (fuel : nat) (s : string) : option (json * string) :=
  match fuel with
  | O => None
  | S fuel' =>
      match skip_ws s with
      | EmptyString => None
      | String c r =>
          if Ascii.eqb c "n" then read_word "null" JNull (String c r)
          else if Ascii.eqb c "t" then read_word "true" (JBool true) (String c r)
          else if Ascii.eqb c "f" then read_word "false" (JBool false) (String c r)
          else if Ascii.eqb c dquote then
            match read_string r with
            | Some (t, rest) => Some (JStr t, rest)
            | None => None
            end
          else if Ascii.eqb c "[" then
            match skip_ws r with
            | String "]" rest => Some (JArr [], rest)
            | _ =>
                match read_items fuel' r with
                | Some (items, rest) => Some (JArr items, rest)
                | None => None
                end
            end
          else if Ascii.eqb c "{" then
            match skip_ws r with
            | String "}" rest => Some (JObj [], rest)
            | _ =>
                match read_fields fuel' r with
                | Some (fields, rest) => Some (JObj fields, rest)
                | None => None
                end
            end
          else
            match read_number (String c r) with
            | Some (n, rest) => Some (JNum n, rest)
            | None => None
            end
      end
  end
with read_items (fuel : nat) (s : string) : option (list json * string) :=
  match fuel with
  | O => None
  | S fuel' =>
      match read_value fuel' s with
      | Some (v, rest) =>
          match skip_ws rest with
          | String "]" rest' => Some ([v], rest')
          | String "," rest' =>
              match read_items fuel' rest' with
              | Some (vs, rest'') => Some (v :: vs, rest'')
              | None => None
              end
          | _ => None
          end
      | None => None
      end
  end
with read_fields (fuel : nat) (s : string) : option (list (string * json) * string) :=
  match fuel with
  | O => None
  | S fuel' =>
      match skip_ws s with
      | String c r =>
          if Ascii.eqb c dquote then
            match read_string r with
            | Some (k, rest) =>
                match skip_ws rest with
                | String ":" rest1 =>
                    match read_value fuel' rest1 with
                    | Some (v, rest2) =>
                        match skip_ws rest2 with
                        | String "}" rest3 => Some ([(k, v)], rest3)
                        | String "," rest3 =>
                            match read_fields fuel' rest3 with
                            | Some (kvs, rest4) => Some ((k, v) :: kvs, rest4)
                            | None => None
                            end
                        | _ => None
                        end
                    | None => None
                    end
                | _ => None
                end
            | None => None
            end
          else None
      | EmptyString => None
      end
  end.

Definition json_read (s : string) : js json :=
  match read_value (S (String.length s)) s with
  | Some (v, rest) =>
      match skip_ws rest with
      | EmptyString => Ok v
      | _ => Throw (Exn "SyntaxError" "Unexpected token")
      end
  | None => Throw (Exn "SyntaxError" "Unexpected token")
  end.

(** ** localStorage *)

Abbreviation storage := (gmap string string).

Definition getItem (ls : storage) (k : string) : option string := ls !! k.
Definition setItem (k v : string) (ls : storage) : storage := <[k := v]> ls.
Definition removeItem (k : string) (ls : storage) : storage := delete k ls.

(** ** policyTransport.js *)

Definition SESSION_STORAGE_KEY : string := "policyChat.sessionId".

Definition getSessionId (ls : storage) : option string :=
  getItem ls SESSION_STORAGE_KEY.

Definition setSessionId (id : option string) (ls : storage) : storage :=
  match id with
  | Some s => if truthy id then setItem SESSION_STORAGE_KEY s ls else ls
  | None => ls
  end.

Definition clearSessionId (ls : storage) : storage :=
  removeItem SESSION_STORAGE_KEY ls.

(** The argument of [fetch]. *)
Record request : Type := Request {
  req_url : string;
  req_method : string;
  req_headers : list (string * string);
  req_body : string;
}.

(** What the client reads of [await res.json()]: the three properties it
    accesses through [data?.p].  A property that is absent or [null], or a body
    that is itself [null], gives [None].  [session_id] and [answer] are strings
    when present, as the endpoint declares them. *)
Record chat_data : Type := ChatData {
  d_session_id : option string;
  d_answer : option string;
  d_sources : option json;
}.

(** The [Response] object of a settled [fetch]; [res_text] and [res_json] are
    the outcomes of the promises [res.text()] and [res.json()]. *)
Record response : Type := Response {
  res_status : N;
  res_statusText : string;
  res_text : js string;
  res_json : js chat_data;
}.

(** [res.ok]: the status is in the range 200-299. *)
Definition res_ok (res : response) : bool :=
  (200 <=? res_status res)%N && (res_status res <=? 299)%N.

(** ** React state of [PolicyChatUI] and the updates queued on it *)

(** The state of the component: the hook's [sessionId] and the six [useState]
    cells.  [messages_ref] stands for the identity of the array held in
    [messages]: it changes exactly when a new array object is stored, which is
    what the dependency comparison of an effect observes. *)
Record ui : Type := UI {
  sessionId : option string;
  sessions : json;
  activeId : option string;
  messages : json;
  messages_ref : nat;
  input : string;
  isSending : bool;
  err : string;
}.

(** The two updater functions that [onSend] passes to [setMessages].  Both
    mention the variable [currentId] of the enclosing call, which they read
    when they are called.
    - [AppendAndSave msg] is
      [(prev) => { const updated = [...prev, msg]; saveMessages(currentId, updated); return updated; }]
    - [Rekey realId] is
      [(prevMessages) => { localStorage.removeItem(MSG_KEY(currentId)); saveMessages(realId, prevMessages); return prevMessages; }] *)
Inductive updater : Type :=
| AppendAndSave (msg : json)
| Rekey (realId : string).

Inductive update : Type :=
| Set_sessionId (v : option string)
| Set_sessions (v : json)
| Set_activeId (v : option string)
| Set_messages (v : json)
| Upd_messages (f : updater)
| Set_input (v : string)
| Set_isSending (v : bool)
| Set_err (v : string).

(** ** Handlers: storage effects and queued updates, with exceptions *)

(** What a running handler has done so far: the storage, the updates queued,
    and the value of the variable [currentId] of [onSend], which the queued
    updater functions share with the call that created them. *)
Record hst : Type := Hst {
  h_ls : storage;
  h_queue : list update;
  h_currentId : string;
}.

Definition H (A : Type) : Type := hst -> hst * js A.

Definition h_ret {A} (a : A) : H A := fun h => (h, Ok a).

Definition h_bind {A B} (m : H A) (k : A -> H B) : H B :=
  fun h =>
    match m h with
    | (h', Ok a) => k a h'
    | (h', Throw e) => (h', Throw e)
    end.

Definition h_catch {A} (m : H A) (handler : exn -> H A) : H A :=
  fun h =>
    match m h with
    | (h', Ok a) => (h', Ok a)
    | (h', Throw e) => handler e h'
    end.

(** [try { m } finally { f }] *)
Definition h_finally {A} (m : H A) (f : H unit) : H A :=
  fun h =>
    match m h with
    | (h', r) =>
        match f h' with
        | (h'', Ok _) => (h'', r)
        | (h'', Throw e) => (h'', Throw e)
        end
    end.

Definition h_lift {A} (m : js A) : H A := fun h => (h, m).

(** A storage operation. *)
Definition h_store (f : storage -> storage) : H unit :=
  fun h => (Hst (f (h_ls h)) (h_queue h) (h_currentId h), Ok tt).

(** A storage read. *)
Definition h_read {A} (f : storage -> A) : H A :=
  fun h => (h, Ok (f (h_ls h))).

(** A storage read that can throw. *)
Definition h_load {A} (f : storage -> js A) : H A :=
  fun h => (h, f (h_ls h)).

(** A call of a state setter. *)
Definition enqueue (u : update) : H unit :=
  fun h => (Hst (h_ls h) (h_queue h ++ [u]) (h_currentId h), Ok tt).

(** [currentId = id] *)
Definition assign_currentId (id : string) : H unit :=
  fun h => (Hst (h_ls h) (h_queue h) id, Ok tt).

(** A read of [currentId]. *)
Definition read_currentId : H string :=
  fun h => (h, Ok (h_currentId h)).

Notation "'let*' x ':=' m 'in' k" := (h_bind m (fun x => k))
  (at level 10, x name, m at level 100, k at level 200, only parsing).
Notation "m '>>' k" := (h_bind m (fun _ => k))
  (at level 100, k at level 200, right associativity, only parsing).

(** ** Identifiers, titles and local keys of [policyChatUI.jsx] *)

Definition SESSIONS_KEY : string := "policyChat.sessions".

Definition MSG_KEY (id : string) : string := "policyChat.messages." +:+ id.

(** [`local-${crypto.randomUUID()}`]; the UUID is an input of the model. *)
Definition makeLocalId (uuid : string) : string := "local-" +:+ uuid.

(** [id.startsWith("local-")] *)
Definition is_provisional (id : string) : bool := String.prefix "local-" id.

(** The values the handlers draw from [crypto.randomUUID()] and [nowIso()],
    in the order of the calls. *)
Record entropy : Type := Entropy {
  uuid_a : string;
  uuid_b : string;
  now_a : string;
  now_b : string;
}.

(** Truthiness of a parsed value. *)
Definition json_truthy (v : json) : bool :=
  match v with
  | JNull => false
  | JBool b => b
  | JNum n => negb (n =? 0)%Z
  | JStr s => negb (String.eqb s "")
  | JArr _ | JObj _ => true
  end.

(** [e?.message || String(e)] for an error object [e]. *)
Definition err_text (e : exn) : string :=
  if String.eqb (e_message e) "" then e_name e else e_message e.

(** The request that is in flight across the [await] of [onSend], with the
    variables of the call that its continuation reads. *)
Record pending : Type := Pending {
  p_text : string;
  p_currentId : string;
  p_sendSessionId : option string;
  p_request : request;
}.

Section PolicyChat.

(** [import.meta.env.VITE_API_BASE] *)
Variable VITE_API_BASE : option string.

(** [JSON.parse] and [JSON.stringify] *)
Variable JSON_parse : string -> js json.
Variable JSON_stringify : json -> string.

(** The message of a [TypeError] raised by the engine. *)
Variable type_error_message : string.

(** [s.trim()], [s.replace(/\s+/g, " ")], [s.length] and [s.slice(0, n)] *)
Variable trim : string -> string.
Variable collapse_ws : string -> string.
Variable str_length : string -> nat.
Variable str_slice : nat -> string -> string.

Definition TypeError : exn := Exn "TypeError" type_error_message.

(** *** policyChatUI.jsx: titles *)

Definition formatTitle (text : string) : string :=
  let t := collapse_ws (trim text) in
  if String.eqb t "" then "New chat"
  else if (36 <? str_length t)%nat then str_slice 36 t +:+ "…"
  else t.

(** *** policyTransport.js, continued *)

Definition API_BASE : string :=
  match VITE_API_BASE with
  | Some base => base
  | None => "http://127.0.0.1:8000"
  end.

(** [session_id ? { session_id, message } : { message }] *)
Definition chat_body (session_id : option string) (message : string) : json :=
  match session_id with
  | Some sid =>
      if truthy session_id
      then JObj [("session_id", JStr sid); ("message", JStr message)]
      else JObj [("message", JStr message)]
  | None => JObj [("message", JStr message)]
  end.

(** [sendChatMessage] up to its call of [fetch]. *)
Definition sendChatMessage_request
    (message : string) (overrideSessionId : option string) (ls : storage)
  : request :=
  let session_id := nullish overrideSessionId (getSessionId ls) in
  {| req_url := API_BASE +:+ "/chat";
     req_method := "POST";
     req_headers := [("Content-Type", "application/json")];
     req_body := JSON_stringify (chat_body session_id message) |}.

(** [new Error(`Backend error (${res.status}): ${text || res.statusText}`)]
    with [text = await res.text().catch(() => "")]. *)
Definition backend_error (res : response) : exn :=
  let text := match res_text res with Ok t => t | Throw _ => "" end in
  Exn "Error"
    ("Backend error (" +:+ pretty (res_status res) +:+ "): "
       +:+ (if String.eqb text "" then res_statusText res else text)).

(** [sendChatMessage] from the point where [fetch] settles, with the
    response or with the error of a rejected [fetch]. *)
Definition sendChatMessage_settle (fetched : js response) : H chat_data :=
  let* res := h_lift fetched in
  if negb (res_ok res) then h_lift (Throw (backend_error res))
  else
    let* data := h_lift (res_json res) in
    (if truthy (d_session_id data)
     then h_store (setSessionId (d_session_id data))
     else h_ret tt) >>
    h_ret data.

(** *** usePolicyChat.js *)

Definition setSessionIdState (id : option string) : H unit :=
  enqueue (Set_sessionId id) >>
  if truthy id then h_store (setSessionId id) else h_ret tt.

Definition clearSessionIdState : H unit :=
  h_store clearSessionId >>
  enqueue (Set_sessionId None).

(** [sendMessage] calls [sendChatMessage] at once, so its request is
    [sendChatMessage_request]; this is its continuation. *)
Definition sendMessage_settle (fetched : js response) : H chat_data :=
  let* data := sendChatMessage_settle fetched in
  (if truthy (d_session_id data)
   then setSessionIdState (d_session_id data)
   else h_ret tt) >>
  h_ret data.

(** *** policyChatUI.jsx: storage helpers *)

(** [JSON.parse(json)] converts its argument to a string first: [null] is
    read as the text [null]. *)
Definition safeParse (text : option string) (fallback : json) : js json :=
  js_catch
    (js_bind (JSON_parse (default "null" text))
       (fun v => Ok (match v with JNull => fallback | _ => v end)))
    (fun _ => Ok fallback).

Definition loadSessions (ls : storage) : js json :=
  safeParse (getItem ls SESSIONS_KEY) (JArr []).

Definition saveSessions (sessions : json) (ls : storage) : storage :=
  setItem SESSIONS_KEY (JSON_stringify sessions) ls.

Definition loadMessages (sessionId : option string) (ls : storage) : js json :=
  match sessionId with
  | Some id =>
      if truthy sessionId then safeParse (getItem ls (MSG_KEY id)) (JArr [])
      else Ok (JArr [])
  | None => Ok (JArr [])
  end.

Definition saveMessages (sessionId : option string) (messages : json)
    (ls : storage) : storage :=
  match sessionId with
  | Some id =>
      if truthy sessionId then setItem (MSG_KEY id) (JSON_stringify messages) ls
      else ls
  | None => ls
  end.

(** *** Operations on parsed arrays *)

(** [s.id] *)
Definition prop_id (s : json) : js (option json) :=
  match s with
  | JNull => Throw TypeError
  | JObj fields => Ok (assoc "id" fields)
  | _ => Ok None
  end.

(** [s.id === id] *)
Definition id_is (id : string) (s : json) : js bool :=
  js_bind (prop_id s)
    (fun v => Ok (match v with
                  | Some (JStr i) => String.eqb i id
                  | _ => false
                  end)).

Fixpoint filter_items (id : string) (items : list json) : js (list json) :=
  match items with
  | [] => Ok []
  | s :: rest =>
      js_bind (id_is id s) (fun same =>
      js_bind (filter_items id rest) (fun rest' =>
      Ok (if same then rest' else s :: rest')))
  end.

(** [v.filter((s) => s.id !== id)] *)
Definition without_id (id : string) (v : json) : js (list json) :=
  match v with
  | JArr items => filter_items id items
  | _ => Throw TypeError
  end.

Fixpoint rekey_items (currentId realId : string) (items : list json)
  : js (list json) :=
  match items with
  | [] => Ok []
  | s :: rest =>
      js_bind (id_is currentId s) (fun same =>
      js_bind (rekey_items currentId realId rest) (fun rest' =>
      Ok ((match s with
           | JObj fields =>
               if same then JObj (set_field "id" (JStr realId) fields) else s
           | _ => s
           end) :: rest')))
  end.

(** [v.map((s) => (s.id === currentId ? { ...s, id: realId } : s))] *)
Definition with_rekeyed_id (currentId realId : string) (v : json)
  : js (list json) :=
  match v with
  | JArr items => rekey_items currentId realId items
  | _ => Throw TypeError
  end.

(** [[...v]] *)
Definition spread (v : json) : js (list json) :=
  match v with
  | JArr items => Ok items
  | JStr s =>
      Ok (map (fun c => JStr (String c EmptyString)) (list_ascii_of_string s))
  | _ => Throw TypeError
  end.

(** [v.length === 0] *)
Definition length_is_zero (v : json) : js bool :=
  match v with
  | JNull => Throw TypeError
  | JArr items => Ok (match items with [] => true | _ => false end)
  | JStr s => Ok (String.eqb s "")
  | JObj fields =>
      Ok (match assoc "length" fields with
          | Some (JNum 0) => true
          | _ => false
          end)
  | _ => Ok false
  end.

(** *** policyChatUI.jsx: handlers *)

Definition upsertSession (id title now : string) : H unit :=
  let next :=
    JObj [("id", JStr id);
          ("title", JStr (if String.eqb title "" then "New chat" else title));
          ("updatedAt", JStr now)] in
  let* existing := h_load loadSessions in
  let* kept := h_lift (without_id id existing) in
  let out := JArr (next :: kept) in
  h_store (saveSessions out) >>
  enqueue (Set_sessions out).

Definition startNewChat (e : entropy) : H unit :=
  enqueue (Set_err "") >>
  enqueue (Set_input "") >>
  enqueue (Set_isSending false) >>
  clearSessionIdState >>
  let tempId := makeLocalId (uuid_a e) in
  enqueue (Set_activeId (Some tempId)) >>
  setSessionIdState (Some tempId) >>
  upsertSession tempId "New chat" (now_a e) >>
  enqueue (Set_messages (JArr [])).

Definition deleteChat (st : ui) (id : string) : H unit :=
  let* existing := h_load loadSessions in
  let* next := h_lift (without_id id existing) in
  h_store (saveSessions (JArr next)) >>
  enqueue (Set_sessions (JArr next)) >>
  h_store (removeItem (MSG_KEY id)) >>
  if bool_decide (activeId st = Some id)
  then
    enqueue (Set_activeId None) >>
    clearSessionIdState >>
    enqueue (Set_messages (JArr []))
  else h_ret tt.

(** The [onClick] of an entry of the sidebar. *)
Definition selectSession (id : string) : H unit :=
  enqueue (Set_err "") >>
  enqueue (Set_activeId (Some id)) >>
  setSessionIdState (Some id).

(** [onSend] up to its [await]: [None] when it returns at once, and the
    request it has issued otherwise. *)
Definition onSend_start (st : ui) (e : entropy) : H (option pending) :=
  let text := trim (input st) in
  if String.eqb text "" || isSending st then h_ret None
  else
    enqueue (Set_err "") >>
    enqueue (Set_isSending true) >>
    enqueue (Set_input "") >>
    (if truthy (activeId st) then assign_currentId (default "" (activeId st))
     else
       let c := makeLocalId (uuid_a e) in
       assign_currentId c >>
       enqueue (Set_activeId (Some c)) >>
       setSessionIdState (Some c) >>
       upsertSession c (formatTitle text) (now_a e)) >>
    let userMsg :=
      JObj [("id", JStr (uuid_b e)); ("role", JStr "user"); ("text", JStr text)] in
    enqueue (Upd_messages (AppendAndSave userMsg)) >>
    let* currentId := read_currentId in
    upsertSession currentId (formatTitle text) (now_b e) >>
    let sendSessionId :=
      if is_provisional currentId then None else Some currentId in
    let* req := h_read (sendChatMessage_request text sendSessionId) in
    h_ret (Some (Pending text currentId sendSessionId req)).

(** [onSend] from the point where [sendMessage] settles. *)
Definition onSend_settle (p : pending) (fetched : js response) (e : entropy)
  : H unit :=
  let currentId := p_currentId p in
  assign_currentId currentId >>
  h_finally
    (h_catch
       (let* result := sendMessage_settle fetched in
        let realId :=
          or_else (d_session_id result)
            (or_else (p_sendSessionId p) (Some currentId)) in
        (match realId with
         | Some real =>
             if is_provisional currentId && truthy realId
                && negb (String.eqb real currentId)
             then
               enqueue (Upd_messages (Rekey real)) >>
               let* stored := h_load loadSessions in
               let* updated := h_lift (with_rekeyed_id currentId real stored) in
               h_store (saveSessions (JArr updated)) >>
               enqueue (Set_sessions (JArr updated)) >>
               enqueue (Set_activeId (Some real)) >>
               setSessionIdState (Some real) >>
               assign_currentId real
             else h_ret tt
         | None => h_ret tt
         end) >>
        let assistantMsg :=
          JObj [("id", JStr (uuid_a e));
                ("role", JStr "assistant");
                ("text", JStr (if truthy (d_answer result)
                               then default "" (d_answer result)
                               else "(No answer returned)"));
                ("sources", match d_sources result with
                            | Some v => if json_truthy v then v else JArr []
                            | None => JArr []
                            end)] in
        enqueue (Upd_messages (AppendAndSave assistantMsg)))
       (fun ex => enqueue (Set_err (err_text ex))))
    (enqueue (Set_isSending false)).

(** What the composer renders: [disabled={isSending}] on the input and
    [disabled={!input.trim() || isSending}] on the send button. *)
Definition input_disabled (st : ui) : bool := isSending st.

Definition send_disabled (st : ui) : bool :=
  String.eqb (trim (input st)) "" || isSending st.

(** *** Rendering: the queue of updates *)

Definition store_messages (v : json) (st : ui) : ui :=
  UI (sessionId st) (sessions st) (activeId st) v (S (messages_ref st))
     (input st) (isSending st) (err st).

(** A call of an updater function, at render time; [currentId] is the value
    that the variable has then. *)
Definition run_updater (currentId : string) (f : updater) (st : ui)
    (ls : storage) : js (ui * storage) :=
  match f with
  | AppendAndSave msg =>
      js_bind (spread (messages st)) (fun prev =>
      let updated := JArr (prev ++ [msg]) in
      Ok (store_messages updated st, saveMessages (Some currentId) updated ls))
  | Rekey realId =>
      Ok (st, saveMessages (Some realId) (messages st)
                (removeItem (MSG_KEY currentId) ls))
  end.

Definition apply_update (currentId : string) (u : update) (st : ui)
    (ls : storage) : js (ui * storage) :=
  match u with
  | Set_sessionId v =>
      Ok (UI v (sessions st) (activeId st) (messages st) (messages_ref st)
            (input st) (isSending st) (err st), ls)
  | Set_sessions v =>
      Ok (UI (sessionId st) v (activeId st) (messages st) (messages_ref st)
            (input st) (isSending st) (err st), ls)
  | Set_activeId v =>
      Ok (UI (sessionId st) (sessions st) v (messages st) (messages_ref st)
            (input st) (isSending st) (err st), ls)
  | Set_messages v => Ok (store_messages v st, ls)
  | Upd_messages f => run_updater currentId f st ls
  | Set_input v =>
      Ok (UI (sessionId st) (sessions st) (activeId st) (messages st)
            (messages_ref st) v (isSending st) (err st), ls)
  | Set_isSending v =>
      Ok (UI (sessionId st) (sessions st) (activeId st) (messages st)
            (messages_ref st) (input st) v (err st), ls)
  | Set_err v =>
      Ok (UI (sessionId st) (sessions st) (activeId st) (messages st)
            (messages_ref st) (input st) (isSending st) v, ls)
  end.

(** The render that follows a handler: the queued updates in order. *)
Fixpoint flush (currentId : string) (queue : list update) (st : ui)
    (ls : storage) : js (ui * storage) :=
  match queue with
  | [] => Ok (st, ls)
  | u :: rest =>
      js_bind (apply_update currentId u st ls) (fun r =>
      flush currentId rest (fst r) (snd r))
  end.

(** *** Effects

    The four effects that touch the state or the storage.  The fifth, which
    scrolls to the last message, does neither and is left out. *)

(** The values the dependency arrays of the effects are compared on. *)
Record deps : Type := Deps {
  dep_sessionId : option string;
  dep_activeId : option string;
  dep_messages : nat;
}.

Definition deps_of (st : ui) : deps :=
  Deps (sessionId st) (activeId st) (messages_ref st).

Definition changed {A} `{EqDecision A} (f : deps -> A) (prev : option deps)
    (now : deps) : bool :=
  match prev with
  | None => true
  | Some d => negb (bool_decide (f d = f now))
  end.

(** [useEffect(() => { if (sessionId) setSessionId(sessionId); }, [sessionId])]
    of the hook. *)
Definition effect_persist (st : ui) : H unit :=
  if truthy (sessionId st) then h_store (setSessionId (sessionId st))
  else h_ret tt.

(** [if (sessionId && sessionId !== activeId) setActiveId(sessionId);] *)
Definition effect_follow (st : ui) : H unit :=
  if truthy (sessionId st) && negb (bool_decide (sessionId st = activeId st))
  then enqueue (Set_activeId (sessionId st))
  else h_ret tt.

(** [if (!activeId) { setMessages([]); return; } setMessages(loadMessages(activeId));] *)
Definition effect_load (st : ui) : H unit :=
  if negb (truthy (activeId st)) then enqueue (Set_messages (JArr []))
  else
    let* msgs := h_load (loadMessages (activeId st)) in
    enqueue (Set_messages msgs).

(** [if (!activeId || messages.length === 0) return; saveMessages(activeId, messages);] *)
Definition effect_save (st : ui) : H unit :=
  if negb (truthy (activeId st)) then h_ret tt
  else
    let* empty := h_lift (length_is_zero (messages st)) in
    if empty then h_ret tt
    else h_store (saveMessages (activeId st) (messages st)).

(** The effects of one commit, in the order of their declaration; [prev] is
    the previous commit, or [None] at mount. *)
Definition effects_pass (prev : option deps) (st : ui) : H unit :=
  let now := deps_of st in
  (if changed dep_sessionId prev now then effect_persist st else h_ret tt) >>
  (if changed dep_sessionId prev now || changed dep_activeId prev now
   then effect_follow st else h_ret tt) >>
  (if changed dep_activeId prev now then effect_load st else h_ret tt) >>
  (if changed dep_activeId prev now || changed dep_messages prev now
   then effect_save st else h_ret tt).

(** Commit, run the effects, render again while they queued updates.
    [None] only when [fuel] commits did not reach a quiet one. *)
Fixpoint settle (fuel : nat) (prev : option deps) (st : ui) (ls : storage)
  : option (js (ui * storage)) :=
  match fuel with
  | O => None
  | S fuel' =>
      match effects_pass prev st (Hst ls [] "") with
      | (_, Throw e) => Some (Throw e)
      | (h, Ok _) =>
          match h_queue h with
          | [] => Some (Ok (st, h_ls h))
          | queue =>
              match flush "" queue st (h_ls h) with
              | Throw e => Some (Throw e)
              | Ok (st', ls') => settle fuel' (Some (deps_of st)) st' ls'
              end
          end
      end
  end.

(** *** The client as a transition system *)

Record sys : Type := Sys {
  s_ui : ui;
  s_ls : storage;
  s_inflight : list pending;
}.

Inductive event : Type :=
| Type_input (v : string)
| Press_send (e : entropy)
| New_chat (e : entropy)
| Select_session (id : string)
| Delete_chat (id : string)
| Settle (i : nat) (fetched : js response) (e : entropy).

(** The render and the effects that follow a handler which left [h].  An
    exception of the handler itself does not stop them; an exception while
    rendering or in an effect ends the component ([None]). *)
Definition commit (st : ui) (h : hst) : option (ui * storage) :=
  match flush (h_currentId h) (h_queue h) st (h_ls h) with
  | Throw _ => None
  | Ok (st', ls') =>
      match settle 4 (Some (deps_of st)) st' ls' with
      | Some (Ok r) => Some r
      | _ => None
      end
  end.

Definition handle (s : sys) (inflight : list pending) (h : hst) : option sys :=
  match commit (s_ui s) h with
  | Some (st', ls') => Some (Sys st' ls' inflight)
  | None => None
  end.

Definition step (s : sys) (ev : event) : option sys :=
  let h0 := Hst (s_ls s) [] "" in
  match ev with
  | Type_input v =>
      if input_disabled (s_ui s) then Some s
      else handle s (s_inflight s) (fst (enqueue (Set_input v) h0))
  | Press_send e =>
      match onSend_start (s_ui s) e h0 with
      | (h, Ok (Some p)) => handle s (s_inflight s ++ [p]) h
      | (h, _) => handle s (s_inflight s) h
      end
  | New_chat e => handle s (s_inflight s) (fst (startNewChat e h0))
  | Select_session id => handle s (s_inflight s) (fst (selectSession id h0))
  | Delete_chat id => handle s (s_inflight s) (fst (deleteChat (s_ui s) id h0))
  | Settle i fetched e =>
      match s_inflight s !! i with
      | Some p =>
          handle s (delete i (s_inflight s))
            (fst (onSend_settle p fetched e h0))
      | None => Some s
      end
  end.

Fixpoint run (s : sys) (evs : list event) : option sys :=
  match evs with
  | [] => Some s
  | ev :: rest =>
      match step s ev with
      | Some s' => run s' rest
      | None => None
      end
  end.

(** The first render of the component over a given storage. *)
Definition mount (ls : storage) : option sys :=
  let sid := or_else (getSessionId ls) None in
  match loadSessions ls, loadMessages (or_else sid None) ls with
  | Ok ss, Ok ms =>
      let st := UI sid ss (or_else sid None) ms 0 "" false "" in
      match settle 4 None st ls with
      | Some (Ok (st', ls')) => Some (Sys st' ls' [])
      | _ => None
      end
  | _, _ => None
  end.

(** ** The retrieval engine behind [/chat]

    The engine is not part of the client sources; its components are taken
    from sections 3 and 4 of the specification.  Distances are on an integer
    scale.  The collaborators the specification leaves external (the corpus
    held by the vector store, the distance of a query to a stored embedding,
    the language model, the prompt formats, the configuration) are variables. *)

(** Modelled from the spec: Section (3), the coarse retrieval unit; its
    embedding is seen through [section_distance]. *)
Record doc_section : Type := DocSection {
  sec_id : string;
  sec_document_id : string;
  sec_order_index : nat;
}.

(** Modelled from the spec: Chunk (3), the fine retrieval unit; its embedding
    is seen through [chunk_distance]. *)
Record chunk : Type := Chunk {
  chunk_id : string;
  chunk_document_id : string;
  chunk_section_id : string;
  chunk_text : string;
  chunk_order_index : nat;
}.

(** Modelled from the spec: RetrievalResult (3). *)
Inductive result_kind : Type := kind_section | kind_chunk.

(** Modelled from the spec: RetrievalResult (3). *)
Record RetrievalResult : Type := Result {
  entity_id : string;
  distance : Z;
  kind : result_kind;
}.

(** Modelled from the spec: Citation (3). *)
Record Citation : Type := Cite {
  cit_document_id : string;
  cit_chunk_id : string;
  cit_file_name : string;
  cit_chunk_part : nat;
  cit_distance : Z;
}.

(** Modelled from the spec: the role of a Turn (3). *)
Inductive role : Type := role_user | role_assistant.

(** Modelled from the spec: Turn (3), without its timestamp. *)
Record Turn : Type := MkTurn {
  turn_role : role;
  turn_text : string;
  turn_sources : list Citation;
}.

(** Modelled from the spec: ContextBundle (3). *)
Record ContextBundle : Type := Bundle {
  bundle_pairs : list (chunk * Citation);
  bundle_abstain : bool;
}.

(** Modelled from the spec: what a call of the Language Model Client is made
    for, query rewriting (4.2) or answer synthesis (4.6). *)
Inductive lm_purpose : Type := Rewriting | Synthesis.

(** Modelled from the spec: a call of the Language Model Client. *)
Record lm_call : Type := LmCall { call_purpose : lm_purpose; call_prompt : string }.

(** Modelled from the spec: the error taxonomy (7). *)
Inductive error_kind : Type :=
| InvalidInput
| UpstreamUnavailable
| SessionNotFound
| PersistenceFailure
| SynthesisFailure.

(** Modelled from the spec: the success response of the endpoint (6). *)
Record reply : Type := Reply {
  reply_answer : string;
  reply_sources : list Citation;
  reply_session_id : string;
}.

(** Modelled from the spec: the result of [handle] (4.1, 7). *)
Inductive outcome : Type :=
| Failed (k : error_kind)
| Replied (r : reply).

Variable corpus_sections : list doc_section.
Variable corpus_chunks : list chunk.
Variable section_distance : string -> doc_section -> Z.
Variable chunk_distance : string -> chunk -> Z.
Variable file_name_of : string -> string.

(** The language model: the completion of a prompt, or a failure, at the
    given number of earlier calls. *)
Variable lm_complete : nat -> string -> option string.
Variable rewrite_prompt : list Turn -> string -> string.
Variable synthesis_prompt : string -> list (nat * string) -> string.

(** Whether a generated text uses the reference token of the chunk at a
    position of the context. *)
Variable uses_reference : string -> nat -> bool.

Variable coarse_k fine_n context_budget history_window : nat.

(** The distance beyond which the coarse stage does not keep a section. *)
Variable coarse_threshold : Z.

(** The id the session store assigns to a new session. *)
Variable fresh_session_id : gmap string (list Turn) -> string.

(** Modelled from the spec: the fixed non-fabricating response of the Answer
    Synthesizer (4.6). *)
Definition ABSTENTION_TEXT : string :=
  "I don't have information on that in the policy set".

(** Modelled from the spec: the order of retrieval results, ascending
    distance with ties broken by ascending [order_index] (4.3, 4.4). *)
Definition ranked_before (a b : Z * nat) : Prop :=
  (a.1 < b.1)%Z \/ (a.1 = b.1 /\ a.2 <= b.2).

#[local] Instance ranked_before_dec a b : Decision (ranked_before a b).
Proof. unfold ranked_before. apply _. Defined.

(** Modelled from the spec: ranking of a list by such a key. *)
Definition rank {A : Type} (key : A -> Z * nat) (l : list A) : list A :=
  merge_sort (fun x y => ranked_before (key x) (key y)) l.

(** Modelled from the spec: the Coarse Retriever (4.3), top [k] sections by
    ascending distance over the section-level embeddings, among those within
    the distance threshold that 4.4 gives the coarse stage. *)
Definition coarse_search (query : string) (k : nat) : list string :=
  sec_id <$>
    take k (rank (fun s => (section_distance query s, sec_order_index s))
              (filter (fun s => (section_distance query s <= coarse_threshold)%Z)
                 corpus_sections)).

(** Modelled from the spec: membership of a chunk in a candidate scope, by
    its section or its document (4.4). *)
Definition in_scope (scope : gset string) (c : chunk) : Prop :=
  chunk_section_id c ∈ scope \/ chunk_document_id c ∈ scope.

#[local] Instance in_scope_dec scope c : Decision (in_scope scope c).
Proof. unfold in_scope. apply _. Defined.

(** Modelled from the spec: the Fine Retriever (4.4), the hard filter on the
    candidate scope, then the top [n] chunks; skipped on an empty scope. *)
Definition fine_search (query : string) (candidate_scope : gset string)
    (n : nat) : list RetrievalResult :=
  if decide (candidate_scope = ∅) then []
  else
    (fun c => Result (chunk_id c) (chunk_distance query c) kind_chunk) <$>
      take n (rank (fun c => (chunk_distance query c, chunk_order_index c))
                (filter (in_scope candidate_scope) corpus_chunks)).

(** Modelled from the spec: the chunk a retrieval result refers to. *)
Definition find_chunk (id : string) : option chunk :=
  List.find (fun c => bool_decide (chunk_id c = id)) corpus_chunks.

(** Modelled from the spec: deduplication by chunk id (4.5). *)
Fixpoint dedupe (seen : gset string) (results : list RetrievalResult)
  : list RetrievalResult :=
  match results with
  | [] => []
  | r :: rest =>
      if decide (entity_id r ∈ seen) then dedupe seen rest
      else r :: dedupe ({[entity_id r]} ∪ seen) rest
  end.

(** Modelled from the spec: greedy inclusion until the cumulative size would
    exceed the budget; what does not fit is dropped (4.5). *)
Fixpoint take_within (budget : nat) (l : list (chunk * Z)) : list (chunk * Z) :=
  match l with
  | [] => []
  | (c, d) :: rest =>
      let size := String.length (chunk_text c) in
      if (size <=? budget)%nat then (c, d) :: take_within (budget - size) rest
      else []
  end.

(** Modelled from the spec: presentation order, by document and position
    (4.5). *)
Definition document_order (a b : chunk * Z) : Prop :=
  String.ltb (chunk_document_id a.1) (chunk_document_id b.1) = true
  \/ (chunk_document_id a.1 = chunk_document_id b.1
      /\ chunk_order_index a.1 <= chunk_order_index b.1).

#[local] Instance document_order_dec a b : Decision (document_order a b).
Proof. unfold document_order. apply _. Defined.

(** Modelled from the spec: the Context Assembler (4.5). *)
Definition assemble (results : list RetrievalResult) (budget : nat)
  : ContextBundle :=
  match results with
  | [] => Bundle [] true
  | _ =>
      let found :=
        omap (fun r => (fun c => (c, distance r)) <$> find_chunk (entity_id r))
          (rank (fun r => (distance r, O)) (dedupe ∅ results)) in
      let included := merge_sort document_order (take_within budget found) in
      Bundle
        ((fun cd =>
            (cd.1, Cite (chunk_document_id cd.1) (chunk_id cd.1)
                     (file_name_of (chunk_document_id cd.1))
                     (chunk_order_index cd.1) cd.2)) <$> included)
        false
  end.

(** Modelled from the spec: the citations whose reference token the text
    uses (4.6). *)
Fixpoint used_citations (text : string) (i : nat)
    (pairs : list (chunk * Citation)) : list Citation :=
  match pairs with
  | [] => []
  | (_, cit) :: rest =>
      if uses_reference text i then cit :: used_citations text (S i) rest
      else used_citations text (S i) rest
  end.

(** Modelled from the spec: the ordered chunk texts with their reference
    tokens (4.6). *)
Definition numbered_texts (pairs : list (chunk * Citation)) : list (nat * string) :=
  imap (fun i p => (i, chunk_text p.1)) pairs.

(** Modelled from the spec: the Answer Synthesizer (4.6).  The log is the
    sequence of language-model calls made so far; [None] is the synthesis
    error after the single retry. *)
Definition synthesize (query : string) (bundle : ContextBundle)
    (log : list lm_call) : list lm_call * option (string * list Citation) :=
  if bundle_abstain bundle then (log, Some (ABSTENTION_TEXT, []))
  else
    let prompt := synthesis_prompt query (numbered_texts (bundle_pairs bundle)) in
    let call := LmCall Synthesis prompt in
    match lm_complete (List.length log) prompt with
    | Some text =>
        ((log ++ [call])%list, Some (text, used_citations text 0 (bundle_pairs bundle)))
    | None =>
        match lm_complete (S (List.length log)) prompt with
        | Some text =>
            ((log ++ [call; call])%list,
             Some (text, used_citations text 0 (bundle_pairs bundle)))
        | None => ((log ++ [call; call])%list, None)
        end
    end.

(** Modelled from the spec: the Query Rewriter (4.2), identity on an empty
    history and on a failure of the language model. *)
Definition rewrite (history : list Turn) (latest_message : string)
    (log : list lm_call) : list lm_call * string :=
  match history with
  | [] => (log, latest_message)
  | _ =>
      let prompt := rewrite_prompt history latest_message in
      match lm_complete (List.length log) prompt with
      | Some q => ((log ++ [LmCall Rewriting prompt])%list, q)
      | None => ((log ++ [LmCall Rewriting prompt])%list, latest_message)
      end
  end.

(** Modelled from the spec: the session the orchestrator works on, the
    stored one for a known id and a new one otherwise (4.1). *)
Definition open_session (store : gmap string (list Turn))
    (session_id : option string) : string * list Turn :=
  match session_id with
  | Some id =>
      match store !! id with
      | Some turns => (id, turns)
      | None => (fresh_session_id store, [])
      end
  | None => (fresh_session_id store, [])
  end.

(** Modelled from the spec: the bounded recent history (4.1). *)
Definition recent (turns : list Turn) : list Turn :=
  drop (List.length turns - history_window) turns.

(** Modelled from the spec: the standalone query the retrieval stages of a
    request run on. *)
Definition standalone_query (store : gmap string (list Turn))
    (session_id : option string) (message : string) : string :=
  (rewrite (recent (open_session store session_id).2) message []).2.

(** Modelled from the spec: the Session Orchestrator (4.1), the pipeline of
    section 2 on one incoming message.  It returns the session store, the
    language-model calls it made, and the reply or the error. *)
Definition engine_handle (store : gmap string (list Turn))
    (session_id : option string) (message : string)
  : gmap string (list Turn) * list lm_call * outcome :=
  if String.eqb message "" then (store, [], Failed InvalidInput)
  else
    let '(id, turns) := open_session store session_id in
    let history := recent turns in
    let '(log1, query) := rewrite history message [] in
    let candidates := coarse_search query coarse_k in
    let results := fine_search query (list_to_set candidates) fine_n in
    let bundle := assemble results context_budget in
    match synthesize query bundle log1 with
    | (log2, Some (text, citations)) =>
        (<[id := (turns ++ [MkTurn role_user message [];
                            MkTurn role_assistant text citations])%list]> store,
         log2,
         Replied (Reply text citations id))
    | (log2, None) => (store, log2, Failed SynthesisFailure)
    end.

(** ** Predicates used in the statements *)

(** What one storage transition may do to the persisted session id: leave it
    as it is, or set it to a non-empty string. *)
Definition key_step (ls ls' : storage) : Prop :=
  ls' !! SESSION_STORAGE_KEY = ls !! SESSION_STORAGE_KEY
  \/ exists v, ls' !! SESSION_STORAGE_KEY = Some v /\ v <> "".

(** The same, or remove it. *)
Definition key_step_or_clear (ls ls' : storage) : Prop :=
  key_step ls ls' \/ ls' !! SESSION_STORAGE_KEY = None.

(** The persisted session id is absent or a non-empty string. *)
Definition key_ok (ls : storage) : Prop :=
  forall v, ls !! SESSION_STORAGE_KEY = Some v -> v <> "".

Definition any_storage (ls ls' : storage) : Prop := True.

Definition any_update (u : update) : Prop := True.

Definition not_isSending (u : update) : Prop :=
  match u with
  | Set_isSending _ => False
  | _ => True
  end.

(** The updates that effects queue. *)
Definition effect_update (u : update) : Prop :=
  match u with
  | Set_activeId _ | Set_messages _ => True
  | _ => False
  end.

(** A handler state [h'] that continues [h]: the storage moved along [R] and
    the queue grew by updates in [P]. *)
Definition extends (R : relation storage) (P : update -> Prop) (h h' : hst)
  : Prop :=
  R (h_ls h) (h_ls h')
  /\ exists q, h_queue h' = (h_queue h ++ q)%list /\ Forall P q.

Definition respects (R : relation storage) (P : update -> Prop) {A : Type}
    (m : H A) : Prop :=
  forall h, extends R P h (m h).1.

(** At most one request is in flight, and [isSending] is set while it is. *)
Definition one_in_flight (s : sys) : Prop :=
  s_inflight s = []
  \/ (List.length (s_inflight s) = 1 /\ isSending (s_ui s) = true).

(** The session a request in flight was issued for, as the client sees it. *)
Definition same_session (p q : pending) : Prop :=
  p_currentId p = p_currentId q.

(** No two requests in flight are for the same session. *)
Definition exclusive (s : sys) : Prop :=
  forall i j p q,
    i <> j -> s_inflight s !! i = Some p -> s_inflight s !! j = Some q ->
    ~ same_session p q.

Definition is_New_chat (ev : event) : bool :=
  match ev with
  | New_chat _ => true
  | _ => false
  end.

(** Along the run of the events from a state, a new chat is only started
    when no request is in flight. *)
Fixpoint new_chats_when_idle (s : sys) (evs : list event) : bool :=
  match evs with
  | [] => true
  | ev :: rest =>
      (negb (is_New_chat ev)
       || match s_inflight s with [] => true | _ => false end)
      && match step s ev with
         | Some s' => new_chats_when_idle s' rest
         | None => true
         end
  end.

(** The value of [isSending] after rendering a queue of updates. *)
Fixpoint sending_after (queue : list update) (b : bool) : bool :=
  match queue with
  | [] => b
  | Set_isSending v :: rest => sending_after rest v
  | _ :: rest => sending_after rest b
  end.

(** A commit after which no effect changes the session or the active id:
    neither changed since the previous commit. *)
Definition calm (prev : option deps) (st : ui) : Prop :=
  changed dep_sessionId prev (deps_of st) = false
  /\ changed dep_activeId prev (deps_of st) = false.

(** A commit after which the active id stays: the session id did not change,
    and an active id that changed is the session id. *)
Definition following (prev : option deps) (st : ui) : Prop :=
  changed dep_sessionId prev (deps_of st) = false
  /\ (changed dep_activeId prev (deps_of st) = true ->
      truthy (sessionId st) = true -> sessionId st = activeId st).

(** The persisted session id is untouched. *)
Definition same_key (ls ls' : storage) : Prop :=
  ls' !! SESSION_STORAGE_KEY = ls !! SESSION_STORAGE_KEY.

(** The client from its first render over a storage, through a list of
    events. *)
Definition boot (ls : storage) (evs : list event) : option sys :=
  match mount ls with
  | Some s => run s evs
  | None => None
  end.

(** ** Sample inputs, for running the model *)

Definition entropy_1 : entropy := Entropy "u1" "m1" "t1" "t2".
Definition entropy_2 : entropy := Entropy "m2" "-" "-" "-".
Definition entropy_3 : entropy := Entropy "u3" "m3" "t3" "t4".
Definition entropy_4 : entropy := Entropy "u4" "m4" "t5" "t6".

Definition response_S1 : response :=
  Response 200 "OK" (Ok "")
    (Ok (ChatData (Some "S1") (Some "Quiet hours start at 10pm.") None)).

Definition response_500 : response :=
  Response 500 "Internal Server Error" (Ok "upstream unavailable")
    (Throw (Exn "SyntaxError" "Unexpected token")).

Definition user_message (id text : string) : json :=
  JObj [("id", JStr id); ("role", JStr "user"); ("text", JStr text)].

Definition assistant_message (id text : string) : json :=
  JObj [("id", JStr id); ("role", JStr "assistant"); ("text", JStr text);
        ("sources", JArr [])].

Definition session_entry (id title updatedAt : string) : json :=
  JObj [("id", JStr id); ("title", JStr title); ("updatedAt", JStr updatedAt)].

(** A storage left by an earlier visit whose session is the server's ["A"]. *)
Definition storage_of_session_A : storage :=
  <[SESSION_STORAGE_KEY := "A"]>
    (<[SESSIONS_KEY := json_print (JArr [session_entry "A" "first" "t0"])]> ∅).

Definition first_message : list event :=
  [Type_input "hi"; Press_send entropy_1].

Definition first_exchange : list event :=
  [Type_input "hi"; Press_send entropy_1; Settle 0 (Ok response_S1) entropy_2].

Definition second_message : list event :=
  [Type_input "hi"; Press_send entropy_1; Settle 0 (Ok response_S1) entropy_2;
   Type_input "and on weekends?"; Press_send entropy_4].

Definition message_in_new_chat : list event :=
  [New_chat entropy_3; Type_input "hi"; Press_send entropy_1].

Definition two_sends_around_new_chat : list event :=
  [Type_input "q1"; Press_send entropy_1; New_chat entropy_3;
   Select_session "A"; Type_input "q2"; Press_send entropy_4].

Definition failed_exchange : list event :=
  [Type_input "hi"; Press_send entropy_1; Settle 0 (Ok response_500) entropy_2].

Definition sample_chunks : list chunk :=
  [Chunk "c1" "d1" "s1" "Alcohol is not permitted in residence halls." 0;
   Chunk "c2" "d1" "s2" "Leave requires the approval of the dean." 1;
   Chunk "c3" "d2" "s3" "Parking permits are issued each term." 0].

Definition sample_sections : list doc_section :=
  [DocSection "s1" "d1" 0; DocSection "s2" "d1" 1; DocSection "s3" "d2" 0].

Definition sample_chunk_distance (query : string) (c : chunk) : Z :=
  Z.of_nat (String.length (chunk_text c)).

Definition sample_section_distance (query : string) (s : doc_section) : Z :=
  Z.of_nat (sec_order_index s) + 7.

(** The client after its first render over an empty storage. *)
Definition fresh_client : sys :=
  Sys (UI None (JArr []) None (JArr []) 1 "" false "") ∅ [].

(** U+00A0, the no-break space, in UTF-8. *)
Definition no_break_space : string :=
  String (ascii_of_nat 194) (String (ascii_of_nat 160) EmptyString).

(** A composer that holds white space only: a space, a no-break space and a
    tab. *)
Definition blank_composer : sys :=
  Sys (UI None (JArr []) None (JArr [])
         0 (" " +:+ no_break_space +:+ String (ascii_of_nat 9) EmptyString)
         false "")
      ∅ [].

Definition pending_A : pending :=
  Pending "hi" "A" (Some "A")
    (Request "http://127.0.0.1:8000/chat" "POST"
       [("Content-Type", "application/json")]
       (json_print (JObj [("session_id", JStr "A"); ("message", JStr "hi")]))).

(** Session ["A"] with one message sent and its reply awaited. *)
Definition awaiting_reply : sys :=
  Sys (UI (Some "A") (JArr [session_entry "A" "hi" "t0"]) (Some "A")
         (JArr [user_message "m1" "hi"]) 1 "" true "")
      (<[MSG_KEY "A" := json_print (JArr [user_message "m1" "hi"])]>
         storage_of_session_A)
      [pending_A].

(** The fresh client with a message typed. *)
Definition typed_hi : sys :=
  Sys (UI None (JArr []) None (JArr []) 1 "hi" false "") ∅ [].

(** A reply within session ["A"]. *)
Definition response_A : response :=
  Response 200 "OK" (Ok "")
    (Ok (ChatData (Some "A") (Some "Quiet hours start at 10pm.") None)).

(** The fresh client with a message typed, after the sessions key has been
    rewritten to hold an object. *)
Definition client_with_object_sessions : sys :=
  Sys (UI None (JArr []) None (JArr []) 1 "hi" false "")
      (<[SESSIONS_KEY := "{}"]> ∅) [].



(** Session ["B"] is shown while the reply of session ["A"] is awaited. *)
Definition reply_awaited_elsewhere : sys :=
  Sys (UI (Some "B")
         (JArr [session_entry "B" "other" "t1"; session_entry "A" "hi" "t0"])
         (Some "B") (JArr [user_message "m0" "about B"]) 3 "" true "")
      (<[MSG_KEY "A" := json_print (JArr [user_message "m1" "hi"])]>
         (<[MSG_KEY "B" := json_print (JArr [user_message "m0" "about B"])]>
            (<[SESSION_STORAGE_KEY := "B"]> ∅)))
      [pending_A].



(** ** Predicates used for the remaining functions *)

(** [s.id === id] for an entry that is not [null]. *)
Definition has_id (id : string) (s : json) : bool :=
  match s with
  | JObj fields =>
      match assoc "id" fields with
      | Some (JStr i) => String.eqb i id
      | _ => false
      end
  | _ => false
  end.

(** [{ ...s, id: realId }] on the entries with the id, as [with_rekeyed_id]
    leaves an entry. *)
Definition rekeyed (currentId realId : string) (s : json) : json :=
  match s with
  | JObj fields =>
      if has_id currentId s then JObj (set_field "id" (JStr realId) fields) else s
  | _ => s
  end.

(** The entry that [upsertSession] writes. *)
Definition upserted_entry (id title now : string) : json :=
  JObj [("id", JStr id);
        ("title", JStr (if String.eqb title "" then "New chat" else title));
        ("updatedAt", JStr now)].

(** A parsed value that is an array. *)
Definition is_array (v : json) : bool :=
  match v with
  | JArr _ => true
  | _ => false
  end.

(** The update that the loading effect queues. *)
Definition messages_update (u : update) : Prop :=
  match u with
  | Set_messages _ => True
  | _ => False
  end.

(** What a storage transition may do to the persisted session id when the
    session id of the state is [sid]: leave it, or set it to [sid]. *)
Definition key_follows (sid : option string) (ls ls' : storage) : Prop :=
  ls' !! SESSION_STORAGE_KEY = ls !! SESSION_STORAGE_KEY
  \/ (truthy sid = true /\ ls' !! SESSION_STORAGE_KEY = sid).

(** The active id is the session id of the hook, or there is no session id
    for it to follow. *)
Definition follows_session (st : ui) : Prop :=
  truthy (sessionId st) = true -> sessionId st = activeId st.

(** The session id of the hook, the active id and the stored session id
    agree. *)
Definition agree (st : ui) (ls : storage) : Prop :=
  sessionId st = activeId st
  /\ (truthy (activeId st) = true -> getSessionId ls = activeId st).

(** The updates that leave the session id and the active id alone. *)
Definition neutral_update (u : update) : Prop :=
  match u with
  | Set_sessionId _ | Set_activeId _ => False
  | _ => True
  end.

(** The session id and the active id after rendering a queue of updates. *)
Fixpoint ids_after (queue : list update) (ids : option string * option string)
  : option string * option string :=
  match queue with
  | [] => ids
  | Set_sessionId v :: rest => ids_after rest (v, ids.2)
  | Set_activeId v :: rest => ids_after rest (ids.1, v)
  | _ :: rest => ids_after rest ids
  end.

(** A session id, an active id and a storage from which the effects reach
    agreement: the active id is the session id or will follow it, and a
    session id that counts is the stored one. *)
Definition ids_settle (sid aid : option string) (ls : storage) : Prop :=
  (sid = aid \/ truthy sid = true)
  /\ (truthy sid = true -> getSessionId ls = sid).

(** A handler state whose render the effects bring to agreement. *)
Definition handler_ok (st : ui) (h : hst) : Prop :=
  let ids := ids_after (h_queue h) (sessionId st, activeId st) in
  ids_settle ids.1 ids.2 (h_ls h).

(** A part of a handler that keeps [handler_ok]. *)
Definition ok_step (st : ui) {A : Type} (m : H A) : Prop :=
  forall h, handler_ok st h -> handler_ok st (m h).1.

(** The updates that replace one of the two lists. *)
Definition list_update (u : update) : Prop :=
  match u with
  | Set_sessions _ | Set_messages _ => True
  | _ => False
  end.

(** A storage transition that writes the list of sessions only. *)
Definition only_sessions (ls ls' : storage) : Prop :=
  forall k, k <> SESSIONS_KEY -> ls' !! k = ls !! k.

(** The message that [onSend] appends for a reply. *)
Definition reply_message (id : string) (data : chat_data) : json :=
  JObj [("id", JStr id);
        ("role", JStr "assistant");
        ("text", JStr (if truthy (d_answer data)
                       then default "" (d_answer data)
                       else "(No answer returned)"));
        ("sources", match d_sources data with
                    | Some v => if json_truthy v then v else JArr []
                    | None => JArr []
                    end)].

(** In the previous commit the session id and the active id were the same. *)
Definition prev_agrees (prev : option deps) : Prop :=
  match prev with
  | None => True
  | Some d => dep_sessionId d = dep_activeId d
  end.

(** * Properties of the client *)

(** ** Keys of the storage *)

Lemma MSG_KEY_inj (a b : string) : MSG_KEY a = MSG_KEY b -> a = b.
Proof. unfold MSG_KEY. intros E. by simplify_eq/=. Qed.

Lemma MSG_KEY_not_session (id : string) : MSG_KEY id <> SESSION_STORAGE_KEY.
Proof. unfold MSG_KEY, SESSION_STORAGE_KEY. intros E. by simplify_eq/=. Qed.

Lemma MSG_KEY_not_sessions (id : string) : MSG_KEY id <> SESSIONS_KEY.
Proof. unfold MSG_KEY, SESSIONS_KEY. intros E. by simplify_eq/=. Qed.

Lemma SESSIONS_KEY_not_session : SESSIONS_KEY <> SESSION_STORAGE_KEY.
Proof. done. Qed.

Lemma truthy_Some (s : string) : truthy (Some s) = true <-> s <> "".
Proof.
  unfold truthy. destruct (String.eqb_spec s ""); simpl; split; congruence.
Qed.

Lemma truthy_false (o : option string) :
  truthy o = false <-> o = None \/ o = Some "".
Proof.
  destruct o as [s|]; simpl.
  - destruct (String.eqb_spec s "") as [->|Hne]; simpl.
    + split; auto.
    + split; [discriminate|]. intros [E|E]; congruence.
  - split; auto.
Qed.

(** ** Reading the storage never throws *)

Lemma safeParse_total (text : option string) (fallback : json) :
  exists v, safeParse text fallback = Ok v.
Proof.
  unfold safeParse.
  destruct (JSON_parse (default "null" text)) as [v|e]; simpl; eauto.
Qed.

Lemma safeParse_cases (text : option string) (fallback : json) :
  safeParse text fallback = Ok fallback
  \/ exists v, JSON_parse (default "null" text) = Ok v /\ v <> JNull
               /\ safeParse text fallback = Ok v.
Proof.
  unfold safeParse.
  destruct (JSON_parse (default "null" text)) as [v|e]; simpl; auto.
  destruct v; auto; right; eexists; (split; [reflexivity|]); split; done.
Qed.

Lemma loadSessions_total (ls : storage) : exists v, loadSessions ls = Ok v.
Proof. apply safeParse_total. Qed.

Lemma loadMessages_total (sid : option string) (ls : storage) :
  exists v, loadMessages sid ls = Ok v.
Proof.
  unfold loadMessages. destruct sid as [id|]; [|eauto].
  destruct (truthy (Some id)); [apply safeParse_total | eauto].
Qed.

(** C9.  [safeParse], [loadSessions] and [loadMessages] return a value for
    every content of the storage, whatever [JSON.parse] does on it.  On a text
    that [JSON.parse] rejects and on a text it reads as [null] the result is
    the fallback, which is the empty array for the two loaders; so it is for an
    absent key, which [JSON.parse] receives as [null]; and [loadMessages] of a
    [null] or empty session id is the empty array. *)
Theorem storage_reads_are_total :
  (forall text fallback, exists v, safeParse text fallback = Ok v)
  /\ (forall ls, exists v, loadSessions ls = Ok v)
  /\ (forall sid ls, exists v, loadMessages sid ls = Ok v)
  /\ (forall text fallback e,
        JSON_parse (default "null" text) = Throw e ->
        safeParse text fallback = Ok fallback)
  /\ (forall text fallback,
        JSON_parse (default "null" text) = Ok JNull ->
        safeParse text fallback = Ok fallback)
  /\ (forall ls raw,
        ls !! SESSIONS_KEY = Some raw ->
        (JSON_parse raw = Ok JNull \/ exists e, JSON_parse raw = Throw e) ->
        loadSessions ls = Ok (JArr []))
  /\ (forall ls id raw,
        id <> "" -> ls !! MSG_KEY id = Some raw ->
        (JSON_parse raw = Ok JNull \/ exists e, JSON_parse raw = Throw e) ->
        loadMessages (Some id) ls = Ok (JArr []))
  /\ (forall ls,
        JSON_parse "null" = Ok JNull -> ls !! SESSIONS_KEY = None ->
        loadSessions ls = Ok (JArr []))
  /\ (forall ls id,
        JSON_parse "null" = Ok JNull -> ls !! MSG_KEY id = None ->
        loadMessages (Some id) ls = Ok (JArr []))
  /\ (forall ls, loadMessages None ls = Ok (JArr []))
  /\ (forall ls, loadMessages (Some "") ls = Ok (JArr [])).
Proof.
  repeat split.
  - apply safeParse_total.
  - apply loadSessions_total.
  - apply loadMessages_total.
  - intros text fallback e E. unfold safeParse. by rewrite E.
  - intros text fallback E. unfold safeParse. by rewrite E.
  - intros ls raw E [P|[e P]]; unfold loadSessions, safeParse, getItem;
      rewrite E; simpl; by rewrite P.
  - intros ls id raw Hid E P. unfold loadMessages.
    apply truthy_Some in Hid. rewrite Hid.
    unfold safeParse, getItem. rewrite E. simpl.
    destruct P as [P|[e P]]; by rewrite P.
  - intros ls P E. unfold loadSessions, safeParse, getItem.
    rewrite E. simpl. by rewrite P.
  - intros ls id P E. unfold loadMessages.
    destruct (truthy (Some id)); [|done].
    unfold safeParse, getItem. rewrite E. simpl. by rewrite P.
Qed.

(** ** The body of a chat request *)

(** C4.  The body that [sendChatMessage] posts is the JSON text of
    [{session_id, message}] when the override, or else the stored id, is a
    non-empty string, and of [{message}] otherwise; the message is the
    caller's, and the request is a POST of JSON to [/chat]. *)
Theorem sendChatMessage_body (message : string) (override : option string)
    (ls : storage) :
  let req := sendChatMessage_request message override ls in
  let available := nullish override (ls !! SESSION_STORAGE_KEY) in
  (forall sid, available = Some sid -> sid <> "" ->
     req_body req =
     JSON_stringify (JObj [("session_id", JStr sid); ("message", JStr message)]))
  /\ (available = None \/ available = Some "" ->
      req_body req = JSON_stringify (JObj [("message", JStr message)]))
  /\ req_url req = API_BASE +:+ "/chat"
  /\ req_method req = "POST"
  /\ req_headers req = [("Content-Type", "application/json")].
Proof.
  simpl. unfold getSessionId, getItem, chat_body. repeat split.
  - intros sid E Hne. rewrite E. apply truthy_Some in Hne. by rewrite Hne.
  - intros E. apply truthy_false in E.
    destruct (nullish override (ls !! SESSION_STORAGE_KEY)); [|done].
    by rewrite E.
Qed.

(** ** Framing handlers *)

Section Frame.

Context (R : relation storage) `{!PreOrder R} (P : update -> Prop).

Lemma extends_refl (h : hst) : extends R P h h.
Proof.
  split; [reflexivity|]. exists []. by rewrite app_nil_r.
Qed.

Lemma extends_trans (h1 h2 h3 : hst) :
  extends R P h1 h2 -> extends R P h2 h3 -> extends R P h1 h3.
Proof.
  intros [R1 (q1 & E1 & F1)] [R2 (q2 & E2 & F2)]. split; [by etrans|].
  exists (q1 ++ q2)%list. split.
  - by rewrite E2, E1, app_assoc.
  - by apply Forall_app.
Qed.

Lemma respects_ret {A} (a : A) : respects R P (h_ret a).
Proof. intros h. apply extends_refl. Qed.

Lemma respects_lift {A} (m : js A) : respects R P (h_lift m).
Proof. intros h. apply extends_refl. Qed.

Lemma respects_read {A} (f : storage -> A) : respects R P (h_read f).
Proof. intros h. apply extends_refl. Qed.

Lemma respects_load {A} (f : storage -> js A) : respects R P (h_load f).
Proof. intros h. apply extends_refl. Qed.

Lemma respects_read_currentId : respects R P read_currentId.
Proof. intros h. apply extends_refl. Qed.

Lemma respects_assign (id : string) : respects R P (assign_currentId id).
Proof.
  intros h. split; [reflexivity|]. exists []. simpl. by rewrite app_nil_r.
Qed.

Lemma respects_enqueue (u : update) : P u -> respects R P (enqueue u).
Proof.
  intros HP h. split; [reflexivity|]. exists [u]. split; [done|].
  by constructor.
Qed.

Lemma respects_store (f : storage -> storage) :
  (forall ls, R ls (f ls)) -> respects R P (h_store f).
Proof.
  intros HR h. split; [apply HR|]. exists []. simpl. by rewrite app_nil_r.
Qed.

Lemma respects_bind {A B} (m : H A) (k : A -> H B) :
  respects R P m -> (forall a, respects R P (k a)) -> respects R P (h_bind m k).
Proof.
  intros Hm Hk h. specialize (Hm h). unfold h_bind.
  destruct (m h) as [h' [a|e]]; simpl in *; [|done].
  eapply extends_trans; [exact Hm|]. apply Hk.
Qed.

Lemma respects_catch {A} (m : H A) (c : exn -> H A) :
  respects R P m -> (forall e, respects R P (c e)) -> respects R P (h_catch m c).
Proof.
  intros Hm Hc h. specialize (Hm h). unfold h_catch.
  destruct (m h) as [h' [a|e]]; simpl in *; [done|].
  eapply extends_trans; [exact Hm|]. apply Hc.
Qed.

Lemma respects_finally {A} (m : H A) (f : H unit) :
  respects R P m -> respects R P f -> respects R P (h_finally m f).
Proof.
  intros Hm Hf h. specialize (Hm h). unfold h_finally.
  destruct (m h) as [h' r]. specialize (Hf h').
  destruct (f h') as [h'' [[]|e]]; simpl in *; by eapply extends_trans.
Qed.

End Frame.

(** Splits a handler along its structure; what remains are the conditions on
    the updates it queues and on the storage operations it makes. *)
Ltac frame :=
  repeat first
    [ by (apply respects_ret; exact _)
    | by (apply respects_lift; exact _)
    | by (apply respects_read; exact _)
    | by (apply respects_load; exact _)
    | by (apply respects_read_currentId; exact _)
    | by (apply respects_assign; exact _)
    | (apply respects_bind; try exact _); [|intros ?]
    | (apply respects_catch; try exact _); [|intros ?]
    | (apply respects_finally; try exact _); [|]
    | (apply respects_enqueue; try exact _); []
    | (apply respects_store; try exact _); [intros ?]
    | match goal with
      | |- respects _ _ (if ?b then _ else _) => destruct b
      | |- respects _ _ (match ?x with _ => _ end) => destruct x
      end ].

(** ** The persisted session id under the storage operations *)

#[local] Instance key_step_preorder : PreOrder key_step.
Proof.
  split.
  - intros ls. by left.
  - intros a b c [E1|N1] [E2|N2]; unfold key_step.
    + left. congruence.
    + by right.
    + right. destruct N1 as (v & E & Hv). exists v. split; congruence.
    + by right.
Qed.

#[local] Instance key_step_or_clear_preorder : PreOrder key_step_or_clear.
Proof.
  split.
  - intros ls. left. reflexivity.
  - intros a b c [S1|N1] [S2|N2]; unfold key_step_or_clear.
    + left. by etrans.
    + by right.
    + destruct S2 as [E|N]; [right; congruence | left; by right].
    + by right.
Qed.

#[local] Instance any_storage_preorder : PreOrder any_storage.
Proof. by split. Qed.

Lemma setSessionId_key_step (id : option string) (ls : storage) :
  key_step ls (setSessionId id ls).
Proof.
  unfold setSessionId. destruct id as [s|]; [|reflexivity].
  destruct (truthy (Some s)) eqn:T; [|reflexivity].
  right. exists s. split; [apply lookup_insert_eq | by apply truthy_Some].
Qed.

Lemma saveSessions_key_step (v : json) (ls : storage) :
  key_step ls (saveSessions v ls).
Proof.
  left. unfold saveSessions, setItem.
  apply lookup_insert_ne, SESSIONS_KEY_not_session.
Qed.

Lemma saveMessages_key_step (id : option string) (v : json) (ls : storage) :
  key_step ls (saveMessages id v ls).
Proof.
  unfold saveMessages. destruct id as [s|]; [|reflexivity].
  destruct (truthy (Some s)); [|reflexivity].
  left. apply lookup_insert_ne, MSG_KEY_not_session.
Qed.

Lemma remove_messages_key_step (id : string) (ls : storage) :
  key_step ls (removeItem (MSG_KEY id) ls).
Proof. left. apply lookup_delete_ne, MSG_KEY_not_session. Qed.

Lemma clearSessionId_clears (ls : storage) :
  clearSessionId ls !! SESSION_STORAGE_KEY = None.
Proof. apply lookup_delete_eq. Qed.

Lemma key_step_weaken (ls ls' : storage) :
  key_step ls ls' -> key_step_or_clear ls ls'.
Proof. by left. Qed.

Lemma key_step_ok (ls ls' : storage) : key_ok ls -> key_step ls ls' -> key_ok ls'.
Proof.
  intros Hok [E|(v & E & Hv)] w Hw.
  - apply Hok. congruence.
  - congruence.
Qed.

Create HintDb storage.

#[local] Hint Resolve setSessionId_key_step saveSessions_key_step
  saveMessages_key_step remove_messages_key_step key_step_weaken : storage.

#[local] Hint Extern 1 (any_storage _ _) => exact I : storage.
#[local] Hint Extern 1 (any_update _) => exact I : storage.
#[local] Hint Extern 1 (not_isSending _) => exact I : storage.
#[local] Hint Extern 1 (effect_update _) => exact I : storage.

(** ** Frames of the handlers *)

Lemma upsertSession_respects (R : relation storage) `{!PreOrder R}
    (P : update -> Prop) (id title now : string) :
  (forall v ls, R ls (saveSessions v ls)) ->
  (forall v, P (Set_sessions v)) ->
  respects R P (upsertSession id title now).
Proof. intros HR HP. unfold upsertSession. frame; auto. Qed.

Lemma setSessionIdState_respects (R : relation storage) `{!PreOrder R}
    (P : update -> Prop) (id : option string) :
  (forall ls, R ls (setSessionId id ls)) ->
  P (Set_sessionId id) ->
  respects R P (setSessionIdState id).
Proof. intros HR HP. unfold setSessionIdState. frame; auto. Qed.

Lemma selectSession_key (id : string) :
  respects key_step any_update (selectSession id).
Proof. unfold selectSession. frame; auto with storage. Qed.

Lemma upsertSession_key (id title now : string) :
  respects key_step any_update (upsertSession id title now).
Proof. unfold upsertSession. frame; auto with storage. Qed.

Lemma onSend_start_key (st : ui) (e : entropy) :
  respects key_step any_update (onSend_start st e).
Proof. unfold onSend_start. frame; auto with storage. Qed.

Lemma onSend_settle_key (p : pending) (fetched : js response) (e : entropy) :
  respects key_step any_update (onSend_settle p fetched e).
Proof. unfold onSend_settle. frame; auto with storage. Qed.

Lemma deleteChat_key (st : ui) (id : string) :
  respects key_step_or_clear any_update (deleteChat st id).
Proof.
  unfold deleteChat. frame; auto with storage.
  right. apply clearSessionId_clears.
Qed.

Lemma deleteChat_other_key (st : ui) (id : string) :
  activeId st <> Some id ->
  respects key_step any_update (deleteChat st id).
Proof.
  intros Hne. unfold deleteChat. rewrite bool_decide_eq_false_2 by done.
  frame; auto with storage.
Qed.

(** ** Rendering and effects *)

Lemma apply_update_key (c : string) (u : update) (st st' : ui)
    (ls ls' : storage) :
  apply_update c u st ls = Ok (st', ls') -> key_step ls ls'.
Proof.
  destruct u as [| | | |f| | |]; simpl; intros E; simplify_eq; try reflexivity.
  destruct f as [msg|real]; unfold run_updater in E.
  - destruct (spread (messages st)) as [prev|]; simpl in E; simplify_eq.
    apply (saveMessages_key_step (Some c)).
  - simplify_eq. etrans; [apply (remove_messages_key_step c)|].
    apply (saveMessages_key_step (Some real)).
Qed.

Lemma apply_update_sending (c : string) (u : update) (st st' : ui)
    (ls ls' : storage) :
  apply_update c u st ls = Ok (st', ls') ->
  isSending st' = sending_after [u] (isSending st).
Proof.
  destruct u as [| | | |f| | |]; simpl; intros E; simplify_eq; try done.
  destruct f as [msg|real]; simpl in E; simplify_eq; [|done].
  destruct (spread (messages st)); simpl in E; by simplify_eq.
Qed.

Lemma flush_key (c : string) (queue : list update) (st st' : ui)
    (ls ls' : storage) :
  flush c queue st ls = Ok (st', ls') -> key_step ls ls'.
Proof.
  revert st ls. induction queue as [|u rest IH]; simpl; intros st ls E.
  - simplify_eq. reflexivity.
  - destruct (apply_update c u st ls) as [[st1 ls1]|] eqn:E1; simpl in E; [|done].
    etrans; [by eapply apply_update_key | by eapply IH].
Qed.

Lemma flush_sending (c : string) (queue : list update) (st st' : ui)
    (ls ls' : storage) :
  flush c queue st ls = Ok (st', ls') ->
  isSending st' = sending_after queue (isSending st).
Proof.
  revert st ls. induction queue as [|u rest IH]; simpl; intros st ls E.
  - by simplify_eq.
  - destruct (apply_update c u st ls) as [[st1 ls1]|] eqn:E1; simpl in E; [|done].
    apply IH in E. apply apply_update_sending in E1. simpl in E1.
    rewrite E. destruct u; simpl in *; congruence.
Qed.

Lemma sending_after_app (q1 q2 : list update) (b : bool) :
  sending_after (q1 ++ q2) b = sending_after q2 (sending_after q1 b).
Proof.
  revert b. induction q1 as [|u q1 IH]; intros b; [done|].
  destruct u; simpl; apply IH.
Qed.

Lemma sending_after_frame (q : list update) (b : bool) :
  Forall not_isSending q -> sending_after q b = b.
Proof.
  induction 1 as [|u q Hu _ IH]; [done|]. destruct u; simpl in *; done.
Qed.

Lemma effect_update_not_isSending (q : list update) :
  Forall effect_update q -> Forall not_isSending q.
Proof. intros F. eapply Forall_impl; [exact F|]. by intros []. Qed.

Lemma effects_pass_respects (prev : option deps) (st : ui) :
  respects key_step effect_update (effects_pass prev st).
Proof.
  unfold effects_pass, effect_persist, effect_follow, effect_load, effect_save.
  frame; auto with storage.
Qed.

Lemma settle_S (fuel : nat) (prev : option deps) (st : ui) (ls : storage) :
  settle (S fuel) prev st ls =
  match effects_pass prev st (Hst ls [] "") with
  | (_, Throw e) => Some (Throw e)
  | (h, Ok _) =>
      match h_queue h with
      | [] => Some (Ok (st, h_ls h))
      | queue =>
          match flush "" queue st (h_ls h) with
          | Throw e => Some (Throw e)
          | Ok (st', ls') => settle fuel (Some (deps_of st)) st' ls'
          end
      end
  end.
Proof. reflexivity. Qed.

Lemma settle_frame (fuel : nat) (prev : option deps) (st st' : ui)
    (ls ls' : storage) :
  settle fuel prev st ls = Some (Ok (st', ls')) ->
  key_step ls ls' /\ isSending st' = isSending st.
Proof.
  revert prev st ls. induction fuel as [|fuel IH]; intros prev st ls; [done|].
  rewrite settle_S.
  pose proof (effects_pass_respects prev st (Hst ls [] "")) as Hr.
  destruct (effects_pass prev st (Hst ls [] "")) as [h [[]|e]]; [|done].
  destruct Hr as [HR (q & Hq & HP)]. simpl in HR, Hq. rewrite Hq.
  destruct q as [|u q]; [intros E; by simplify_eq|].
  destruct (flush "" (u :: q) st (h_ls h)) as [[st1 ls1]|] eqn:F; [|done].
  intros E. apply IH in E as [K1 S1].
  split.
  - etrans; [exact HR|]. etrans; [by eapply flush_key|done].
  - rewrite S1. erewrite flush_sending by done.
    by apply sending_after_frame, effect_update_not_isSending.
Qed.

Lemma commit_frame (st st' : ui) (h : hst) (ls' : storage) :
  commit st h = Some (st', ls') ->
  key_step (h_ls h) ls'
  /\ isSending st' = sending_after (h_queue h) (isSending st).
Proof.
  unfold commit.
  destruct (flush (h_currentId h) (h_queue h) st (h_ls h)) as [[st1 ls1]|] eqn:F;
    [|done].
  destruct (settle 4 (Some (deps_of st)) st1 ls1) as [[[st2 ls2]|]|] eqn:S;
    [|done|done].
  intros E. simplify_eq. apply settle_frame in S as [K S].
  split.
  - etrans; [by eapply flush_key|done].
  - rewrite S. by eapply flush_sending.
Qed.

Lemma changed_same {A} `{EqDecision A} (f : deps -> A) (d : deps) :
  changed f (Some d) d = false.
Proof. unfold changed. by rewrite bool_decide_eq_true_2. Qed.

(** A render that changes none of the dependencies runs no effect. *)
Lemma settle_quiet (fuel : nat) (d : deps) (st : ui) (ls : storage) :
  deps_of st = d -> settle (S fuel) (Some d) st ls = Some (Ok (st, ls)).
Proof.
  intros <-. simpl. unfold effects_pass. by rewrite !changed_same.
Qed.

Lemma commit_quiet (st : ui) (ls : storage) (c : string) :
  commit st (Hst ls [] c) = Some (st, ls).
Proof.
  unfold commit. cbn [flush h_queue h_ls h_currentId].
  by rewrite settle_quiet.
Qed.

(** ** Sending *)

(** C3.  When the trimmed input is empty, [onSend] returns at once without a
    request, a queued update or a storage operation, so the step of the
    client leaves the whole state as it is: no request in flight is added,
    and the messages, the sessions and the stored session id are unchanged. *)
Theorem onSend_blank_is_noop (s : sys) (e : entropy) :
  trim (input (s_ui s)) = "" ->
  (forall h, onSend_start (s_ui s) e h = (h, Ok None))
  /\ step s (Press_send e) = Some s.
Proof.
  intros Hblank.
  assert (forall h, onSend_start (s_ui s) e h = (h, Ok None)) as Hstart.
  { intros h. unfold onSend_start. by rewrite Hblank. }
  split; [exact Hstart|].
  unfold step. rewrite Hstart. unfold handle. rewrite commit_quiet.
  by destruct s.
Qed.

(** C5.  On a response whose status is not OK, [sendChatMessage] throws an
    [Error] whose message carries the status in decimal, and leaves the
    storage, hence the stored session id, as it was.  The step of the client
    that receives it changes two cells only: the error banner shows that
    message and [isSending] is cleared; the messages, the sessions, the
    active id and the storage are unchanged. *)
Theorem non_ok_response_is_reported (s : sys) (i : nat) (p : pending)
    (res : response) (e : entropy) :
  res_ok res = false ->
  s_inflight s !! i = Some p ->
  let text := match res_text res with Ok t => t | Throw _ => "" end in
  let message :=
    "Backend error (" +:+ pretty (res_status res) +:+ "): "
      +:+ (if String.eqb text "" then res_statusText res else text) in
  let st := s_ui s in
  (forall h, sendChatMessage_settle (Ok res) h = (h, Throw (Exn "Error" message)))
  /\ step s (Settle i (Ok res) e) =
     Some (Sys (UI (sessionId st) (sessions st) (activeId st) (messages st)
                  (messages_ref st) (input st) false message)
             (s_ls s) (delete i (s_inflight s))).
Proof.
  intros Hok Hp text message st.
  assert (forall h, sendChatMessage_settle (Ok res) h
                    = (h, Throw (Exn "Error" message))) as Hthrow.
  { intros h. unfold sendChatMessage_settle, h_bind, h_lift. by rewrite Hok. }
  split; [exact Hthrow|].
  unfold step. rewrite Hp.
  unfold onSend_settle, sendMessage_settle.
  unfold h_finally, h_catch, h_bind at 1 2 3. cbn [assign_currentId fst snd].
  rewrite Hthrow. cbn.
  unfold handle, commit. cbn [flush h_queue h_ls h_currentId apply_update js_bind fst snd].
  by rewrite settle_quiet.
Qed.

(** ** The persisted session id along the steps of the client *)

Lemma makeLocalId_truthy (uuid : string) : truthy (Some (makeLocalId uuid)) = true.
Proof. done. Qed.

Lemma startNewChat_key (e : entropy) (h : hst) :
  key_step (h_ls h) (h_ls (startNewChat e h).1).
Proof.
  unfold startNewChat.
  set (rest := h_bind (upsertSession _ _ _) _).
  cbn [h_bind enqueue clearSessionIdState setSessionIdState h_store h_ret fst snd
       h_ls h_queue h_currentId].
  unfold setSessionIdState. rewrite makeLocalId_truthy.
  cbn [h_bind enqueue h_store h_ret fst snd h_ls h_queue h_currentId].
  match goal with |- context [rest ?h1] => set (h1' := h1) end.
  assert (respects key_step any_update rest) as Hrest.
  { subst rest. frame; auto with storage. }
  specialize (Hrest h1'). destruct Hrest as [HR _].
  etrans; [|exact HR].
  right. exists (makeLocalId (uuid_a e)). split; [apply lookup_insert_eq|done].
Qed.

Lemma handle_frame (s s' : sys) (inflight : list pending) (h : hst) :
  handle s inflight h = Some s' ->
  s_inflight s' = inflight
  /\ key_step (h_ls h) (s_ls s')
  /\ isSending (s_ui s') = sending_after (h_queue h) (isSending (s_ui s)).
Proof.
  unfold handle. destruct (commit (s_ui s) h) as [[st' ls']|] eqn:C; [|done].
  intros E. simplify_eq. simpl. by apply commit_frame in C as [? ?].
Qed.

Lemma step_key (s s' : sys) (ev : event) :
  step s ev = Some s' ->
  key_step (s_ls s) (s_ls s')
  \/ (s_ls s' !! SESSION_STORAGE_KEY = None
      /\ exists id, ev = Delete_chat id /\ activeId (s_ui s) = Some id).
Proof.
  destruct ev as [v|e|e|id|id|i fetched e]; simpl.
  - destruct (input_disabled (s_ui s)).
    + intros E. simplify_eq. left. reflexivity.
    + intros E. apply handle_frame in E as (_ & K & _). by left.
  - pose proof (onSend_start_key (s_ui s) e (Hst (s_ls s) [] "")) as [K0 _].
    destruct (onSend_start (s_ui s) e (Hst (s_ls s) [] "")) as [h [[p|]|ex]];
      intros E; apply handle_frame in E as (_ & K & _); left; by etrans.
  - intros E. apply handle_frame in E as (_ & K & _). left.
    etrans; [|exact K]. apply (startNewChat_key e (Hst (s_ls s) [] "")).
  - intros E. apply handle_frame in E as (_ & K & _). left.
    etrans; [|exact K]. apply (selectSession_key id (Hst (s_ls s) [] "")).
  - intros E. apply handle_frame in E as (_ & K & _).
    destruct (decide (activeId (s_ui s) = Some id)) as [Ha|Ha].
    + destruct (deleteChat_key (s_ui s) id (Hst (s_ls s) [] "")) as [[K1|N1] _].
      * left. by etrans.
      * destruct K as [E|N]; [|left; by right].
        right. split; [congruence|eauto].
    + left. etrans; [|exact K].
      by apply (deleteChat_other_key (s_ui s) id Ha (Hst (s_ls s) [] "")).
  - destruct (s_inflight s !! i) as [p|]; intros E.
    + apply handle_frame in E as (_ & K & _). left. etrans; [|exact K].
      apply (onSend_settle_key p fetched e (Hst (s_ls s) [] "")).
    + simplify_eq. left. reflexivity.
Qed.

Lemma mount_key (ls : storage) (s : sys) : mount ls = Some s -> key_step ls (s_ls s).
Proof.
  unfold mount. destruct (loadSessions ls); [|done].
  destruct (loadMessages _ ls); [|done].
  match goal with |- context [settle 4 None ?st ls] =>
    destruct (settle 4 None st ls) as [[[st' ls']|]|] eqn:S end; try done.
  intros E. simplify_eq. by apply settle_frame in S as [? _].
Qed.

(** C10.  Writes of the persisted session id are guarded.  [setSessionId] and
    the setter of the hook leave the key as it is or store a non-empty string;
    so does the first render, and so does every step of the client except
    the deletion of the active chat, which removes the key through
    [clearSessionId]; hence a key that is absent or non-empty stays so along
    every run. *)
Theorem session_key_is_never_empty :
  (forall id ls, key_step ls (setSessionId id ls))
  /\ (forall id h, key_step (h_ls h) (h_ls (setSessionIdState id h).1))
  /\ (forall ls, clearSessionId ls !! SESSION_STORAGE_KEY = None)
  /\ (forall ls s, mount ls = Some s -> key_step ls (s_ls s))
  /\ (forall s ev s',
        step s ev = Some s' ->
        key_step (s_ls s) (s_ls s')
        \/ (s_ls s' !! SESSION_STORAGE_KEY = None
            /\ exists id, ev = Delete_chat id /\ activeId (s_ui s) = Some id))
  /\ (forall evs s s',
        key_ok (s_ls s) -> run s evs = Some s' -> key_ok (s_ls s')).
Proof.
  split; [apply setSessionId_key_step|].
  split.
  { intros id h.
    apply (setSessionIdState_respects key_step any_update id); auto with storage. }
  split; [apply clearSessionId_clears|].
  split; [apply mount_key|].
  split; [intros s ev s'; apply step_key|].
  induction evs as [|ev evs IH]; simpl; intros s s' Hok E.
  - by simplify_eq.
  - destruct (step s ev) as [s1|] eqn:S; [|done].
    apply (IH s1 s'); [|done].
    apply step_key in S as [K|[N _]].
    + by eapply key_step_ok.
    + intros v Hv. congruence.
Qed.

(** ** One request at a time *)

Lemma selectSession_quiet (id : string) :
  respects any_storage not_isSending (selectSession id).
Proof. unfold selectSession. frame; auto with storage. Qed.

Lemma deleteChat_quiet (st : ui) (id : string) :
  respects any_storage not_isSending (deleteChat st id).
Proof. unfold deleteChat. frame; auto with storage. Qed.

Lemma respects_sending {A} (m : H A) (h : hst) (b : bool) :
  respects any_storage not_isSending m ->
  sending_after (h_queue (m h).1) b = sending_after (h_queue h) b.
Proof.
  intros Hm. destruct (Hm h) as [_ (q & -> & F)].
  rewrite sending_after_app. by apply sending_after_frame.
Qed.

(** [onSend] either returns at once, or it was not sending and the render
    that follows finds [isSending] set. *)
Lemma onSend_start_cases (st : ui) (e : entropy) (ls : storage) :
  let r := onSend_start st e (Hst ls [] "") in
  r = (Hst ls [] "", Ok None)
  \/ (isSending st = false /\ sending_after (h_queue r.1) (isSending st) = true).
Proof.
  unfold onSend_start.
  destruct (String.eqb (trim (input st)) "" || isSending st) eqn:G; [by left|].
  right. apply orb_false_iff in G as [_ G]. split; [done|].
  set (rest := h_bind (if truthy (activeId st) then _ else _) _).
  cbn [h_bind enqueue fst snd h_ls h_queue h_currentId].
  rewrite (respects_sending rest).
  - done.
  - subst rest. frame; auto with storage.
Qed.

Lemma one_in_flight_step (s s' : sys) (ev : event) :
  one_in_flight s ->
  negb (is_New_chat ev) || match s_inflight s with [] => true | _ => false end
  = true ->
  step s ev = Some s' ->
  one_in_flight s'.
Proof.
  intros Inv Hev.
  destruct ev as [v|e|e|id|id|i fetched e]; simpl.
  3: { intros E. apply handle_frame in E as (Ei & _ & _). left. rewrite Ei.
       simpl in Hev. by destruct (s_inflight s). }
  - destruct (input_disabled (s_ui s)); intros E; [by simplify_eq|].
    apply handle_frame in E as (Ei & _ & Es). simpl in Es.
    unfold one_in_flight. rewrite Ei, Es. exact Inv.
  - pose proof (onSend_start_cases (s_ui s) e (s_ls s)) as C. simpl in C.
    destruct (onSend_start (s_ui s) e (Hst (s_ls s) [] "")) as [h r].
    destruct C as [C|[Hs C]].
    + simplify_eq. intros E. unfold handle in E. rewrite commit_quiet in E.
      simplify_eq. exact Inv.
    + assert (s_inflight s = []) as Hnone.
      { destruct Inv as [?|[_ ?]]; [done|congruence]. }
      simpl in C.
      destruct r as [[p|]|ex]; intros E;
        apply handle_frame in E as (Ei & _ & Es);
        unfold one_in_flight; rewrite Ei, Hnone; [|by left..].
      right. split; [done|]. by rewrite Es.
  - intros E. apply handle_frame in E as (Ei & _ & Es).
    rewrite (respects_sending _ _ _ (selectSession_quiet id)) in Es.
    unfold one_in_flight. rewrite Ei, Es. exact Inv.
  - intros E. apply handle_frame in E as (Ei & _ & Es).
    rewrite (respects_sending _ _ _ (deleteChat_quiet (s_ui s) id)) in Es.
    unfold one_in_flight. rewrite Ei, Es. exact Inv.
  - destruct (s_inflight s !! i) as [p|] eqn:Hp; intros E; [|by simplify_eq].
    apply handle_frame in E as (Ei & _ & _). left. rewrite Ei.
    destruct Inv as [Hn|[Hl _]]; [by rewrite Hn in Hp|].
    destruct (s_inflight s) as [|p0 [|p1 l]]; try done.
    by destruct i.
Qed.

Lemma one_in_flight_exclusive (s : sys) : one_in_flight s -> exclusive s.
Proof.
  intros [Hn|[Hl _]] i j p q Hij Hi Hj.
  - by rewrite Hn in Hi.
  - destruct (s_inflight s) as [|p0 [|p1 l]]; try done.
    destruct i, j; done.
Qed.

Lemma mount_one_in_flight (ls : storage) (s : sys) :
  mount ls = Some s -> one_in_flight s.
Proof.
  unfold mount. destruct (loadSessions ls); [|done].
  destruct (loadMessages _ ls); [|done].
  match goal with |- context [settle 4 None ?st ls] =>
    destruct (settle 4 None st ls) as [[[st' ls']|]|] end; try done.
  intros E. simplify_eq. by left.
Qed.

(** C6, as the client has it.  While [isSending] is set, [onSend] returns at
    once and the step leaves the client as it is, and the composer input and
    the send button are disabled.  From the first render on, along every run
    in which no new chat is started while a request is in flight, at most one
    request is in flight, so no two requests are concurrent on a session. *)
Theorem sending_blocks_onSend :
  (forall st e h,
     isSending st = true ->
     onSend_start st e h = (h, Ok None)
     /\ input_disabled st = true /\ send_disabled st = true)
  /\ (forall s e, isSending (s_ui s) = true -> step s (Press_send e) = Some s)
  /\ (forall evs ls s s',
        mount ls = Some s ->
        new_chats_when_idle s evs = true ->
        run s evs = Some s' ->
        one_in_flight s' /\ exclusive s').
Proof.
  assert (forall st e h, isSending st = true ->
                         onSend_start st e h = (h, Ok None)) as Hstart.
  { intros st e h Hs. unfold onSend_start. rewrite Hs.
    by rewrite orb_true_r. }
  split.
  { intros st e h Hs. split; [by apply Hstart|].
    unfold input_disabled, send_disabled. rewrite Hs. by rewrite orb_true_r. }
  split.
  { intros s e Hs. unfold step. rewrite Hstart by done.
    unfold handle. rewrite commit_quiet. by destruct s. }
  intros evs ls s s' Hm Hev Hrun.
  apply mount_one_in_flight in Hm.
  assert (one_in_flight s') as Inv; [|split; [done|by apply one_in_flight_exclusive]].
  revert s Hm Hev Hrun. induction evs as [|ev evs IH]; simpl; intros s Inv Hev Hrun.
  - by simplify_eq.
  - apply andb_true_iff in Hev as [Hev Hevs].
    destruct (step s ev) as [s1|] eqn:S; [|done].
    eapply IH; [|done|done]. by eapply one_in_flight_step.
Qed.

(** ** The render loop ends *)

#[local] Arguments settle : simpl never.

Ltac run_pass :=
  rewrite settle_S;
  unfold effects_pass, effect_persist, effect_follow, effect_load, effect_save,
    h_bind, h_ret, h_store, h_load, h_lift, enqueue;
  cbn [h_ls h_queue h_currentId fst snd app].

Lemma settle_calm (fuel : nat) (prev : option deps) (st : ui) (ls : storage) :
  calm prev st -> settle (S fuel) prev st ls <> None.
Proof.
  intros [C1 C2]. run_pass. rewrite C1, C2. cbn [orb].
  repeat (case_match; simplify_eq/=; try done).
Qed.

Lemma calm_after_messages (v : json) (st : ui) :
  calm (Some (deps_of st)) (store_messages v st).
Proof. split; unfold changed; by rewrite bool_decide_eq_true_2. Qed.

Lemma settle_following (fuel : nat) (prev : option deps) (st : ui) (ls : storage) :
  following prev st -> settle (S (S fuel)) prev st ls <> None.
Proof.
  intros [C1 F]. run_pass. rewrite C1. cbn [orb].
  destruct (changed dep_activeId prev (deps_of st)) eqn:C2.
  - specialize (F eq_refl).
    assert (truthy (sessionId st)
            && negb (bool_decide (sessionId st = activeId st)) = false) as ->.
    { destruct (truthy (sessionId st)); [|done].
      by rewrite bool_decide_eq_true_2 by auto. }
    repeat (case_match; simplify_eq/=; try done);
      by apply settle_calm, calm_after_messages.
  - repeat (case_match; simplify_eq/=; try done).
Qed.

(** Four commits are enough: the first may move the active id to the session
    id, the second reloads the messages, the third saves them. *)
Lemma settle_fuel (prev : option deps) (st : ui) (ls : storage) :
  settle 4 prev st ls <> None.
Proof.
  run_pass.
  repeat (case_match; simplify_eq/=; try done);
    apply settle_following; (split; [by unfold changed; simpl; rewrite bool_decide_eq_true_2|]);
    unfold changed; simpl; intros Hc Ht; try done;
    by rewrite bool_decide_eq_true_2 in Hc.
Qed.

(** ** The session id of a request sent under a provisional id *)

#[local] Instance same_key_preorder : PreOrder same_key.
Proof. split; [done|]. intros a b c E1 E2. unfold same_key in *. congruence. Qed.

Lemma upsertSession_same_key (id title now : string) :
  respects same_key any_update (upsertSession id title now).
Proof.
  unfold upsertSession. frame; auto with storage.
  apply lookup_insert_ne, SESSIONS_KEY_not_session.
Qed.

Lemma is_provisional_nonempty (id : string) : is_provisional id = true -> id <> "".
Proof. by intros H ->. Qed.

(** When the active id is provisional and is the stored session id, as it is
    after [startNewChat], a request of [onSend] carries it as [session_id]:
    the [null] that [onSend] passes makes [sendChatMessage] read the stored
    id. *)
Lemma provisional_active_id_is_sent (st : ui) (e : entropy) (ls : storage)
    (id : string) (h : hst) (p : pending) :
  activeId st = Some id ->
  is_provisional id = true ->
  getSessionId ls = Some id ->
  onSend_start st e (Hst ls [] "") = (h, Ok (Some p)) ->
  p_sendSessionId p = None
  /\ req_body (p_request p) =
     JSON_stringify
       (JObj [("session_id", JStr id); ("message", JStr (trim (input st)))]).
Proof.
  intros Ha Hp Hk. pose proof (is_provisional_nonempty _ Hp) as Hne.
  unfold onSend_start.
  destruct (String.eqb (trim (input st)) "" || isSending st); [done|].
  rewrite Ha. rewrite (proj2 (truthy_Some id) Hne).
  cbn [h_bind enqueue assign_currentId read_currentId default fst snd
       h_ls h_queue h_currentId].
  unfold Datatypes.id. unfold h_bind at 1.
  match goal with |- context [upsertSession ?a ?b ?c ?h1] =>
    pose proof (upsertSession_same_key a b c h1) as [Hsame _];
    destruct (upsertSession a b c h1) as [h2 [[]|ex]]
  end; cbn [h_bind h_read h_ret fst snd h_ls] in *; [|intros [=]].
  rewrite Hp.
  intros E. unfold h_ret in E. simplify_eq. split; [done|].
  cbn [p_request req_body sendChatMessage_request nullish].
  unfold getSessionId, getItem in *. rewrite Hsame. cbn [h_ls]. rewrite Hk.
  unfold chat_body. by rewrite (proj2 (truthy_Some id) Hne).
Qed.

(** ** The updater that re-keys the messages *)

Lemma loadSessions_setSessionId (id : option string) (ls : storage) :
  loadSessions (setSessionId id ls) = loadSessions ls.
Proof.
  unfold loadSessions, getItem, setSessionId. destruct id as [s|]; [|done].
  destruct (truthy (Some s)); [|done].
  unfold setItem. by rewrite lookup_insert_ne by (symmetry; apply SESSIONS_KEY_not_session).
Qed.

(** Called with [currentId] holding the server's id, the updater leaves the
    messages of every other id where they are. *)
Lemma rekey_at_render (real other : string) (st : ui) (ls : storage) :
  other <> real ->
  exists ls',
    run_updater real (Rekey real) st ls = Ok (st, ls')
    /\ ls' !! MSG_KEY other = ls !! MSG_KEY other.
Proof.
  intros Hne. eexists. split; [reflexivity|].
  unfold saveMessages, setItem, removeItem.
  assert (MSG_KEY real <> MSG_KEY other) as Hk.
  { intros E. apply MSG_KEY_inj in E. congruence. }
  destruct (truthy (Some real)).
  - by rewrite lookup_insert_ne, lookup_delete_ne.
  - by rewrite lookup_delete_ne.
Qed.

(** When a response brings a server id for a request sent under a
    provisional one, [onSend] queues the re-keying updater and ends with
    [currentId] holding the server's id: this is the value the updater reads
    at the render. *)
Lemma rekey_is_queued_before_the_assignment (p : pending) (res : response)
    (data : chat_data) (e : entropy) (ls : storage) (real : string)
    (stored : json) (updated : list json) :
  is_provisional (p_currentId p) = true ->
  p_sendSessionId p = None ->
  res_ok res = true ->
  res_json res = Ok data ->
  d_session_id data = Some real ->
  real <> "" ->
  real <> p_currentId p ->
  loadSessions ls = Ok stored ->
  with_rekeyed_id (p_currentId p) real stored = Ok updated ->
  let h := (onSend_settle p (Ok res) e (Hst ls [] "")).1 in
  h_currentId h = real
  /\ Upd_messages (Rekey real) ∈ h_queue h
  /\ h_ls h !! MSG_KEY (p_currentId p) = ls !! MSG_KEY (p_currentId p).
Proof.
  intros Hprov Hsend Hok Hjson Hsid Hne Hdiff Hload Hrekey.
  assert (truthy (Some real) = true) as Ht by by apply truthy_Some.
  assert (or_else (Some real) (or_else None (Some (p_currentId p))) = Some real)
    as Hreal by (unfold or_else; by rewrite Ht).
  apply String.eqb_neq in Hdiff.
  unfold onSend_settle, sendMessage_settle, sendChatMessage_settle,
    setSessionIdState.
  rewrite Hsend. cbv zeta.
  unfold h_finally, h_catch, h_bind, h_lift, h_store, h_ret, h_load, enqueue,
    assign_currentId.
  repeat first
    [ rewrite Hok | rewrite Hjson | rewrite Hsid | rewrite Ht | rewrite Hreal
    | rewrite Hprov | rewrite Hdiff | rewrite loadSessions_setSessionId
    | rewrite Hload | rewrite Hrekey
    | progress cbn [fst snd h_ls h_queue h_currentId andb negb app] ].
  split; [done|]. split; [set_solver|].
  unfold setSessionId. rewrite Ht. unfold saveSessions, setItem.
  rewrite !lookup_insert_ne; first done.
  all: apply not_eq_sym; auto using MSG_KEY_not_session, MSG_KEY_not_sessions.
Qed.

(** * Further properties of the client *)

(** ** The stored session id *)

(** X1.  The stored session id reads back what [setSessionId] wrote, and is
    absent after [clearSessionId]; neither touches another key, and
    [setSessionId] of [null] or of the empty string writes nothing. *)
Theorem session_id_round_trip (ls : storage) (id : string) :
  id <> "" ->
  getSessionId (setSessionId (Some id) ls) = Some id
  /\ getSessionId (clearSessionId (setSessionId (Some id) ls)) = None
  /\ (forall k, k <> SESSION_STORAGE_KEY ->
        setSessionId (Some id) ls !! k = ls !! k
        /\ clearSessionId ls !! k = ls !! k)
  /\ setSessionId None ls = ls
  /\ setSessionId (Some "") ls = ls.
Proof.
  intros Hne. apply truthy_Some in Hne.
  unfold getSessionId, getItem, clearSessionId, removeItem, setSessionId, setItem.
  rewrite Hne. repeat split.
  - apply lookup_insert_eq.
  - apply lookup_delete_eq.
  - by apply lookup_insert_ne.
  - by apply lookup_delete_ne.
Qed.

(** ** Saving and loading *)

(** X2.  For a value that the JSON builtins read back as written and that is
    not [null], [loadMessages] returns what [saveMessages] stored under the
    same id; the messages of every other id, the sessions and the stored
    session id are unaffected; and [saveMessages] under a [null] or empty id
    stores nothing. *)
Theorem messages_round_trip (ls : storage) (id : string) (v : json) :
  id <> "" -> v <> JNull -> JSON_parse (JSON_stringify v) = Ok v ->
  loadMessages (Some id) (saveMessages (Some id) v ls) = Ok v
  /\ (forall other, other <> id ->
        loadMessages (Some other) (saveMessages (Some id) v ls)
        = loadMessages (Some other) ls)
  /\ loadSessions (saveMessages (Some id) v ls) = loadSessions ls
  /\ getSessionId (saveMessages (Some id) v ls) = getSessionId ls
  /\ saveMessages None v ls = ls
  /\ saveMessages (Some "") v ls = ls.
Proof.
  intros Hne Hv Hrt. apply truthy_Some in Hne.
  unfold loadMessages, loadSessions, getSessionId, saveMessages, getItem, setItem.
  rewrite Hne. repeat split.
  - rewrite lookup_insert_eq. unfold safeParse. simpl. rewrite Hrt. simpl.
    by destruct v.
  - intros other Ho. destruct (truthy (Some other)); [|done].
    rewrite lookup_insert_ne; [done|]. intros E. apply MSG_KEY_inj in E. congruence.
  - by rewrite lookup_insert_ne by apply MSG_KEY_not_sessions.
  - by rewrite lookup_insert_ne by apply MSG_KEY_not_session.
Qed.

(** X3.  For such a value, [loadSessions] returns what [saveSessions]
    stored, and the messages and the stored session id are unaffected; a
    stored [null] reads back as the empty array. *)
Theorem sessions_round_trip (ls : storage) (v : json) :
  v <> JNull -> JSON_parse (JSON_stringify v) = Ok v ->
  loadSessions (saveSessions v ls) = Ok v
  /\ (forall id, loadMessages id (saveSessions v ls) = loadMessages id ls)
  /\ getSessionId (saveSessions v ls) = getSessionId ls
  /\ (JSON_parse (JSON_stringify JNull) = Ok JNull ->
      loadSessions (saveSessions JNull ls) = Ok (JArr [])).
Proof.
  intros Hv Hrt.
  unfold loadMessages, loadSessions, getSessionId, saveSessions, getItem, setItem.
  repeat split.
  - rewrite lookup_insert_eq. unfold safeParse. simpl. rewrite Hrt. simpl.
    by destruct v.
  - intros [id|]; [|done]. destruct (truthy (Some id)); [|done].
    rewrite lookup_insert_ne; [done|]. apply not_eq_sym, MSG_KEY_not_sessions.
  - by rewrite lookup_insert_ne by apply SESSIONS_KEY_not_session.
  - intros Hnull. rewrite lookup_insert_eq. unfold safeParse. simpl.
    by rewrite Hnull.
Qed.

(** ** Titles *)


(** ** The list of sessions *)

(** Disequalities between the keys of the storage, and lookups through the
    writes of the handlers. *)
Ltac keys :=
  first
    [ done
    | apply MSG_KEY_not_session
    | apply MSG_KEY_not_sessions
    | apply SESSIONS_KEY_not_session
    | apply not_eq_sym;
      first [ apply MSG_KEY_not_session | apply MSG_KEY_not_sessions
            | apply SESSIONS_KEY_not_session ]
    | by auto
    | by (apply not_eq_sym; auto)
    | by (intros ?%MSG_KEY_inj; congruence) ].

Ltac maps :=
  repeat first
    [ rewrite lookup_insert_eq
    | rewrite lookup_delete_eq
    | rewrite lookup_insert_ne by keys
    | rewrite lookup_delete_ne by keys ].

Lemma id_is_has_id (id : string) (s : json) :
  s <> JNull -> id_is id s = Ok (has_id id s).
Proof.
  intros Hs. unfold id_is, has_id, prop_id. destruct s; try done.
Qed.

Lemma filter_items_filter (id : string) (items : list json) :
  JNull ∉ items ->
  filter_items id items = Ok (filter (fun s => has_id id s = false) items).
Proof.
  induction items as [|s items IH]; intros Hn; [done|].
  apply not_elem_of_cons in Hn as [Hs Hn]. simpl.
  rewrite id_is_has_id by done. simpl. rewrite IH by done. simpl.
  rewrite filter_cons. destruct (has_id id s); by case_decide.
Qed.

Lemma filter_items_null (id : string) (items : list json) :
  JNull ∈ items -> filter_items id items = Throw TypeError.
Proof.
  induction items as [|s items IH]; intros Hn; [by apply not_elem_of_nil in Hn|].
  apply elem_of_cons in Hn as [<-|Hn]; [done|].
  simpl. rewrite IH by done. unfold id_is, prop_id. by destruct s.
Qed.

Lemma rekey_items_map (currentId realId : string) (items : list json) :
  JNull ∉ items ->
  rekey_items currentId realId items = Ok (rekeyed currentId realId <$> items).
Proof.
  induction items as [|s items IH]; intros Hn; [done|].
  apply not_elem_of_cons in Hn as [Hs Hn]. simpl.
  rewrite id_is_has_id by done. simpl. rewrite IH by done. simpl.
  unfold rekeyed. by destruct s.
Qed.

Lemma assoc_set_field (k : string) (v : json) (fields : list (string * json)) :
  assoc k (set_field k v fields) = Some v.
Proof.
  induction fields as [|[k' v'] fields IH]; simpl.
  - by rewrite String.eqb_refl.
  - destruct (String.eqb k k') eqn:E; simpl; rewrite E; [done|exact IH].
Qed.

Lemma rekeyed_has_id (currentId realId : string) (s : json) :
  realId <> currentId ->
  has_id currentId (rekeyed currentId realId s) = false
  /\ (has_id currentId s = false -> rekeyed currentId realId s = s)
  /\ (has_id currentId s = true -> has_id realId (rekeyed currentId realId s) = true).
Proof.
  intros Hne. unfold rekeyed. destruct s as [| | | | |fields]; try done.
  destruct (has_id currentId (JObj fields)) eqn:E; [|done].
  repeat split; try done; simpl; rewrite assoc_set_field.
  - by apply String.eqb_neq.
  - intros _. apply String.eqb_refl.
Qed.

(** X5.  On stored sessions that are an array without [null], [upsertSession]
    stores, and queues for the state, the new entry followed by the stored
    entries of every other id, in their order: the list then holds one entry
    for the id, the first. *)
Theorem upsertSession_keeps_one_entry (id title now : string) (ls : storage)
    (queue : list update) (c : string) (items : list json) :
  loadSessions ls = Ok (JArr items) ->
  JNull ∉ items ->
  let kept := filter (fun s => has_id id s = false) items in
  let out := JArr (upserted_entry id title now :: kept) in
  upsertSession id title now (Hst ls queue c)
  = (Hst (saveSessions out ls) (queue ++ [Set_sessions out]) c, Ok tt)
  /\ has_id id (upserted_entry id title now) = true
  /\ (forall s, s ∈ kept <-> s ∈ items /\ has_id id s = false)
  /\ kept `sublist_of` items.
Proof.
  intros Hload Hn kept out. split; [|split; [|split]].
  - unfold upsertSession, h_bind, h_load, h_lift, h_store, enqueue. simpl.
    rewrite Hload. simpl. by rewrite filter_items_filter.
  - simpl. apply String.eqb_refl.
  - intros s. subst kept. by rewrite list_elem_of_filter, (comm and).
  - apply sublist_filter.
Qed.

Lemma without_id_wrong_shape (v : json) (id : string) :
  (is_array v = false \/ exists items, v = JArr items /\ JNull ∈ items) ->
  without_id id v = Throw TypeError.
Proof.
  intros [Hv|(items & -> & Hn)].
  - by destruct v.
  - by apply filter_items_null.
Qed.

Lemma upsertSession_wrong_shape (h : hst) (v : json) (id title now : string) :
  loadSessions (h_ls h) = Ok v ->
  (is_array v = false \/ exists items, v = JArr items /\ JNull ∈ items) ->
  upsertSession id title now h = (h, Throw TypeError).
Proof.
  intros Hload Hv. unfold upsertSession, h_bind, h_load, h_lift.
  rewrite Hload. by rewrite without_id_wrong_shape.
Qed.

(** X6.  [safeParse] does not check the shape of what it reads.  When the
    stored sessions are valid JSON that is not an array, or an array that
    holds [null], [upsertSession] and [deleteChat] throw a [TypeError] and
    have written and queued nothing. *)
Theorem sessions_of_wrong_shape_throw (ls : storage) (v : json)
    (queue : list update) (c : string) :
  loadSessions ls = Ok v ->
  (is_array v = false \/ exists items, v = JArr items /\ JNull ∈ items) ->
  (forall id title now,
     upsertSession id title now (Hst ls queue c) = (Hst ls queue c, Throw TypeError))
  /\ (forall st id,
        deleteChat st id (Hst ls queue c) = (Hst ls queue c, Throw TypeError)).
Proof.
  intros Hload Hv. split.
  - intros id title now. by eapply upsertSession_wrong_shape.
  - intros st id. unfold deleteChat, h_bind, h_load, h_lift. simpl.
    rewrite Hload. simpl. by rewrite without_id_wrong_shape.
Qed.

(** X7.  On stored sessions that are an array without [null], [deleteChat]
    stores the entries of every other id and removes the messages of the
    chat; the messages of every other chat stay.  When the chat is the active
    one the stored session id is removed and the active id, the session id
    and the messages are reset; otherwise the stored session id and those
    three are left alone. *)
Theorem deleteChat_result (st : ui) (id : string) (ls : storage)
    (queue : list update) (c : string) (items : list json) :
  loadSessions ls = Ok (JArr items) ->
  JNull ∉ items ->
  let kept := JArr (filter (fun s => has_id id s = false) items) in
  let r := deleteChat st id (Hst ls queue c) in
  r.2 = Ok tt
  /\ h_ls r.1 !! SESSIONS_KEY = Some (JSON_stringify kept)
  /\ h_ls r.1 !! MSG_KEY id = None
  /\ (forall other, other <> id -> h_ls r.1 !! MSG_KEY other = ls !! MSG_KEY other)
  /\ (activeId st = Some id ->
      getSessionId (h_ls r.1) = None
      /\ h_queue r.1
         = (queue ++ [Set_sessions kept; Set_activeId None; Set_sessionId None;
                      Set_messages (JArr [])])%list)
  /\ (activeId st <> Some id ->
      getSessionId (h_ls r.1) = getSessionId ls
      /\ h_queue r.1 = (queue ++ [Set_sessions kept])%list).
Proof.
  intros Hload Hn kept r.
  assert (forall other, other <> id -> MSG_KEY id <> MSG_KEY other) as Hk.
  { intros other Ho E. apply MSG_KEY_inj in E. congruence. }
  subst r. unfold deleteChat, h_bind, h_load, h_lift, h_store, enqueue,
    clearSessionIdState, h_ret. simpl.
  rewrite Hload. simpl. rewrite filter_items_filter by done. simpl.
  unfold getSessionId, getItem, clearSessionId, removeItem, saveSessions, setItem.
  destruct (bool_decide (activeId st = Some id)) eqn:Ha; simpl.
  - apply bool_decide_eq_true in Ha.
    repeat split; try done; intros; first [by maps | by rewrite <- !app_assoc].
  - apply bool_decide_eq_false in Ha.
    repeat split; try done; intros; by maps.
Qed.

(** X8.  On an array without [null], and for a server id other than the
    provisional one, the re-keying of the sessions keeps the number and the
    order of the entries, leaves the entries of other ids as they are, gives
    the server id to those of the provisional id, and leaves no entry with
    the provisional id. *)
Theorem with_rekeyed_id_result (currentId realId : string) (items : list json) :
  JNull ∉ items ->
  realId <> currentId ->
  exists updated,
    with_rekeyed_id currentId realId (JArr items) = Ok updated
    /\ List.length updated = List.length items
    /\ (forall s, s ∈ updated -> has_id currentId s = false)
    /\ (forall i s, items !! i = Some s -> has_id currentId s = false ->
          updated !! i = Some s)
    /\ (forall i s, items !! i = Some s -> has_id currentId s = true ->
          exists s', updated !! i = Some s' /\ has_id realId s' = true).
Proof.
  intros Hn Hne. exists (rekeyed currentId realId <$> items).
  split; [by apply rekey_items_map|]. split; [apply length_fmap|].
  split; [|split].
  - intros s Hs. apply list_elem_of_fmap in Hs as (s0 & -> & _).
    by apply rekeyed_has_id.
  - intros i s Hi Hs. rewrite list_lookup_fmap, Hi. simpl.
    f_equal. by apply rekeyed_has_id.
  - intros i s Hi Hs. rewrite list_lookup_fmap, Hi. simpl.
    eexists. split; [done|]. by apply rekeyed_has_id.
Qed.

(** ** Effects when the active id follows the session id *)

#[local] Instance key_follows_preorder (sid : option string) :
  PreOrder (key_follows sid).
Proof.
  split.
  - intros ls. by left.
  - intros a b c [E1|[T1 E1]] [E2|[T2 E2]]; unfold key_follows.
    + left. congruence.
    + by right.
    + right. split; [done|congruence].
    + by right.
Qed.

Lemma setSessionId_follows (sid : option string) (ls : storage) :
  truthy sid = true -> key_follows sid ls (setSessionId sid ls).
Proof.
  intros T. right. split; [done|]. unfold setSessionId.
  destruct sid as [s|]; [|done]. rewrite T. apply lookup_insert_eq.
Qed.

Lemma saveMessages_follows (sid id : option string) (v : json) (ls : storage) :
  key_follows sid ls (saveMessages id v ls).
Proof.
  left. unfold saveMessages. destruct id as [s|]; [|done].
  destruct (truthy (Some s)); [|done]. unfold setItem. by maps.
Qed.

Lemma effects_pass_following (prev : option deps) (st : ui) :
  follows_session st ->
  respects (key_follows (sessionId st)) messages_update (effects_pass prev st).
Proof.
  intros F. unfold effects_pass, effect_follow.
  assert (truthy (sessionId st)
          && negb (bool_decide (sessionId st = activeId st)) = false) as ->.
  { destruct (truthy (sessionId st)) eqn:T; [|done].
    by rewrite bool_decide_eq_true_2 by auto. }
  unfold effect_persist, effect_load, effect_save.
  destruct (truthy (sessionId st)) eqn:T;
    frame; auto using setSessionId_follows, saveMessages_follows; exact I.
Qed.

Lemma flush_messages_only (c : string) (queue : list update) (st st' : ui)
    (ls ls' : storage) :
  Forall messages_update queue ->
  flush c queue st ls = Ok (st', ls') ->
  ls' = ls /\ sessionId st' = sessionId st /\ activeId st' = activeId st
  /\ sessions st' = sessions st /\ input st' = input st
  /\ isSending st' = isSending st /\ err st' = err st.
Proof.
  intros F. revert st. induction F as [|u queue Hu _ IH]; intros st E.
  - simpl in E. by simplify_eq.
  - destruct u; try done. simpl in E. apply IH in E. by destruct E as (-> & ?).
Qed.

(** When the active id follows the session id, the effects change neither;
    they leave every cell but the messages, and the stored session id is
    left as it was or set to the session id. *)
Lemma settle_following_frame (fuel : nat) (prev : option deps) (st st' : ui)
    (ls ls' : storage) :
  follows_session st ->
  settle fuel prev st ls = Some (Ok (st', ls')) ->
  sessionId st' = sessionId st /\ activeId st' = activeId st
  /\ sessions st' = sessions st /\ input st' = input st
  /\ isSending st' = isSending st /\ err st' = err st
  /\ key_follows (sessionId st) ls ls'.
Proof.
  revert prev st ls. induction fuel as [|fuel IH]; intros prev st ls F; [done|].
  rewrite settle_S.
  pose proof (effects_pass_following prev st F (Hst ls [] "")) as Hr.
  destruct (effects_pass prev st (Hst ls [] "")) as [h [[]|e]]; [|done].
  destruct Hr as [HR (q & Hq & HP)]. simpl in HR, Hq. rewrite Hq.
  destruct q as [|u q]; [intros E; by simplify_eq|].
  destruct (flush "" (u :: q) st (h_ls h)) as [[st1 ls1]|] eqn:Fl; [|done].
  apply flush_messages_only in Fl as (-> & Es & Ea & Ess & Ei & Eb & Ee); [|done].
  intros E. apply IH in E.
  - destruct E as (-> & -> & -> & -> & -> & -> & K). rewrite Es in K.
    repeat split; try done. by etrans.
  - unfold follows_session. by rewrite Es, Ea.
Qed.

(** ** The session id, the active id and the stored id agree *)

Lemma ids_after_app (q1 q2 : list update) (ids : option string * option string) :
  ids_after (q1 ++ q2) ids = ids_after q2 (ids_after q1 ids).
Proof.
  revert ids. induction q1 as [|u q1 IH]; intros ids; [done|].
  destruct u; simpl; apply IH.
Qed.

Lemma ids_after_neutral (q : list update) (ids : option string * option string) :
  Forall neutral_update q -> ids_after q ids = ids.
Proof.
  induction 1 as [|u q Hu _ IH]; [done|]. destruct u; simpl in *; done.
Qed.

Lemma saveMessages_same_key (id : option string) (v : json) (ls : storage) :
  same_key ls (saveMessages id v ls).
Proof.
  unfold same_key, saveMessages. destruct id as [s|]; [|done].
  destruct (truthy (Some s)); [|done]. unfold setItem. by maps.
Qed.

Lemma flush_ids (c : string) (queue : list update) (st st' : ui)
    (ls ls' : storage) :
  flush c queue st ls = Ok (st', ls') ->
  (sessionId st', activeId st') = ids_after queue (sessionId st, activeId st)
  /\ same_key ls ls'.
Proof.
  revert st ls. induction queue as [|u rest IH]; simpl; intros st ls E.
  - by simplify_eq.
  - destruct (apply_update c u st ls) as [[st1 ls1]|] eqn:E1; simpl in E; [|done].
    apply IH in E as [-> K].
    destruct u as [| | | |f| | |]; simpl in E1; simplify_eq; try done.
    destruct f as [msg|real]; simpl in E1.
    + destruct (spread (messages st)); simpl in E1; simplify_eq. simpl.
      split; [done|]. etrans; [|exact K]. apply (saveMessages_same_key (Some c)).
    + simplify_eq. split; [done|]. etrans; [|exact K].
      etrans; [|apply (saveMessages_same_key (Some real))].
      unfold same_key, removeItem. by maps.
Qed.

Lemma handler_ok_extends (st : ui) (h h' : hst) :
  extends same_key neutral_update h h' -> handler_ok st h -> handler_ok st h'.
Proof.
  intros [K (q & Hq & F)]. unfold handler_ok, ids_settle, getSessionId, getItem.
  rewrite Hq, ids_after_app, (ids_after_neutral q) by done.
  unfold same_key in K. by rewrite K.
Qed.

Lemma agree_handler_ok (st : ui) (ls : storage) (c : string) :
  agree st ls -> handler_ok st (Hst ls [] c).
Proof.
  intros [E K]. unfold handler_ok, ids_settle. simpl. split; [by left|].
  rewrite E. exact K.
Qed.

(** The pass of the effects on a session id that counts and differs from the
    active id: the active id is set to it. *)
Lemma effects_pass_moves (prev : option deps) (st : ui) (ls : storage) :
  prev_agrees prev ->
  truthy (sessionId st) = true ->
  sessionId st <> activeId st ->
  let r := effects_pass prev st (Hst ls [] "") in
  key_follows (sessionId st) ls (h_ls r.1)
  /\ exists q, h_queue r.1 = Set_activeId (sessionId st) :: q
               /\ Forall messages_update q.
Proof.
  intros Hp T Hne.
  assert (changed dep_sessionId prev (deps_of st)
          || changed dep_activeId prev (deps_of st) = true) as Hc.
  { destruct prev as [d|]; [|done]. simpl in *.
    destruct (bool_decide (dep_sessionId d = sessionId st)) eqn:B1; [|done].
    destruct (bool_decide (dep_activeId d = activeId st)) eqn:B2; [|done].
    apply bool_decide_eq_true in B1, B2. congruence. }
  unfold effects_pass. rewrite Hc. unfold effect_follow. rewrite T.
  rewrite bool_decide_eq_false_2 by done. cbn [negb andb].
  set (rest := h_bind (if changed dep_activeId _ _ then _ else _) _).
  assert (respects (key_follows (sessionId st)) messages_update rest) as Hrest.
  { subst rest. unfold effect_load, effect_save.
    frame; auto using saveMessages_follows; exact I. }
  unfold effect_persist. rewrite T.
  destruct (changed dep_sessionId prev (deps_of st));
    cbn [h_bind h_store h_ret enqueue fst snd h_ls h_queue h_currentId app];
    match goal with |- context [rest ?h1] =>
      destruct (Hrest h1) as [K (q & Hq & F)] end;
    cbn [h_ls h_queue] in K, Hq; (split; [|by exists q]).
  - etrans; [|exact K]. by apply setSessionId_follows.
  - exact K.
Qed.

(** From such ids the effects reach agreement. *)
Lemma settle_agree (fuel : nat) (prev : option deps) (st st' : ui)
    (ls ls' : storage) :
  prev_agrees prev ->
  ids_settle (sessionId st) (activeId st) ls ->
  settle fuel prev st ls = Some (Ok (st', ls')) ->
  agree st' ls'.
Proof.
  intros Hp [Q1 Q2] E.
  assert (forall st1 ls1,
            sessionId st1 = sessionId st -> activeId st1 = sessionId st ->
            key_follows (sessionId st) ls ls1 -> agree st1 ls1) as Hend.
  { intros st1 ls1 Es Ea K. split; [congruence|]. rewrite Ea. intros T.
    unfold getSessionId, getItem in *.
    destruct K as [K|[_ K]]; rewrite K; auto. }
  destruct (decide (sessionId st = activeId st)) as [Heq|Hne].
  - apply settle_following_frame in E as (Es & Ea & _ & _ & _ & _ & K);
      [|by intros _].
    apply Hend; congruence.
  - destruct Q1 as [?|T]; [done|].
    destruct fuel as [|fuel]; [done|]. rewrite settle_S in E.
    pose proof (effects_pass_moves prev st ls Hp T Hne) as [K (q & Hq & F)].
    destruct (effects_pass prev st (Hst ls [] "")) as [h [[]|e]]; [|done].
    simpl in K, Hq. rewrite Hq in E. cbn [flush apply_update js_bind fst snd] in E.
    match type of E with
    | context [flush "" q ?st1 _] =>
        destruct (flush "" q st1 (h_ls h)) as [[st2 ls2]|] eqn:Fl; [|done];
        apply flush_messages_only in Fl as (-> & Es & Ea & _); [|done]
    end.
    simpl in Es, Ea.
    apply settle_following_frame in E as (Es' & Ea' & _ & _ & _ & _ & K');
      [|intros _; congruence].
    rewrite Es in K'.
    apply Hend; [congruence|congruence|by etrans].
Qed.

Lemma commit_agree (st st' : ui) (h : hst) (ls' : storage) :
  sessionId st = activeId st ->
  handler_ok st h ->
  commit st h = Some (st', ls') ->
  agree st' ls'.
Proof.
  intros Hst [Q1 Q2]. unfold commit.
  destruct (flush (h_currentId h) (h_queue h) st (h_ls h)) as [[st1 ls1]|] eqn:F;
    [|done].
  destruct (settle 4 (Some (deps_of st)) st1 ls1) as [[[st2 ls2]|]|] eqn:S;
    [|done|done].
  intros E. simplify_eq. apply flush_ids in F as [Hids K].
  eapply settle_agree; [|split|exact S].
  - exact Hst.
  - by rewrite <- Hids in Q1.
  - rewrite <- Hids in Q2. simpl in Q2. unfold getSessionId, getItem in *.
    by rewrite K.
Qed.

Lemma saveSessions_same_key (v : json) (ls : storage) :
  same_key ls (saveSessions v ls).
Proof. unfold same_key, saveSessions, setItem. by maps. Qed.

Lemma upsertSession_neutral (id title now : string) :
  respects same_key neutral_update (upsertSession id title now).
Proof.
  unfold upsertSession. frame; auto using saveSessions_same_key; exact I.
Qed.

Lemma sendChatMessage_request_stored (text : string) (id : string)
    (ls : storage) :
  truthy (Some id) = true ->
  getSessionId ls = Some id ->
  req_body (sendChatMessage_request text None ls)
  = JSON_stringify (JObj [("session_id", JStr id); ("message", JStr text)]).
Proof.
  intros T E. unfold sendChatMessage_request, nullish, chat_body. simpl.
  by rewrite E, T.
Qed.

Lemma setSessionId_stored (id : string) (ls : storage) :
  truthy (Some id) = true -> getSessionId (setSessionId (Some id) ls) = Some id.
Proof.
  intros T. unfold getSessionId, getItem, setSessionId, setItem. rewrite T.
  apply lookup_insert_eq.
Qed.

Lemma selectSession_ok (st : ui) (ls : storage) (id : string) :
  handler_ok st (selectSession id (Hst ls [] "")).1.
Proof.
  unfold selectSession, setSessionIdState, handler_ok, ids_settle.
  destruct (truthy (Some id)) eqn:T;
    cbn [h_bind enqueue h_store h_ret fst snd h_ls h_queue h_currentId app ids_after];
    (split; [by left|]); [|by rewrite T].
  intros _. by apply setSessionId_stored.
Qed.

Lemma startNewChat_ok (st : ui) (ls : storage) (e : entropy) :
  handler_ok st (startNewChat e (Hst ls [] "")).1.
Proof.
  unfold startNewChat.
  set (rest := h_bind (upsertSession _ _ _) _).
  unfold setSessionIdState, clearSessionIdState. rewrite makeLocalId_truthy.
  cbn [h_bind enqueue h_store h_ret fst snd h_ls h_queue h_currentId app].
  match goal with |- context [rest ?h1] => set (h1' := h1) end.
  assert (respects same_key neutral_update rest) as Hrest.
  { subst rest. frame; auto using saveSessions_same_key; exact I. }
  apply (handler_ok_extends st h1'); [apply Hrest|].
  unfold handler_ok, ids_settle. subst h1'.
  cbn [h_ls h_queue ids_after fst snd]. split; [by left|].
  intros _. by apply setSessionId_stored.
Qed.

Lemma onSend_start_ok (st : ui) (ls : storage) (e : entropy) :
  agree st ls -> handler_ok st (onSend_start st e (Hst ls [] "")).1.
Proof.
  intros Ha. unfold onSend_start.
  destruct (String.eqb (trim (input st)) "" || isSending st);
    [by apply agree_handler_ok|].
  destruct (truthy (activeId st)) eqn:T.
  - eapply handler_ok_extends; [|by apply (agree_handler_ok st ls "")].
    match goal with |- extends _ _ _ (?m _).1 =>
      assert (respects same_key neutral_update m) as Hm; [|apply Hm] end.
    frame; auto using saveSessions_same_key; exact I.
  - set (tail := h_bind (enqueue (Upd_messages _)) _).
    assert (respects same_key neutral_update tail) as Htail.
    { subst tail. frame; auto using saveSessions_same_key; exact I. }
    unfold setSessionIdState. rewrite makeLocalId_truthy.
    unfold h_bind, enqueue, h_store, assign_currentId.
    cbn [fst snd h_ls h_queue h_currentId app].
    match goal with |- context [upsertSession ?a ?b ?c ?h1] =>
      assert (handler_ok st h1) as Hok;
        [|pose proof (upsertSession_neutral a b c h1) as Hup;
          destruct (upsertSession a b c h1) as [h2 [[]|ex]]]
    end.
    + unfold handler_ok, ids_settle. cbn [h_ls h_queue ids_after fst snd].
      split; [by left|]. intros _. by apply setSessionId_stored.
    + eapply handler_ok_extends; [apply Htail|].
      by eapply handler_ok_extends.
    + by eapply handler_ok_extends.
Qed.

Lemma deleteChat_ok (st : ui) (ls : storage) (id : string) :
  agree st ls -> handler_ok st (deleteChat st id (Hst ls [] "")).1.
Proof.
  intros Ha. unfold deleteChat, clearSessionIdState.
  unfold h_bind, h_load, h_lift, h_store, enqueue, h_ret.
  cbn [h_ls h_queue h_currentId fst snd app].
  destruct (loadSessions ls) as [v|ex]; [|by apply agree_handler_ok].
  destruct (without_id id v) as [next|ex]; [|by apply agree_handler_ok].
  destruct (bool_decide (activeId st = Some id));
    cbn [h_ls h_queue h_currentId fst snd app];
    unfold handler_ok, ids_settle; cbn [h_ls h_queue ids_after fst snd].
  - split; [by left|done].
  - destruct Ha as [E K]. split; [by left|]. rewrite E. intros T.
    rewrite <- (K T). unfold getSessionId, getItem, removeItem, saveSessions, setItem.
    by maps.
Qed.

Lemma ok_neutral (st : ui) {A} (m : H A) :
  respects same_key neutral_update m -> ok_step st m.
Proof. intros Hm h Hh. eapply handler_ok_extends; [apply Hm|done]. Qed.

Lemma ok_bind (st : ui) {A B} (m : H A) (k : A -> H B) :
  ok_step st m -> (forall a, ok_step st (k a)) -> ok_step st (h_bind m k).
Proof.
  intros Hm Hk h Hh. specialize (Hm h Hh). unfold h_bind.
  destruct (m h) as [h' [a|e]]; simpl in *; [|done]. by apply Hk.
Qed.

Lemma ok_catch (st : ui) {A} (m : H A) (c : exn -> H A) :
  ok_step st m -> (forall e, ok_step st (c e)) -> ok_step st (h_catch m c).
Proof.
  intros Hm Hc h Hh. specialize (Hm h Hh). unfold h_catch.
  destruct (m h) as [h' [a|e]]; simpl in *; [done|]. by apply Hc.
Qed.

Lemma ok_finally (st : ui) {A} (m : H A) (f : H unit) :
  ok_step st m -> ok_step st f -> ok_step st (h_finally m f).
Proof.
  intros Hm Hf h Hh. specialize (Hm h Hh). unfold h_finally.
  destruct (m h) as [h' r]. specialize (Hf h' Hm).
  by destruct (f h') as [h'' [[]|e]].
Qed.

Lemma handler_ok_session (st : ui) (h : hst) (id : string) :
  truthy (Some id) = true ->
  handler_ok st
    (Hst (setSessionId (Some id) (h_ls h)) (h_queue h ++ [Set_sessionId (Some id)])
       (h_currentId h)).
Proof.
  intros T. unfold handler_ok, ids_settle. cbn [h_ls h_queue].
  rewrite ids_after_app. cbn [ids_after fst snd]. split; [by right|].
  intros _. by apply setSessionId_stored.
Qed.

Lemma handler_ok_selected (st : ui) (h : hst) (id : string) (c : string) :
  handler_ok st
    (Hst (if truthy (Some id) then setSessionId (Some id) (h_ls h) else h_ls h)
       ((h_queue h ++ [Set_activeId (Some id)]) ++ [Set_sessionId (Some id)]) c).
Proof.
  unfold handler_ok, ids_settle. cbn [h_ls h_queue].
  rewrite !ids_after_app. cbn [ids_after fst snd]. split; [by left|].
  intros T. rewrite T. by apply setSessionId_stored.
Qed.

Lemma sendMessage_settle_ok (st : ui) (fetched : js response) :
  ok_step st (sendMessage_settle fetched).
Proof.
  intros h Hh. unfold sendMessage_settle, sendChatMessage_settle, setSessionIdState.
  unfold h_bind, h_lift, h_store, h_ret, enqueue.
  destruct fetched as [res|ex]; [|exact Hh].
  destruct (negb (res_ok res)); [exact Hh|].
  destruct (res_json res) as [[sid answer sources]|ex]; [|exact Hh].
  cbn [d_session_id].
  destruct (truthy sid) eqn:T;
    cbn [d_session_id fst snd h_ls h_queue h_currentId]; rewrite ?T;
    [|exact Hh].
  destruct sid as [sid|]; [|done].
  cbn [h_ls h_queue h_currentId fst snd].
  pose proof (handler_ok_session st h sid T) as Hs.
  unfold handler_ok, ids_settle, getSessionId, getItem in *.
  cbn [h_ls h_queue] in *.
  assert (setSessionId (Some sid) (setSessionId (Some sid) (h_ls h))
            !! SESSION_STORAGE_KEY
          = setSessionId (Some sid) (h_ls h) !! SESSION_STORAGE_KEY) as ->; [|done].
  unfold setSessionId, setItem. rewrite T. by maps.
Qed.

Lemma onSend_settle_ok (st : ui) (p : pending) (fetched : js response)
    (e : entropy) :
  ok_step st (onSend_settle p fetched e).
Proof.
  unfold onSend_settle.
  apply ok_bind; [apply ok_neutral; frame|intros _].
  apply ok_finally; [|apply ok_neutral; frame; exact I].
  apply ok_catch; [|intros ex; apply ok_neutral; frame; exact I].
  apply ok_bind; [apply sendMessage_settle_ok|intros result].
  apply ok_bind; [|intros _; apply ok_neutral; frame; exact I].
  destruct (or_else _ _) as [real|]; [|apply ok_neutral; frame].
  match goal with |- ok_step _ (if ?b then _ else _) => destruct b end;
    [|apply ok_neutral; frame].
  apply ok_bind; [apply ok_neutral; frame; exact I|intros _].
  apply ok_bind; [apply ok_neutral; frame|intros stored].
  apply ok_bind; [apply ok_neutral; frame|intros updated].
  apply ok_bind;
    [apply ok_neutral; frame; auto using saveSessions_same_key|intros _].
  apply ok_bind; [apply ok_neutral; frame; exact I|intros _].
  intros h _. unfold setSessionIdState.
  destruct (truthy (Some real)) eqn:T;
    cbn [h_bind enqueue h_store h_ret assign_currentId fst snd h_ls h_queue
         h_currentId];
    pose proof (handler_ok_selected st h real real) as Hs; by rewrite T in Hs.
Qed.

Lemma handle_agree (s s' : sys) (inflight : list pending) (h : hst) :
  agree (s_ui s) (s_ls s) ->
  handler_ok (s_ui s) h ->
  handle s inflight h = Some s' ->
  agree (s_ui s') (s_ls s').
Proof.
  intros [Ha _] Hh. unfold handle.
  destruct (commit (s_ui s) h) as [[st' ls']|] eqn:C; [|done].
  intros E. simplify_eq. simpl. by eapply commit_agree.
Qed.

Lemma step_agree (s s' : sys) (ev : event) :
  agree (s_ui s) (s_ls s) -> step s ev = Some s' -> agree (s_ui s') (s_ls s').
Proof.
  intros Ha.
  pose proof (agree_handler_ok _ _ "" Ha) as H0.
  destruct ev as [v|e|e|id|id|i fetched e]; simpl.
  - destruct (input_disabled (s_ui s)); [intros E; by simplify_eq|].
    apply handle_agree; [done|].
    eapply handler_ok_extends; [|exact H0].
    apply (respects_enqueue same_key neutral_update (Set_input v) I).
  - pose proof (onSend_start_ok (s_ui s) (s_ls s) e Ha) as Hok.
    destruct (onSend_start (s_ui s) e (Hst (s_ls s) [] "")) as [h [[p|]|ex]];
      by apply handle_agree.
  - apply handle_agree; [done|apply startNewChat_ok].
  - apply handle_agree; [done|apply selectSession_ok].
  - apply handle_agree; [done|by apply deleteChat_ok].
  - destruct (s_inflight s !! i) as [p|]; [|intros E; by simplify_eq].
    apply handle_agree; [done|]. by apply onSend_settle_ok.
Qed.

Lemma mount_agree (ls : storage) (s : sys) :
  mount ls = Some s -> agree (s_ui s) (s_ls s).
Proof.
  unfold mount. destruct (loadSessions ls) as [ss|]; [|done].
  destruct (loadMessages _ ls) as [ms|]; [|done].
  match goal with |- context [settle 4 None ?st ls] =>
    destruct (settle 4 None st ls) as [[[st' ls']|]|] eqn:S end; try done.
  intros E. simplify_eq. simpl.
  eapply settle_agree; [| |exact S]; [done|].
  unfold ids_settle. cbn [sessionId activeId]. unfold or_else.
  destruct (truthy (getSessionId ls)) eqn:T; rewrite ?T; simpl; by split; auto.
Qed.

(** X9.  In every state that the client reaches from its first render, the
    session id of the hook and the active id of the component are the same,
    and when that id is a non-empty string it is the stored session id. *)
Theorem ids_agree_in_every_state :
  (forall ls s, mount ls = Some s -> agree (s_ui s) (s_ls s))
  /\ (forall s ev s',
        agree (s_ui s) (s_ls s) -> step s ev = Some s' ->
        agree (s_ui s') (s_ls s'))
  /\ (forall ls evs s, boot ls evs = Some s -> agree (s_ui s) (s_ls s)).
Proof.
  split; [exact mount_agree|]. split; [intros s ev s'; apply step_agree|].
  intros ls evs s. unfold boot.
  destruct (mount ls) as [s0|] eqn:M; [|done]. apply mount_agree in M.
  revert s0 M. induction evs as [|ev evs IH]; simpl; intros s0 M E.
  - by simplify_eq.
  - destruct (step s0 ev) as [s1|] eqn:S; [|done].
    eapply IH; [|exact E]. by eapply step_agree.
Qed.


(** ** The session id of a request *)

Lemma upsertSession_currentId (id title now : string) (h : hst) :
  h_currentId (upsertSession id title now h).1 = h_currentId h.
Proof.
  unfold upsertSession, h_bind, h_load, h_lift, h_store, enqueue.
  destruct (loadSessions (h_ls h)); [|done].
  by destruct (without_id id _).
Qed.

Lemma makeLocalId_provisional (uuid : string) :
  is_provisional (makeLocalId uuid) = true.
Proof. unfold is_provisional, makeLocalId. simpl. by destruct uuid. Qed.

(** X10.  When the three ids agree, as they do in every state the client
    reaches, a request that [onSend] issues carries as [session_id] the id of
    the chat it is sent from: the active id, or the provisional id made for
    the message when there is no active id.  Its message is the trimmed
    input. *)
Theorem request_carries_the_chat_id (s : sys) (e : entropy) (h : hst)
    (p : pending) :
  agree (s_ui s) (s_ls s) ->
  onSend_start (s_ui s) e (Hst (s_ls s) [] "") = (h, Ok (Some p)) ->
  let c := if truthy (activeId (s_ui s)) then default "" (activeId (s_ui s))
           else makeLocalId (uuid_a e) in
  p_currentId p = c
  /\ p_text p = trim (input (s_ui s))
  /\ req_body (p_request p)
     = JSON_stringify
         (JObj [("session_id", JStr c); ("message", JStr (trim (input (s_ui s))))]).
Proof.
  intros [_ Hk] Hs c. revert Hs. unfold onSend_start.
  destruct (String.eqb (trim (input (s_ui s))) "" || isSending (s_ui s)); [done|].
  subst c. destruct (truthy (activeId (s_ui s))) eqn:T.
  - destruct (activeId (s_ui s)) as [a|] eqn:Ea; [|done].
    specialize (Hk eq_refl).
    cbn [h_bind enqueue assign_currentId read_currentId default fst snd
         h_ls h_queue h_currentId].
    unfold Datatypes.id. unfold h_bind at 1.
    match goal with |- context [upsertSession ?a ?b ?c ?h1] =>
      pose proof (upsertSession_same_key a b c h1) as [Hsame _];
      destruct (upsertSession a b c h1) as [h2 [[]|ex]]
    end; cbn [h_bind h_read h_ret fst snd h_ls] in *; [|intros [=]].
    intros E. unfold h_ret in E. simplify_eq.
    cbn [p_currentId p_text p_request req_body].
    split; [done|]. split; [done|].
    destruct (is_provisional a).
    + apply sendChatMessage_request_stored; [done|].
      unfold getSessionId, getItem in *. by rewrite Hsame.
    + unfold sendChatMessage_request, nullish, chat_body. cbn [req_body].
      by rewrite T.
  - unfold setSessionIdState. rewrite makeLocalId_truthy.
    unfold h_bind, enqueue, h_store, assign_currentId, read_currentId, h_read, h_ret.
    cbn [fst snd h_ls h_queue h_currentId app].
    match goal with |- context [upsertSession ?a ?b ?c ?h1] =>
      pose proof (upsertSession_same_key a b c h1) as [Hsame _];
      pose proof (upsertSession_currentId a b c h1) as Hc;
      destruct (upsertSession a b c h1) as [h2 [[]|ex]]
    end; cbn [fst snd h_ls h_queue h_currentId] in *; [|intros [=]].
    match goal with |- context [upsertSession ?a ?b ?c ?h1] =>
      pose proof (upsertSession_same_key a b c h1) as [Hsame' _];
      destruct (upsertSession a b c h1) as [h3 [[]|ex]]
    end; cbn [fst snd h_ls h_queue h_currentId] in *; [|intros [=]].
    rewrite Hc. intros E. simplify_eq.
    cbn [p_currentId p_text p_request req_body].
    split; [done|]. split; [done|].
    rewrite makeLocalId_provisional.
    apply sendChatMessage_request_stored; [done|].
    unfold getSessionId, getItem, same_key in *. rewrite Hsame', Hsame.
    unfold setSessionId. rewrite makeLocalId_truthy. apply lookup_insert_eq.
Qed.

(** ** Starting and selecting a chat *)

Lemma loadMessages_setSessionId (id sid : option string) (ls : storage) :
  loadMessages id (setSessionId sid ls) = loadMessages id ls.
Proof.
  unfold loadMessages, getItem, setSessionId. destruct id as [i|]; [|done].
  destruct (truthy (Some i)); [|done]. destruct sid as [x|]; [|done].
  destruct (truthy (Some x)); [|done]. unfold setItem. by maps.
Qed.

Lemma loadMessages_clearSessionId (id : option string) (ls : storage) :
  loadMessages id (clearSessionId ls) = loadMessages id ls.
Proof.
  unfold loadMessages, getItem, clearSessionId, removeItem.
  destruct id as [i|]; [|done]. destruct (truthy (Some i)); [|done]. by maps.
Qed.

Lemma settle_calm_result (fuel : nat) (prev : option deps) (st st' : ui)
    (ls ls' : storage) :
  calm prev st -> settle (S fuel) prev st ls = Some (Ok (st', ls')) -> st' = st.
Proof.
  intros [C1 C2]. run_pass. rewrite C1, C2. cbn [orb].
  repeat (case_match; simplify_eq/=; try done); intros E; by simplify_eq.
Qed.

(** When the active id changed and follows the session id, the effects leave
    the stored messages of the active id in the state. *)
Lemma settle_loads (fuel : nat) (prev : option deps) (st st' : ui)
    (ls ls' : storage) :
  follows_session st ->
  changed dep_activeId prev (deps_of st) = true ->
  settle (S (S fuel)) prev st ls = Some (Ok (st', ls')) ->
  loadMessages (activeId st) ls = Ok (messages st').
Proof.
  intros F C. rewrite settle_S. unfold effects_pass, effect_follow.
  assert (truthy (sessionId st)
          && negb (bool_decide (sessionId st = activeId st)) = false) as ->.
  { destruct (truthy (sessionId st)) eqn:T; [|done].
    by rewrite bool_decide_eq_true_2 by auto. }
  rewrite C, orb_true_r. cbn [orb].
  unfold effect_persist, effect_load, effect_save,
    h_bind, h_ret, h_store, h_load, h_lift, enqueue.
  cbn [h_ls h_queue h_currentId fst snd app].
  destruct (changed dep_sessionId prev (deps_of st));
    destruct (truthy (sessionId st));
    destruct (truthy (activeId st)) eqn:Ta;
    cbn [negb h_ls h_queue h_currentId fst snd app];
    rewrite ?loadMessages_setSessionId;
    try (destruct (loadMessages (activeId st) ls) as [m|] eqn:L; [|done]);
    try (destruct (length_is_zero (messages st)) as [[|]|]; [| |done]);
    cbn [h_ls h_queue h_currentId fst snd app flush apply_update js_bind];
    intros E; apply settle_calm_result in E; try apply calm_after_messages;
    subst st'; try done.
  all: unfold loadMessages; destruct (activeId st); [by rewrite Ta|done].
Qed.

#[local] Instance only_sessions_preorder : PreOrder only_sessions.
Proof.
  split; [done|]. intros a b c E1 E2 k Hk. by rewrite E2, E1.
Qed.

Lemma flush_app (c : string) (q1 q2 : list update) (st : ui) (ls : storage) :
  flush c (q1 ++ q2) st ls
  = js_bind (flush c q1 st ls) (fun r => flush c q2 r.1 r.2).
Proof.
  revert st ls. induction q1 as [|u q1 IH]; intros st ls; [done|].
  cbn [app flush]. destruct (apply_update c u st ls) as [[st1 ls1]|]; [|done].
  apply IH.
Qed.

Lemma flush_lists_only (c : string) (queue : list update) (st st' : ui)
    (ls ls' : storage) :
  Forall list_update queue ->
  flush c queue st ls = Ok (st', ls') ->
  ls' = ls /\ sessionId st' = sessionId st /\ activeId st' = activeId st
  /\ input st' = input st /\ isSending st' = isSending st /\ err st' = err st.
Proof.
  intros F. revert st. induction F as [|u queue Hu _ IH]; intros st E.
  - simpl in E. by simplify_eq.
  - destruct u; try done; simpl in E; apply IH in E; by destruct E as (-> & ?).
Qed.

Lemma loadMessages_only_sessions (id : option string) (ls ls' : storage) :
  only_sessions ls ls' -> loadMessages id ls' = loadMessages id ls.
Proof.
  intros K. unfold loadMessages, getItem. destruct id as [i|]; [|done].
  destruct (truthy (Some i)); [|done]. rewrite K; [done|]. keys.
Qed.

Lemma key_follows_stored (id : string) (ls ls' : storage) :
  getSessionId ls = Some id -> key_follows (Some id) ls ls' ->
  getSessionId ls' = Some id.
Proof.
  unfold getSessionId, getItem. intros E [K|[_ K]]; by rewrite K.
Qed.

(** X11.  Selecting a chat makes it the active one: the active id and the
    session id are its id, which is stored when it is not empty, and the error
    banner is cleared; the composer, [isSending], the sessions and the
    requests in flight are left alone.  When the chat was not the active one
    the messages shown are those stored for it. *)
Theorem selecting_a_chat (s s' : sys) (id : string) :
  step s (Select_session id) = Some s' ->
  activeId (s_ui s') = Some id
  /\ sessionId (s_ui s') = Some id
  /\ (id <> "" -> getSessionId (s_ls s') = Some id)
  /\ err (s_ui s') = ""
  /\ input (s_ui s') = input (s_ui s)
  /\ isSending (s_ui s') = isSending (s_ui s)
  /\ sessions (s_ui s') = sessions (s_ui s)
  /\ s_inflight s' = s_inflight s
  /\ (activeId (s_ui s) <> Some id ->
      loadMessages (Some id) (s_ls s) = Ok (messages (s_ui s'))).
Proof.
  unfold step, handle, commit, selectSession, setSessionIdState.
  set (ls1 := if truthy (Some id) then setSessionId (Some id) (s_ls s) else s_ls s).
  assert ((h_bind (enqueue (Set_err ""))
             (fun _ => h_bind (enqueue (Set_activeId (Some id)))
                (fun _ => h_bind (enqueue (Set_sessionId (Some id)))
                   (fun _ => if truthy (Some id)
                             then h_store (setSessionId (Some id))
                             else h_ret tt)))
             (Hst (s_ls s) [] "")).1
          = Hst ls1 [Set_err ""; Set_activeId (Some id); Set_sessionId (Some id)] "")
    as ->.
  { subst ls1. by destruct (truthy (Some id)). }
  cbn [h_ls h_queue h_currentId flush apply_update js_bind fst snd
       sessionId sessions activeId messages messages_ref input isSending err].
  match goal with |- context [settle 4 ?prev ?st1 ls1] =>
    destruct (settle 4 prev st1 ls1) as [[[st2 ls2]|]|] eqn:S; [|done|done];
    pose proof (settle_following_frame 4 prev st1 st2 ls1 ls2 (fun _ => eq_refl) S)
      as (E1 & E2 & E3 & E4 & E5 & E6 & K);
    pose proof (fun C => settle_loads 2 prev st1 st2 ls1 ls2 (fun _ => eq_refl) C S)
      as L
  end.
  intros E. simplify_eq. cbn [s_ui s_ls s_inflight] in *.
  cbn [sessionId sessions activeId messages messages_ref input isSending err] in *.
  repeat split; try done.
  - intros Hne. apply truthy_Some in Hne.
    eapply key_follows_stored; [|exact K].
    subst ls1. rewrite Hne. by apply setSessionId_stored.
  - intros Hne. rewrite <- L.
    + subst ls1. destruct (truthy (Some id)); [|done].
      by rewrite loadMessages_setSessionId.
    + unfold changed. cbn [dep_activeId deps_of].
      by rewrite bool_decide_eq_false_2.
Qed.

(** X12.  Starting a new chat makes a provisional id the active id, the
    session id and the stored session id, clears the composer and the error
    banner, and clears [isSending], also while a request is in flight; the
    requests in flight are kept.  The messages shown are those stored for the
    new id. *)
Theorem starting_a_new_chat (s s' : sys) (e : entropy) :
  step s (New_chat e) = Some s' ->
  let t := makeLocalId (uuid_a e) in
  activeId (s_ui s') = Some t
  /\ sessionId (s_ui s') = Some t
  /\ getSessionId (s_ls s') = Some t
  /\ err (s_ui s') = ""
  /\ input (s_ui s') = ""
  /\ isSending (s_ui s') = false
  /\ s_inflight s' = s_inflight s
  /\ (activeId (s_ui s) <> Some t ->
      loadMessages (Some t) (s_ls s) = Ok (messages (s_ui s'))).
Proof.
  unfold step, handle, commit, startNewChat.
  set (rest := h_bind (upsertSession _ _ _) _).
  unfold setSessionIdState, clearSessionIdState. rewrite makeLocalId_truthy.
  cbn [h_bind enqueue h_store h_ret fst snd h_ls h_queue h_currentId app].
  match goal with |- context [rest ?h1] => set (h1' := h1) end.
  assert (respects only_sessions list_update rest) as Hrest.
  { subst rest. frame; try exact I.
    intros k Hk. unfold saveSessions, setItem. by maps. }
  destruct (Hrest h1') as [K (q & Hq & F)]. rewrite Hq, flush_app.
  subst h1'. cbn [h_ls h_queue h_currentId flush apply_update js_bind fst snd
                  sessionId sessions activeId messages messages_ref input
                  isSending err] in *.
  match goal with |- context [flush ?c q ?st1 ?ls1] =>
    destruct (flush c q st1 ls1) as [[st2 ls2]|] eqn:Fl; [|done];
    apply flush_lists_only in Fl as (-> & Es & Ea & Ei & Eb & Ee); [|done]
  end.
  cbn [sessionId sessions activeId messages messages_ref input isSending err] in *.
  destruct (settle 4 (Some (deps_of (s_ui s))) st2 _) as [[[st3 ls3]|]|] eqn:S;
    [|done|done].
  assert (follows_session st2) as Hf by (intros _; congruence).
  pose proof (settle_following_frame _ _ _ _ _ _ Hf S)
    as (E1 & E2 & E3 & E4 & E5 & E6 & Kf).
  intros E. simplify_eq. cbn [s_ui s_ls s_inflight].
  set (t := makeLocalId (uuid_a e)) in *.
  assert (getSessionId (h_ls (rest (Hst (setSessionId (Some t) (clearSessionId (s_ls s)))
                                      [Set_err ""; Set_input ""; Set_isSending false;
                                       Set_sessionId None; Set_activeId (Some t);
                                       Set_sessionId (Some t)] "")).1) = Some t) as Hk.
  { unfold getSessionId, getItem. rewrite K by apply not_eq_sym, SESSIONS_KEY_not_session.
    by apply setSessionId_stored. }
  repeat split; try congruence.
  - rewrite Es in Kf. by eapply key_follows_stored.
  - intros Hne.
    assert (changed dep_activeId (Some (deps_of (s_ui s))) (deps_of st2) = true)
      as Hc.
    { unfold changed. cbn [dep_activeId deps_of]. rewrite Ea.
      by rewrite bool_decide_eq_false_2. }
    rewrite <- (settle_loads 2 _ _ _ _ _ Hf Hc S).
    rewrite (loadMessages_only_sessions _ _ _ K).
    by rewrite Ea, loadMessages_setSessionId, loadMessages_clearSessionId.
Qed.

Lemma changed_true {A} `{EqDecision A} (f : deps -> A) (d now : deps) :
  f d <> f now -> changed f (Some d) now = true.
Proof. intros Hne. unfold changed. by rewrite bool_decide_eq_false_2. Qed.

Lemma changed_false {A} `{EqDecision A} (f : deps -> A) (d now : deps) :
  f d = f now -> changed f (Some d) now = false.
Proof. intros E. unfold changed. by rewrite bool_decide_eq_true_2. Qed.

(** X13.  The saving effect runs in the commit that changes the active id,
    with the messages of the render it belongs to, which are still those of
    the chat shown before.  So selecting a chat that has no stored messages
    while messages are shown stores the shown messages under the selected
    id; the state then shows no messages. *)
Theorem selecting_an_empty_chat_stores_the_shown_messages (s s' : sys)
    (id : string) :
  id <> "" ->
  activeId (s_ui s) <> Some id ->
  loadMessages (Some id) (s_ls s) = Ok (JArr []) ->
  length_is_zero (messages (s_ui s)) = Ok false ->
  step s (Select_session id) = Some s' ->
  s_ls s' !! MSG_KEY id = Some (JSON_stringify (messages (s_ui s)))
  /\ messages (s_ui s') = JArr [].
Proof.
  intros Hne Ha Hload Hlen. apply truthy_Some in Hne.
  unfold step, handle, commit, selectSession, setSessionIdState. rewrite Hne.
  cbn [h_bind enqueue h_store h_ret fst snd h_ls h_queue h_currentId app
       flush apply_update js_bind].
  run_pass.
  rewrite (changed_true dep_activeId) by (simpl; congruence).
  cbn [sessionId sessions activeId messages messages_ref input isSending err].
  rewrite orb_true_r, Hne, bool_decide_eq_true_2 by done.
  cbn [negb andb orb].
  destruct (changed dep_sessionId _ _);
    cbn [h_ls h_queue h_currentId fst snd app];
    rewrite !loadMessages_setSessionId, Hload, Hlen;
    cbn [h_ls h_queue h_currentId fst snd app flush apply_update js_bind];
    run_pass;
    rewrite (changed_false dep_sessionId), (changed_false dep_activeId),
      (changed_true dep_messages) by (simpl; first [done|lia]);
    cbn [orb sessionId sessions activeId messages messages_ref input isSending
         err store_messages];
    rewrite Hne; cbn [negb length_is_zero h_ls h_queue fst snd];
    intros E; simplify_eq; cbn [s_ui s_ls messages];
    (split; [|done]);
    unfold saveMessages; rewrite Hne; unfold setItem; apply lookup_insert_eq.
Qed.

(** ** Requests that fail, and sessions that cannot be listed *)

(** X14.  When [fetch] rejects, or the body of an OK response cannot be read
    as JSON, the step that receives it shows the error's text in the banner
    and clears [isSending]; the messages, the sessions, the ids and the
    storage are unchanged, and the request is no longer in flight. *)
Theorem failed_request_is_reported (s : sys) (i : nat) (p : pending)
    (fetched : js response) (ex : exn) (e : entropy) :
  s_inflight s !! i = Some p ->
  (fetched = Throw ex
   \/ exists res, fetched = Ok res /\ res_ok res = true /\ res_json res = Throw ex) ->
  let st := s_ui s in
  step s (Settle i fetched e) =
  Some (Sys (UI (sessionId st) (sessions st) (activeId st) (messages st)
               (messages_ref st) (input st) false (err_text ex))
          (s_ls s) (delete i (s_inflight s))).
Proof.
  intros Hp Hf st.
  assert (forall h, sendChatMessage_settle fetched h = (h, Throw ex)) as Hthrow.
  { intros h. unfold sendChatMessage_settle, h_bind, h_lift.
    destruct Hf as [->|(res & -> & Hok & Hjson)]; [done|].
    by rewrite Hok, Hjson. }
  unfold step. rewrite Hp.
  unfold onSend_settle, sendMessage_settle.
  unfold h_finally, h_catch, h_bind at 1 2 3. cbn [assign_currentId fst snd].
  rewrite Hthrow. cbn.
  unfold handle, commit.
  cbn [flush h_queue h_ls h_currentId apply_update js_bind fst snd].
  by rewrite settle_quiet.
Qed.

Lemma onSend_start_wrong_shape (st : ui) (e : entropy) (ls : storage) (v : json) :
  loadSessions ls = Ok v ->
  (is_array v = false \/ exists items, v = JArr items /\ JNull ∈ items) ->
  String.eqb (trim (input st)) "" || isSending st = false ->
  (onSend_start st e (Hst ls [] "")).2 = Throw TypeError.
Proof.
  intros Hload Hv G. unfold onSend_start. rewrite G.
  unfold setSessionIdState. rewrite makeLocalId_truthy.
  unfold h_bind, enqueue, h_store, assign_currentId, read_currentId.
  destruct (truthy (activeId st)); cbn [fst snd h_ls h_queue h_currentId app];
    erewrite upsertSession_wrong_shape; try done.
  cbn [h_ls]. by rewrite loadSessions_setSessionId.
Qed.

(** X15.  [onSend] calls [upsertSession] before its [try].  When the stored
    sessions are valid JSON that is not an array, or an array that holds
    [null], a send with an input whose trimmed form is not empty sets
    [isSending] and then throws:
    no request is issued, [isSending] stays set, the composer is disabled,
    and a further send does nothing. *)
Theorem wrong_shaped_sessions_block_the_composer (s s' : sys) (e : entropy)
    (v : json) :
  loadSessions (s_ls s) = Ok v ->
  (is_array v = false \/ exists items, v = JArr items /\ JNull ∈ items) ->
  trim (input (s_ui s)) <> "" ->
  isSending (s_ui s) = false ->
  step s (Press_send e) = Some s' ->
  s_inflight s' = s_inflight s
  /\ isSending (s_ui s') = true
  /\ input_disabled (s_ui s') = true
  /\ send_disabled (s_ui s') = true
  /\ (forall e', step s' (Press_send e') = Some s').
Proof.
  intros Hload Hv Hin Hs.
  assert (String.eqb (trim (input (s_ui s))) "" || isSending (s_ui s) = false) as G.
  { rewrite Hs, orb_false_r. by apply String.eqb_neq. }
  pose proof (onSend_start_wrong_shape (s_ui s) e (s_ls s) v Hload Hv G) as Hthrow.
  pose proof (onSend_start_cases (s_ui s) e (s_ls s)) as C. simpl in C.
  unfold step.
  destruct (onSend_start (s_ui s) e (Hst (s_ls s) [] "")) as [h r].
  simpl in Hthrow. subst r. destruct C as [C|[_ C]]; [done|]. simpl in C.
  intros E. apply handle_frame in E as (Ei & _ & Es). rewrite C in Es.
  split; [done|]. split; [done|]. split; [exact Es|].
  split; [unfold send_disabled; by rewrite Es, orb_true_r|].
  intros e'. unfold onSend_start. rewrite Es, orb_true_r.
  unfold handle. cbn [h_ret]. rewrite commit_quiet. by destruct s'.
Qed.

(** ** A reply in an established chat *)

(** X16.  A reply for the active chat, whose id is the server's, which
    brings that id or none: the step appends one assistant message to the
    messages shown, stores the new list under the chat's id, and clears
    [isSending]; the ids, the sessions, the composer and the error banner are
    as they were, and no other key of the storage is written.  The text of
    the message is the answer, or a placeholder when the answer is absent or
    empty, and its sources are the reply's, or none. *)
Theorem reply_is_appended (s : sys) (i : nat) (p : pending) (res : response)
    (data : chat_data) (e : entropy) (c : string) (items : list json) :
  s_inflight s !! i = Some p ->
  res_ok res = true ->
  res_json res = Ok data ->
  p_currentId p = c ->
  c <> "" ->
  is_provisional c = false ->
  sessionId (s_ui s) = Some c ->
  activeId (s_ui s) = Some c ->
  getSessionId (s_ls s) = Some c ->
  (d_session_id data = Some c \/ truthy (d_session_id data) = false) ->
  messages (s_ui s) = JArr items ->
  let shown := JArr (items ++ [reply_message (uuid_a e) data]) in
  exists s',
    step s (Settle i (Ok res) e) = Some s'
    /\ messages (s_ui s') = shown
    /\ s_ls s' !! MSG_KEY c = Some (JSON_stringify shown)
    /\ (forall k, k <> MSG_KEY c -> s_ls s' !! k = s_ls s !! k)
    /\ isSending (s_ui s') = false
    /\ err (s_ui s') = err (s_ui s)
    /\ input (s_ui s') = input (s_ui s)
    /\ sessions (s_ui s') = sessions (s_ui s)
    /\ sessionId (s_ui s') = Some c
    /\ activeId (s_ui s') = Some c
    /\ s_inflight s' = delete i (s_inflight s).
Proof.
  intros Hp Hok Hjson Hc Hne Hprov Hsid Haid Hkey Hd Hm shown.
  apply truthy_Some in Hne.
  unfold step. rewrite Hp.
  unfold onSend_settle, sendMessage_settle, sendChatMessage_settle,
    setSessionIdState, or_else.
  rewrite Hc, Hprov. cbn [andb].
  unfold h_finally, h_catch, h_bind, h_lift, h_store, h_ret, enqueue,
    assign_currentId.
  rewrite Hok, Hjson. cbn [negb fst snd h_ls h_queue h_currentId app].
  assert (forall ls1 : storage,
            ls1 !! MSG_KEY c = Some (JSON_stringify shown) ->
            (forall k, k <> MSG_KEY c -> ls1 !! k = s_ls s !! k) ->
            let ls2 := saveMessages (Some c) shown ls1 in
            ls2 !! MSG_KEY c = Some (JSON_stringify shown)
            /\ (forall k, k <> MSG_KEY c -> ls2 !! k = s_ls s !! k)) as Hsave.
  { intros ls1 H1 H2. unfold saveMessages, setItem. rewrite Hne. split.
    - apply lookup_insert_eq.
    - intros k Hk. rewrite lookup_insert_ne by done. by apply H2. }
  assert (forall ls1 : storage,
            (forall k, k <> MSG_KEY c -> ls1 !! k = s_ls s !! k) ->
            let ls2 := saveMessages (Some c) shown ls1 in
            ls2 !! MSG_KEY c = Some (JSON_stringify shown)
            /\ (forall k, k <> MSG_KEY c -> ls2 !! k = s_ls s !! k)) as Hfirst.
  { intros ls1 H2. unfold saveMessages, setItem. rewrite Hne. split.
    - apply lookup_insert_eq.
    - intros k Hk. rewrite lookup_insert_ne by done. by apply H2. }
  assert (forall ls1 : storage,
            (forall k, ls1 !! k = s_ls s !! k) ->
            forall k, setSessionId (Some c) ls1 !! k = s_ls s !! k) as Hset.
  { intros ls1 H1 k. unfold setSessionId, setItem. rewrite Hne.
    destruct (decide (k = SESSION_STORAGE_KEY)) as [->|Hk].
    - by rewrite lookup_insert_eq.
    - rewrite lookup_insert_ne by done. apply H1. }
  assert (length_is_zero shown = Ok false) as Hlen.
  { subst shown. by destruct items. }
  unfold handle, commit.
  destruct Hd as [Hd|Hd];
    repeat first
      [ rewrite Hd | rewrite Hne | rewrite Hm
      | progress cbn [fst snd h_ls h_queue h_currentId app flush apply_update
                      run_updater spread js_bind d_session_id store_messages
                      sessionId sessions activeId messages messages_ref input
                      isSending err]
      | match goal with
        | |- context [if truthy (p_sendSessionId p) then ?a else ?b] =>
            destruct (if truthy (p_sendSessionId p) then a else b)
        end ];
    fold (reply_message (uuid_a e) data); fold shown;
    run_pass;
    rewrite (changed_false dep_sessionId), (changed_false dep_activeId),
      (changed_true dep_messages) by (simpl; first [done|congruence|lia]);
    cbn [orb sessionId sessions activeId messages messages_ref input isSending
         err store_messages];
    rewrite Haid, Hne, Hlen; cbn [negb h_ls h_queue fst snd];
    eexists; (split; [reflexivity|]); cbn [s_ui s_ls s_inflight];
    cbn [sessionId sessions activeId messages messages_ref input isSending err].
  - edestruct (Hsave (saveMessages (Some c) shown
                        (setSessionId (Some c) (setSessionId (Some c) (s_ls s)))))
      as [R1 R2].
    + apply Hfirst. intros k _. by apply Hset, Hset.
    + apply Hfirst. intros k _. by apply Hset, Hset.
    + by repeat split.
  - edestruct (Hsave (saveMessages (Some c) shown (s_ls s))) as [R1 R2];
      [by apply Hfirst..|by repeat split].
  - edestruct (Hsave (saveMessages (Some c) shown (s_ls s))) as [R1 R2];
      [by apply Hfirst..|by repeat split].
Qed.

(** ** The hook's [sendMessage] *)

(** X17.  On an OK response whose body carries a non-empty [session_id],
    [sendMessage] returns the body, stores the id, queues it as the hook's
    session id, and writes no other key; a later request sent without an
    override then carries that id.  On an OK response without one it returns
    the body and neither writes nor queues anything. *)
Theorem sendMessage_adopts_the_server_id (res : response) (data : chat_data)
    (h : hst) :
  res_ok res = true ->
  res_json res = Ok data ->
  (forall sid,
     d_session_id data = Some sid -> sid <> "" ->
     let r := sendMessage_settle (Ok res) h in
     r.2 = Ok data
     /\ getSessionId (h_ls r.1) = Some sid
     /\ h_queue r.1 = (h_queue h ++ [Set_sessionId (Some sid)])%list
     /\ (forall k, k <> SESSION_STORAGE_KEY -> h_ls r.1 !! k = h_ls h !! k)
     /\ (forall message,
           req_body (sendChatMessage_request message None (h_ls r.1))
           = JSON_stringify
               (JObj [("session_id", JStr sid); ("message", JStr message)])))
  /\ (truthy (d_session_id data) = false ->
      sendMessage_settle (Ok res) h = (h, Ok data)).
Proof.
  intros Hok Hjson.
  unfold sendMessage_settle, sendChatMessage_settle, setSessionIdState,
    h_bind, h_lift, h_store, h_ret, enqueue.
  rewrite Hok, Hjson. cbn [negb]. split.
  - intros sid Hd Hne. apply truthy_Some in Hne.
    repeat first [ rewrite Hd | rewrite Hne
                 | progress cbn [fst snd h_ls h_queue h_currentId] ].
    assert (getSessionId (setSessionId (Some sid) (setSessionId (Some sid) (h_ls h)))
            = Some sid) as Hk by by apply setSessionId_stored.
    split; [done|]. split; [exact Hk|]. split; [done|]. split.
    + intros k Hk'. unfold setSessionId, setItem. rewrite Hne. by maps.
    + intros message. by apply sendChatMessage_request_stored.
  - intros Hf. repeat first [ rewrite Hf | progress cbn [fst snd] ]. done.
Qed.

(** ** The first reply of a chat *)

Lemma loadMessages_stored (id : string) (v : json) (ls : storage) :
  truthy (Some id) = true ->
  v <> JNull ->
  JSON_parse (JSON_stringify v) = Ok v ->
  ls !! MSG_KEY id = Some (JSON_stringify v) ->
  loadMessages (Some id) ls = Ok v.
Proof.
  intros T Hv Hrt E. unfold loadMessages, safeParse, getItem.
  rewrite T, E. simpl. rewrite Hrt. simpl. by destruct v.
Qed.


(** ** A reply that arrives after another chat was selected *)

(** X22.  The sidebar stays usable while a request is in flight.  When the
    reply of chat [a] arrives while chat [b] is the active one, the updater
    appends it to the messages shown, which are those of [b], and saves the
    result under [a]; the saving effect saves it under [b]; and the session
    id of the reply makes [a] the active chat again.  So both chats end up
    stored with the messages of [b] followed by the reply, and the messages
    that were stored for [a] are overwritten. *)
Theorem reply_after_switching_chats (s : sys) (i : nat) (p : pending)
    (res : response) (data : chat_data) (e : entropy) (a b : string)
    (items : list json) :
  s_inflight s !! i = Some p ->
  p_currentId p = a ->
  is_provisional a = false ->
  a <> "" -> b <> "" -> a <> b ->
  sessionId (s_ui s) = Some b ->
  activeId (s_ui s) = Some b ->
  res_ok res = true ->
  res_json res = Ok data ->
  d_session_id data = Some a ->
  messages (s_ui s) = JArr items ->
  let shown := JArr (items ++ [reply_message (uuid_a e) data]) in
  JSON_parse (JSON_stringify shown) = Ok shown ->
  exists s',
    step s (Settle i (Ok res) e) = Some s'
    /\ activeId (s_ui s') = Some a
    /\ sessionId (s_ui s') = Some a
    /\ getSessionId (s_ls s') = Some a
    /\ messages (s_ui s') = shown
    /\ s_ls s' !! MSG_KEY a = Some (JSON_stringify shown)
    /\ s_ls s' !! MSG_KEY b = Some (JSON_stringify shown)
    /\ isSending (s_ui s') = false
    /\ s_inflight s' = delete i (s_inflight s).
Proof.
  intros Hp Hc Hprov Hna Hnb Hab Hsid Haid Hok Hjson Hd Hm shown Hrt.
  apply truthy_Some in Hna, Hnb.
  assert (length_is_zero shown = Ok false) as Hlen.
  { subst shown. by destruct items. }
  assert (shown <> JNull) as Hshown by done.
  assert (MSG_KEY a <> MSG_KEY b) as Hk.
  { intros E. apply MSG_KEY_inj in E. congruence. }
  unfold step. rewrite Hp.
  unfold onSend_settle, sendMessage_settle, sendChatMessage_settle,
    setSessionIdState, or_else.
  rewrite Hc, Hprov. cbn [andb].
  unfold h_finally, h_catch, h_bind, h_lift, h_store, h_ret, h_load, enqueue,
    assign_currentId.
  rewrite Hok, Hjson. cbn [negb fst snd h_ls h_queue h_currentId app].
  unfold handle, commit.
  repeat first
    [ rewrite Hd | rewrite Hna | rewrite Hm
    | progress cbn [fst snd h_ls h_queue h_currentId app flush apply_update
                    run_updater spread js_bind d_session_id store_messages
                    negb andb
                    sessionId sessions activeId messages messages_ref input
                    isSending err] ].
  fold (reply_message (uuid_a e) data). fold shown.
  run_pass.
  rewrite (changed_true dep_sessionId), (changed_false dep_activeId),
    (changed_true dep_messages) by (simpl; first [congruence|lia]).
  cbn [orb sessionId sessions activeId messages messages_ref input isSending err].
  rewrite Haid, Hna, Hnb, Hlen, bool_decide_eq_false_2 by congruence.
  cbn [negb andb h_ls h_queue h_currentId fst snd app flush apply_update js_bind].
  run_pass.
  rewrite (changed_false dep_sessionId), (changed_true dep_activeId)
    by (simpl; congruence).
  cbn [orb sessionId sessions activeId messages messages_ref input isSending err].
  rewrite Hna, Hlen, bool_decide_eq_true_2 by done.
  cbn [negb andb h_ls h_queue fst snd].
  rewrite (loadMessages_stored a shown); [|done|done|done|].
  2: { unfold setSessionId, saveMessages, setItem. rewrite Hna, Hnb. by maps. }
  cbn [h_ls h_queue h_currentId fst snd app flush apply_update js_bind
       store_messages sessionId sessions activeId messages messages_ref input
       isSending err].
  run_pass.
  rewrite (changed_false dep_sessionId), (changed_false dep_activeId),
    (changed_true dep_messages) by (simpl; first [done|lia]).
  cbn [orb sessionId sessions activeId messages messages_ref input isSending err
       store_messages].
  rewrite Hna, Hlen. cbn [negb h_ls h_queue fst snd].
  eexists. split; [reflexivity|]. cbn [s_ui s_ls s_inflight].
  cbn [sessionId sessions activeId messages messages_ref input isSending err].
  unfold getSessionId, getItem, setSessionId, saveMessages, setItem.
  rewrite Hna, Hnb. repeat split; by maps.
Qed.

(** ** Deleting the active chat, and the first render *)

Lemma settle_idle (fuel : nat) (prev : option deps) (st st' : ui)
    (ls ls' : storage) :
  truthy (sessionId st) = false ->
  truthy (activeId st) = false ->
  settle fuel prev st ls = Some (Ok (st', ls')) ->
  ls' = ls.
Proof.
  revert prev st ls. induction fuel as [|fuel IH]; intros prev st ls Ts Ta; [done|].
  rewrite settle_S.
  assert (respects eq messages_update (effects_pass prev st)) as Hr.
  { unfold effects_pass, effect_persist, effect_follow, effect_load, effect_save.
    rewrite Ts, Ta. cbn [negb andb]. frame; exact I. }
  specialize (Hr (Hst ls [] "")).
  destruct (effects_pass prev st (Hst ls [] "")) as [h [[]|e]]; [|done].
  destruct Hr as [HR (q & Hq & HP)]. simpl in HR, Hq. rewrite Hq, <- HR.
  destruct q as [|u q]; [intros E; by simplify_eq|].
  destruct (flush "" (u :: q) st ls) as [[st1 ls1]|] eqn:Fl; [|done].
  apply flush_messages_only in Fl as (-> & Es & Ea & _); [|done].
  apply IH; congruence.
Qed.

(** X18.  Deleting the active chat, on stored sessions that are an array
    without [null], leaves the client without an active chat: the active id,
    the session id and the stored session id are absent, no messages are
    shown or stored for the chat, and the sessions are those of the other
    ids.  The composer, [isSending], the error banner and the requests in
    flight are left alone. *)
Theorem deleting_the_active_chat (s s' : sys) (id : string) (items : list json) :
  loadSessions (s_ls s) = Ok (JArr items) ->
  JNull ∉ items ->
  activeId (s_ui s) = Some id ->
  step s (Delete_chat id) = Some s' ->
  let kept := JArr (filter (fun x => has_id id x = false) items) in
  activeId (s_ui s') = None
  /\ sessionId (s_ui s') = None
  /\ getSessionId (s_ls s') = None
  /\ messages (s_ui s') = JArr []
  /\ s_ls s' !! MSG_KEY id = None
  /\ sessions (s_ui s') = kept
  /\ s_ls s' !! SESSIONS_KEY = Some (JSON_stringify kept)
  /\ input (s_ui s') = input (s_ui s)
  /\ isSending (s_ui s') = isSending (s_ui s)
  /\ err (s_ui s') = err (s_ui s)
  /\ s_inflight s' = s_inflight s.
Proof.
  intros Hload Hn Ha. unfold step, handle, commit, deleteChat, clearSessionIdState.
  unfold h_bind, h_load, h_lift, h_store, enqueue, h_ret.
  cbn [h_ls h_queue h_currentId fst snd app].
  rewrite Hload. cbn [without_id]. rewrite filter_items_filter by done.
  rewrite Ha, bool_decide_eq_true_2 by done.
  cbn [h_ls h_queue h_currentId fst snd app flush apply_update js_bind
       store_messages sessionId sessions activeId messages messages_ref input
       isSending err].
  match goal with |- context [settle 4 ?prev ?st1 ?ls1] =>
    destruct (settle 4 prev st1 ls1) as [[[st2 ls2]|]|] eqn:S; [|done|done];
    pose proof (settle_following_frame 4 prev st1 st2 ls1 ls2
                  (fun T => ltac:(done)) S)
      as (E1 & E2 & E3 & E4 & E5 & E6 & _);
    pose proof (settle_idle 4 prev st1 st2 ls1 ls2 eq_refl eq_refl S) as ->;
    assert (changed dep_activeId prev (deps_of st1) = true) as Hc
      by (apply changed_true; simpl; by rewrite Ha);
    pose proof (settle_loads 2 prev st1 st2 ls1 ls1 (fun T => ltac:(done)) Hc S)
      as L
  end.
  intros E. simplify_eq. cbn [s_ui s_ls s_inflight].
  cbn [sessionId sessions activeId messages messages_ref input isSending err
       store_messages loadMessages] in *.
  simplify_eq.
  unfold getSessionId, getItem, clearSessionId, removeItem, saveSessions, setItem.
  repeat split; try done; by maps.
Qed.

(** X19.  The first render starts from the stored session id, when it is a
    non-empty string, as session id and active id, with the stored sessions
    and the stored messages of that id; the composer is empty, nothing is
    being sent, and the stored session id is as it was. *)
Theorem first_render (ls : storage) (s : sys) :
  mount ls = Some s ->
  let sid := if truthy (getSessionId ls) then getSessionId ls else None in
  sessionId (s_ui s) = sid
  /\ activeId (s_ui s) = sid
  /\ loadSessions ls = Ok (sessions (s_ui s))
  /\ loadMessages sid ls = Ok (messages (s_ui s))
  /\ getSessionId (s_ls s) = getSessionId ls
  /\ input (s_ui s) = ""
  /\ isSending (s_ui s) = false
  /\ err (s_ui s) = ""
  /\ s_inflight s = [].
Proof.
  unfold mount.
  assert (or_else (or_else (getSessionId ls) None) None
          = or_else (getSessionId ls) None) as ->.
  { unfold or_else. by destruct (truthy (getSessionId ls)) eqn:T; rewrite ?T. }
  unfold or_else.
  set (sid := if truthy (getSessionId ls) then getSessionId ls else None).
  destruct (loadSessions ls) as [ss|]; [|done].
  destruct (loadMessages sid ls) as [ms|] eqn:Hms; [|done].
  match goal with |- context [settle 4 None ?st1 ls] =>
    destruct (settle 4 None st1 ls) as [[[st2 ls2]|]|] eqn:S; [|done|done];
    pose proof (settle_following_frame 4 None st1 st2 ls ls2 (fun _ => eq_refl) S)
      as (E1 & E2 & E3 & E4 & E5 & E6 & K);
    pose proof (settle_loads 2 None st1 st2 ls ls2 (fun _ => eq_refl) eq_refl S)
      as L
  end.
  intros E. simplify_eq. cbn [s_ui s_ls s_inflight].
  cbn [sessionId sessions activeId messages messages_ref input isSending err] in *.
  repeat split; try congruence.
  unfold getSessionId, getItem in *. destruct K as [K|[T K]]; [done|].
  rewrite K. subst sid. by destruct (truthy (ls !! SESSION_STORAGE_KEY)).
Qed.

(** ** Sending a message *)






(** ** The render loop *)

(** X21.  The render loop ends.  From every state and storage, and whatever
    the previous commit was, the effects stop queuing updates within four
    commits, or throw: rendering has an outcome. *)
Theorem render_loop_ends (prev : option deps) (st : ui) (ls : storage) :
  exists outcome, settle 4 prev st ls = Some outcome.
Proof.
  destruct (settle 4 prev st ls) as [outcome|] eqn:E; [by exists outcome|].
  by apply settle_fuel in E.
Qed.

(** * Properties of the retrieval engine *)

Lemma rank_elem_of {A : Type} (key : A -> Z * nat) (l : list A) (x : A) :
  x ∈ rank key l <-> x ∈ l.
Proof. unfold rank. by rewrite merge_sort_Permutation. Qed.

Lemma elem_of_take {A : Type} (n : nat) (l : list A) (x : A) :
  x ∈ take n l -> x ∈ l.
Proof.
  intros Hx. rewrite <- (take_drop n l). apply elem_of_app. by left.
Qed.

(** C8.  For a non-empty candidate scope, every result of [fine_search] is a
    chunk of the corpus whose section id or document id is in the scope. *)
Theorem fine_search_within_scope (query : string) (scope : gset string)
    (n : nat) (r : RetrievalResult) :
  scope <> ∅ ->
  r ∈ fine_search query scope n ->
  kind r = kind_chunk
  /\ exists c, c ∈ corpus_chunks /\ chunk_id c = entity_id r
             /\ distance r = chunk_distance query c
             /\ (chunk_section_id c ∈ scope \/ chunk_document_id c ∈ scope).
Proof.
  intros Hne. unfold fine_search. destruct (decide (scope = ∅)); [done|].
  intros Hr. apply list_elem_of_fmap in Hr as (c & -> & Hc).
  apply elem_of_take, rank_elem_of, list_elem_of_filter in Hc as [Hin Hc].
  split; [done|]. by exists c.
Qed.

Lemma rewrite_log (history : list Turn) (message : string) :
  Forall (fun c => call_purpose c <> Synthesis) (rewrite history message []).1.
Proof.
  unfold rewrite. destruct history; [by constructor|].
  destruct (lm_complete _ _); simpl; by repeat constructor.
Qed.

(** C7.  When the Coarse Retriever finds no candidate for the standalone
    query of a non-empty message, the reply of the pipeline is the fixed
    abstention text with no sources, and the log of language-model calls holds
    no synthesis call. *)
Theorem empty_candidates_abstain (store : gmap string (list Turn))
    (session_id : option string) (message : string) :
  message <> "" ->
  coarse_search (standalone_query store session_id message) coarse_k = [] ->
  exists store' log id,
    engine_handle store session_id message
    = (store', log, Replied (Reply ABSTENTION_TEXT [] id))
    /\ Forall (fun c => call_purpose c <> Synthesis) log.
Proof.
  intros Hne Hcoarse. unfold engine_handle, standalone_query in *.
  apply String.eqb_neq in Hne. rewrite Hne.
  destruct (open_session store session_id) as [id turns]. simpl in Hcoarse.
  pose proof (rewrite_log (recent turns) message) as Hlog.
  destruct (rewrite (recent turns) message []) as [log1 query].
  simpl in Hcoarse, Hlog. rewrite Hcoarse. simpl.
  unfold fine_search. rewrite decide_True by done. simpl.
  eauto.
Qed.

End PolicyChat.

(** * The model on concrete inputs

    The two JSON builtins are instantiated with the reference codec. *)

(** C1.  A request issued under a provisional id carries that id as
    [session_id].  From an empty storage, the first message is posted with
    the id that [onSend] has just made, and a message in a new chat with the
    id that [startNewChat] made: [onSend] passes [null] for it, and
    [sendChatMessage] then reads the stored session id, which is the
    provisional one. *)
Theorem provisional_id_is_posted :
  (fun s => (activeId (s_ui s),
             (fun p => (p_sendSessionId p, req_body (p_request p))) <$> s_inflight s))
    <$> boot None json_read json_print ""
        text_trim text_collapse_ws text_length text_slice
        ∅ first_message
  = Some (Some "local-u1",
          [(None, json_print (JObj [("session_id", JStr "local-u1");
                                    ("message", JStr "hi")]))])
  /\ (fun s => (activeId (s_ui s),
                (fun p => (p_sendSessionId p, req_body (p_request p))) <$> s_inflight s))
       <$> boot None json_read json_print ""
           text_trim text_collapse_ws text_length text_slice
           ∅ message_in_new_chat
     = Some (Some "local-u3",
             [(None, json_print (JObj [("session_id", JStr "local-u3");
                                       ("message", JStr "hi")]))]).
Proof. split; vm_compute; reflexivity. Qed.

(** C2.  After the first exchange the server's id is adopted: it is the stored
    session id and the active id, the session entry carries it, the messages
    are saved under it, and the next request carries it.  The messages saved
    under the provisional id are still there: the updater that removes them
    runs at the render, when [currentId] is already the server's id. *)
Theorem provisional_messages_are_left_behind :
  (fun s => (getSessionId (s_ls s), activeId (s_ui s),
             s_ls s !! SESSIONS_KEY,
             s_ls s !! MSG_KEY "S1",
             s_ls s !! MSG_KEY "local-u1"))
    <$> boot None json_read json_print ""
        text_trim text_collapse_ws text_length text_slice
        ∅ first_exchange
  = Some (Some "S1", Some "S1",
          Some (json_print (JArr [session_entry "S1" "hi" "t2"])),
          Some (json_print
                  (JArr [user_message "m1" "hi";
                         assistant_message "m2" "Quiet hours start at 10pm."])),
          Some (json_print (JArr [user_message "m1" "hi"])))
  /\ (fun s => (fun p => req_body (p_request p)) <$> s_inflight s)
       <$> boot None json_read json_print ""
           text_trim text_collapse_ws text_length text_slice
           ∅ second_message
     = Some [json_print (JObj [("session_id", JStr "S1");
                               ("message", JStr "and on weekends?")])].
Proof. split; vm_compute; reflexivity. Qed.

(** C6, as stated, fails.  A message is sent in session ["A"]; while it is
    pending a new chat is started, which clears [isSending], and session
    ["A"] is selected again; a second message is then sent, and two requests
    for session ["A"] are in flight. *)
Lemma two_requests_on_one_session :
  exists s p q,
    boot None json_read json_print ""
        text_trim text_collapse_ws text_length text_slice
        storage_of_session_A
      two_sends_around_new_chat = Some s
    /\ s_inflight s = [p; q]
    /\ req_body (p_request p)
       = json_print (JObj [("session_id", JStr "A"); ("message", JStr "q1")])
    /\ req_body (p_request q)
       = json_print (JObj [("session_id", JStr "A"); ("message", JStr "q2")])
    /\ ~ exclusive s.
Proof.
  eexists _, _, _. split; [vm_compute; reflexivity|].
  split; [vm_compute; reflexivity|].
  split; [vm_compute; reflexivity|].
  split; [vm_compute; reflexivity|].
  intros Hex. eapply (Hex 0 1); [done|vm_compute; reflexivity..].
Qed.

(** * The string builtins of the runs

    The two laws of [length] and [slice] that the bound on titles rests on
    hold of the instance on UTF-8 text. *)





(** * Instances of the theorems *)

(** A composer holding a space, a no-break space and a tab. *)
Lemma onSend_blank_is_noop_witness :
  text_trim (input (s_ui blank_composer)) = ""
  /\ step None json_read json_print ""
      text_trim text_collapse_ws text_length text_slice
      blank_composer (Press_send entropy_1)
     = Some blank_composer.
Proof.
  split; [reflexivity|].
  exact (proj2 (onSend_blank_is_noop None json_read json_print ""
      text_trim text_collapse_ws text_length text_slice
                  blank_composer entropy_1 eq_refl)).
Defined.

(** With session ["A"] stored, and with nothing stored. *)
Lemma sendChatMessage_body_witness :
  req_body (sendChatMessage_request None json_print "hi" None
              storage_of_session_A)
  = json_print (JObj [("session_id", JStr "A"); ("message", JStr "hi")])
  /\ req_body (sendChatMessage_request None json_print "hi" None ∅)
     = json_print (JObj [("message", JStr "hi")]).
Proof.
  split.
  - apply (proj1 (sendChatMessage_body None json_print "hi" None
                    storage_of_session_A) "A"); [reflexivity|discriminate].
  - apply (proj1 (proj2 (sendChatMessage_body None json_print "hi" None ∅))).
    left. reflexivity.
Defined.

(** A status 500 arrives for the request pending in session ["A"]. *)
Lemma non_ok_response_is_reported_witness :
  res_ok response_500 = false
  /\ s_inflight awaiting_reply !! 0 = Some pending_A
  /\ step None json_read json_print ""
      text_trim text_collapse_ws text_length text_slice
      awaiting_reply
       (Settle 0 (Ok response_500) entropy_2)
     = Some (Sys (UI (Some "A") (JArr [session_entry "A" "hi" "t0"]) (Some "A")
                    (JArr [user_message "m1" "hi"]) 1 "" false
                    "Backend error (500): upstream unavailable")
               (s_ls awaiting_reply) []).
Proof.
  split; [reflexivity|]. split; [reflexivity|].
  exact (proj2 (non_ok_response_is_reported None json_read json_print ""
      text_trim text_collapse_ws text_length text_slice
                  awaiting_reply 0 pending_A response_500 entropy_2
                  eq_refl eq_refl)).
Defined.

(** A new chat is started before the first message is sent in it. *)
Lemma sending_blocks_onSend_witness :
  mount json_read json_print "" ∅ = Some fresh_client
  /\ new_chats_when_idle None json_read json_print ""
       text_trim text_collapse_ws text_length text_slice
       fresh_client message_in_new_chat = true
  /\ exists s',
       run None json_read json_print ""
         text_trim text_collapse_ws text_length text_slice
         fresh_client message_in_new_chat = Some s'
       /\ one_in_flight s' /\ exclusive s'.
Proof.
  pose proof (proj2 (proj2 (sending_blocks_onSend None json_read json_print ""
                              text_trim text_collapse_ws text_length text_slice))
                message_in_new_chat ∅ fresh_client) as T.
  assert (mount json_read json_print "" ∅ = Some fresh_client) as Hm
    by (vm_compute; reflexivity).
  assert (new_chats_when_idle None json_read json_print ""
            text_trim text_collapse_ws text_length text_slice
            fresh_client message_in_new_chat = true) as Hi
    by (vm_compute; reflexivity).
  split; [exact Hm|]. split; [exact Hi|].
  eexists. split; [vm_compute; reflexivity|].
  match goal with |- one_in_flight ?s' /\ _ => apply (T s' Hm Hi) end.
  vm_compute. reflexivity.
Defined.

(** A malformed text, an absent key and a stored [null], read by the
    reference codec. *)
Lemma storage_reads_are_total_witness :
  safeParse json_read (Some "{not json") (JArr []) = Ok (JArr [])
  /\ loadSessions json_read ∅ = Ok (JArr [])
  /\ loadMessages json_read (Some "A") (<[MSG_KEY "A" := "null"]> ∅) = Ok (JArr []).
Proof.
  pose proof (storage_reads_are_total json_read)
    as (_ & _ & _ & Hbad & _ & _ & Hmsg & Habsent & _).
  split; [|split].
  - apply (Hbad (Some "{not json") (JArr []) (Exn "SyntaxError" "Unexpected token")).
    vm_compute. reflexivity.
  - apply Habsent; [vm_compute; reflexivity|reflexivity].
  - apply (Hmsg _ "A" "null"); [discriminate|reflexivity|].
    left. vm_compute. reflexivity.
Defined.

(** The first exchange from an empty storage. *)
Lemma session_key_is_never_empty_witness :
  key_ok (s_ls fresh_client)
  /\ exists s',
       run None json_read json_print ""
           text_trim text_collapse_ws text_length text_slice
           fresh_client first_exchange = Some s'
       /\ s_ls s' !! SESSION_STORAGE_KEY = Some "S1"
       /\ key_ok (s_ls s').
Proof.
  pose proof (proj2 (proj2 (proj2 (proj2 (proj2
                (session_key_is_never_empty None json_read json_print ""
                    text_trim text_collapse_ws text_length text_slice
                    )))))
                first_exchange fresh_client) as T.
  assert (key_ok (s_ls fresh_client)) as Hok.
  { intros v Hv. vm_compute in Hv. discriminate. }
  split; [exact Hok|].
  eexists. split; [vm_compute; reflexivity|].
  split; [vm_compute; reflexivity|].
  match goal with |- key_ok (s_ls ?s') => apply (T s' Hok) end.
  vm_compute. reflexivity.
Defined.

(** The sample corpus, searched within section ["s1"]. *)
Lemma fine_search_within_scope_witness :
  let r := Result "c1" 44 kind_chunk in
  {["s1"]} <> (∅ : gset string)
  /\ r ∈ fine_search sample_chunks sample_chunk_distance "alcohol" {["s1"]} 5
  /\ kind r = kind_chunk
  /\ exists c, c ∈ sample_chunks /\ chunk_id c = entity_id r
             /\ distance r = sample_chunk_distance "alcohol" c
             /\ (chunk_section_id c ∈ ({["s1"]} : gset string)
                 \/ chunk_document_id c ∈ ({["s1"]} : gset string)).
Proof.
  intros r.
  assert ({["s1"]} <> (∅ : gset string)) as Hne by (by vm_compute).
  assert (r ∈ fine_search sample_chunks sample_chunk_distance "alcohol" {["s1"]} 5)
    as Hr by (vm_compute; left).
  split; [exact Hne|]. split; [exact Hr|].
  exact (fine_search_within_scope sample_chunks sample_chunk_distance "alcohol"
           {["s1"]} 5 r Hne Hr).
Defined.

(** The sample corpus with a threshold that no section meets. *)
Lemma empty_candidates_abstain_witness :
  let handle :=
    engine_handle sample_sections sample_chunks sample_section_distance
      sample_chunk_distance (fun d => d) (fun _ _ => None) (fun _ q => q)
      (fun q _ => q) (fun _ _ => true) 3 5 1000 6 1 (fun _ => "S1") in
  "What is the alcohol policy?" <> ""
  /\ coarse_search sample_sections sample_section_distance 1
       (standalone_query (fun _ _ => None) (fun _ q => q) 6 (fun _ => "S1")
          ∅ None "What is the alcohol policy?") 3 = []
  /\ exists store' log id,
       handle ∅ None "What is the alcohol policy?"
       = (store', log, Replied (Reply ABSTENTION_TEXT [] id))
       /\ Forall (fun c => call_purpose c <> Synthesis) log.
Proof.
  intros handle.
  assert ("What is the alcohol policy?" <> "") as Hne by discriminate.
  assert (coarse_search sample_sections sample_section_distance 1
            (standalone_query (fun _ _ => None) (fun _ q => q) 6 (fun _ => "S1")
               ∅ None "What is the alcohol policy?") 3 = [])
    as Hc by (vm_compute; reflexivity).
  split; [exact Hne|]. split; [exact Hc|].
  exact (empty_candidates_abstain sample_sections sample_chunks
           sample_section_distance sample_chunk_distance (fun d => d)
           (fun _ _ => None) (fun _ q => q) (fun q _ => q) (fun _ _ => true)
           3 5 1000 6 1 (fun _ => "S1") ∅ None "What is the alcohol policy?"
           Hne Hc).
Defined.

(** The server's id is stored over session ["A"]. *)
Lemma session_id_round_trip_witness :
  "S1" <> ""
  /\ getSessionId (setSessionId (Some "S1") storage_of_session_A) = Some "S1"
  /\ getSessionId (clearSessionId (setSessionId (Some "S1") storage_of_session_A))
     = None.
Proof.
  assert ("S1" <> "") as Hne by discriminate.
  split; [exact Hne|].
  pose proof (session_id_round_trip storage_of_session_A "S1" Hne) as (R1 & R2 & _).
  split; [exact R1|exact R2].
Defined.

(** One message saved for session ["A"], read by the reference codec. *)
Lemma messages_round_trip_witness :
  "A" <> ""
  /\ JArr [user_message "m1" "hi"] <> JNull
  /\ json_read (json_print (JArr [user_message "m1" "hi"]))
     = Ok (JArr [user_message "m1" "hi"])
  /\ loadMessages json_read (Some "A")
       (saveMessages json_print (Some "A") (JArr [user_message "m1" "hi"])
          storage_of_session_A)
     = Ok (JArr [user_message "m1" "hi"]).
Proof.
  assert ("A" <> "") as Hne by discriminate.
  assert (JArr [user_message "m1" "hi"] <> JNull) as Hv by discriminate.
  assert (json_read (json_print (JArr [user_message "m1" "hi"]))
          = Ok (JArr [user_message "m1" "hi"])) as Hrt by (vm_compute; reflexivity).
  split; [exact Hne|]. split; [exact Hv|]. split; [exact Hrt|].
  exact (proj1 (messages_round_trip json_read json_print storage_of_session_A
                  "A" (JArr [user_message "m1" "hi"]) Hne Hv Hrt)).
Defined.

(** One session entry saved over an empty storage. *)
Lemma sessions_round_trip_witness :
  JArr [session_entry "A" "first" "t0"] <> JNull
  /\ json_read (json_print (JArr [session_entry "A" "first" "t0"]))
     = Ok (JArr [session_entry "A" "first" "t0"])
  /\ loadSessions json_read
       (saveSessions json_print (JArr [session_entry "A" "first" "t0"]) ∅)
     = Ok (JArr [session_entry "A" "first" "t0"]).
Proof.
  assert (JArr [session_entry "A" "first" "t0"] <> JNull) as Hv by discriminate.
  assert (json_read (json_print (JArr [session_entry "A" "first" "t0"]))
          = Ok (JArr [session_entry "A" "first" "t0"])) as Hrt
    by (vm_compute; reflexivity).
  split; [exact Hv|]. split; [exact Hrt|].
  exact (proj1 (sessions_round_trip json_read json_print ∅
                  (JArr [session_entry "A" "first" "t0"]) Hv Hrt)).
Defined.

(** Session ["A"] is given a new title. *)
Lemma upsertSession_keeps_one_entry_witness :
  loadSessions json_read storage_of_session_A
  = Ok (JArr [session_entry "A" "first" "t0"])
  /\ (JNull ∉ [session_entry "A" "first" "t0"])
  /\ upsertSession json_read json_print "" "A" "second" "t1"
       (Hst storage_of_session_A [] "")
     = (Hst (saveSessions json_print (JArr [session_entry "A" "second" "t1"])
               storage_of_session_A)
          [Set_sessions (JArr [session_entry "A" "second" "t1"])] "",
        Ok tt).
Proof.
  assert (loadSessions json_read storage_of_session_A
          = Ok (JArr [session_entry "A" "first" "t0"])) as Hload
    by (vm_compute; reflexivity).
  assert (JNull ∉ [session_entry "A" "first" "t0"]) as Hn
    by (by intros ?%list_elem_of_singleton).
  split; [exact Hload|]. split; [exact Hn|].
  exact (proj1 (upsertSession_keeps_one_entry json_read json_print "" "A" "second"
                  "t1" storage_of_session_A [] "" _ Hload Hn)).
Defined.

(** The sessions key holds an object. *)
Lemma sessions_of_wrong_shape_throw_witness :
  loadSessions json_read (<[SESSIONS_KEY := "{}"]> ∅) = Ok (JObj [])
  /\ is_array (JObj []) = false
  /\ upsertSession json_read json_print "" "A" "first" "t0"
       (Hst (<[SESSIONS_KEY := "{}"]> ∅) [] "")
     = (Hst (<[SESSIONS_KEY := "{}"]> ∅) [] "", Throw (TypeError "")).
Proof.
  assert (loadSessions json_read (<[SESSIONS_KEY := "{}"]> ∅) = Ok (JObj []))
    as Hload by (vm_compute; reflexivity).
  split; [exact Hload|]. split; [reflexivity|].
  exact (proj1 (sessions_of_wrong_shape_throw json_read json_print ""
                  (<[SESSIONS_KEY := "{}"]> ∅) (JObj []) [] "" Hload
                  (or_introl eq_refl)) "A" "first" "t0").
Defined.

(** The active session ["A"] is deleted. *)
Lemma deleteChat_result_witness :
  loadSessions json_read (s_ls awaiting_reply)
  = Ok (JArr [session_entry "A" "first" "t0"])
  /\ (JNull ∉ [session_entry "A" "first" "t0"])
  /\ (deleteChat json_read json_print "" (s_ui awaiting_reply) "A"
        (Hst (s_ls awaiting_reply) [] "")).2 = Ok tt
  /\ h_ls (deleteChat json_read json_print "" (s_ui awaiting_reply) "A"
             (Hst (s_ls awaiting_reply) [] "")).1 !! MSG_KEY "A" = None.
Proof.
  assert (loadSessions json_read (s_ls awaiting_reply)
          = Ok (JArr [session_entry "A" "first" "t0"])) as Hload.
  { vm_compute. reflexivity. }
  assert (JNull ∉ [session_entry "A" "first" "t0"]) as Hn
    by (by intros ?%list_elem_of_singleton).
  split; [exact Hload|]. split; [exact Hn|].
  pose proof (deleteChat_result json_read json_print "" (s_ui awaiting_reply) "A"
                (s_ls awaiting_reply) [] "" _ Hload Hn) as (R1 & _ & R3 & _).
  split; [exact R1|exact R3].
Defined.

(** The entry of the first chat takes the server's id. *)
Lemma with_rekeyed_id_result_witness :
  (JNull ∉ [session_entry "local-u1" "hi" "t2"; session_entry "A" "first" "t0"])
  /\ "S1" <> "local-u1"
  /\ exists updated,
       with_rekeyed_id "" "local-u1" "S1"
         (JArr [session_entry "local-u1" "hi" "t2"; session_entry "A" "first" "t0"])
       = Ok updated
       /\ List.length updated = 2.
Proof.
  assert (JNull ∉ [session_entry "local-u1" "hi" "t2";
                   session_entry "A" "first" "t0"]) as Hn.
  { intros Hin. apply list_elem_of_In in Hin. simpl in Hin.
    destruct Hin as [?|[?|[]]]; discriminate. }
  assert ("S1" <> "local-u1") as Hne by discriminate.
  split; [exact Hn|]. split; [exact Hne|].
  destruct (with_rekeyed_id_result "" "local-u1" "S1" _ Hn Hne)
    as (updated & E & L & _).
  exists updated. split; [exact E|exact L].
Defined.

(** The first exchange from an empty storage. *)
Lemma ids_agree_in_every_state_witness :
  exists s,
    boot None json_read json_print ""
        text_trim text_collapse_ws text_length text_slice
        ∅ first_exchange = Some s
    /\ sessionId (s_ui s) = Some "S1"
    /\ agree (s_ui s) (s_ls s).
Proof.
  eassert (boot None json_read json_print ""
      text_trim text_collapse_ws text_length text_slice
      ∅ first_exchange = Some _) as E
    by (vm_compute; reflexivity).
  match type of E with _ = Some ?s =>
    exists s; split; [exact E|]; split; [reflexivity|];
    exact (proj2 (proj2 (ids_agree_in_every_state None json_read json_print ""
        text_trim text_collapse_ws text_length text_slice
        ))
             ∅ first_exchange s E)
  end.
Defined.

(** The first message of a client that has no active chat. *)
Lemma request_carries_the_chat_id_witness :
  agree (s_ui typed_hi) (s_ls typed_hi)
  /\ exists h p,
       onSend_start None json_read json_print ""
           text_trim text_collapse_ws text_length text_slice
           (s_ui typed_hi) entropy_1
         (Hst (s_ls typed_hi) [] "") = (h, Ok (Some p))
       /\ req_body (p_request p)
          = json_print (JObj [("session_id", JStr "local-u1");
                              ("message", JStr "hi")]).
Proof.
  assert (agree (s_ui typed_hi) (s_ls typed_hi)) as Ha.
  { split; [reflexivity|]. intros T. discriminate T. }
  split; [exact Ha|].
  eassert (onSend_start None json_read json_print ""
      text_trim text_collapse_ws text_length text_slice
      (s_ui typed_hi) entropy_1
             (Hst (s_ls typed_hi) [] "") = (_, Ok (Some _))) as E
    by (vm_compute; reflexivity).
  match type of E with _ = (?h, Ok (Some ?p)) =>
    exists h, p; split; [exact E|];
    exact (proj2 (proj2 (request_carries_the_chat_id None json_read json_print ""
        text_trim text_collapse_ws text_length text_slice
                           typed_hi entropy_1 h p Ha E)))
  end.
Defined.

(** Session ["B"] is selected while session ["A"] awaits its reply. *)
Lemma selecting_a_chat_witness :
  exists s',
    step None json_read json_print ""
        text_trim text_collapse_ws text_length text_slice
        awaiting_reply (Select_session "B") = Some s'
    /\ activeId (s_ui s') = Some "B"
    /\ isSending (s_ui s') = true.
Proof.
  eassert (step None json_read json_print ""
      text_trim text_collapse_ws text_length text_slice
      awaiting_reply (Select_session "B")
           = Some _) as E by (vm_compute; reflexivity).
  match type of E with _ = Some ?s' =>
    exists s'; split; [exact E|];
    pose proof (selecting_a_chat None json_read json_print ""
        text_trim text_collapse_ws text_length text_slice
        awaiting_reply s'
                  "B" E) as (R1 & _ & _ & _ & _ & R6 & _);
    split; [exact R1|exact R6]
  end.
Defined.

(** A new chat is started while session ["A"] awaits its reply. *)
Lemma starting_a_new_chat_witness :
  exists s',
    step None json_read json_print ""
        text_trim text_collapse_ws text_length text_slice
        awaiting_reply (New_chat entropy_3) = Some s'
    /\ activeId (s_ui s') = Some "local-u3"
    /\ isSending (s_ui s') = false
    /\ s_inflight s' = [pending_A].
Proof.
  eassert (step None json_read json_print ""
      text_trim text_collapse_ws text_length text_slice
      awaiting_reply (New_chat entropy_3)
           = Some _) as E by (vm_compute; reflexivity).
  match type of E with _ = Some ?s' =>
    exists s'; split; [exact E|];
    pose proof (starting_a_new_chat None json_read json_print ""
        text_trim text_collapse_ws text_length text_slice
        awaiting_reply s'
                  entropy_3 E) as (R1 & _ & _ & _ & _ & R6 & R7 & _);
    split; [exact R1|]; split; [exact R6|exact R7]
  end.
Defined.

(** Session ["B"], which has no messages, is selected while the message of
    session ["A"] is shown. *)
Lemma selecting_an_empty_chat_stores_the_shown_messages_witness :
  "B" <> ""
  /\ activeId (s_ui awaiting_reply) <> Some "B"
  /\ loadMessages json_read (Some "B") (s_ls awaiting_reply) = Ok (JArr [])
  /\ length_is_zero "" (messages (s_ui awaiting_reply)) = Ok false
  /\ exists s',
       step None json_read json_print ""
           text_trim text_collapse_ws text_length text_slice
           awaiting_reply (Select_session "B")
       = Some s'
       /\ s_ls s' !! MSG_KEY "B" = Some (json_print (JArr [user_message "m1" "hi"])).
Proof.
  assert ("B" <> "") as H1 by discriminate.
  assert (activeId (s_ui awaiting_reply) <> Some "B") as H2 by discriminate.
  assert (loadMessages json_read (Some "B") (s_ls awaiting_reply) = Ok (JArr []))
    as H3 by (vm_compute; reflexivity).
  assert (length_is_zero "" (messages (s_ui awaiting_reply)) = Ok false) as H4
    by reflexivity.
  split; [exact H1|]. split; [exact H2|]. split; [exact H3|]. split; [exact H4|].
  eassert (step None json_read json_print ""
      text_trim text_collapse_ws text_length text_slice
      awaiting_reply (Select_session "B")
           = Some _) as E by (vm_compute; reflexivity).
  match type of E with _ = Some ?s' =>
    exists s'; split; [exact E|];
    exact (proj1 (selecting_an_empty_chat_stores_the_shown_messages
                    None json_read json_print ""
                        text_trim text_collapse_ws text_length text_slice
                        awaiting_reply s' "B"
                    H1 H2 H3 H4 E))
  end.
Defined.

(** The request of session ["A"] fails in the network. *)
Lemma failed_request_is_reported_witness :
  s_inflight awaiting_reply !! 0 = Some pending_A
  /\ step None json_read json_print ""
      text_trim text_collapse_ws text_length text_slice
      awaiting_reply
       (Settle 0 (Throw (Exn "TypeError" "Failed to fetch")) entropy_2)
     = Some (Sys (UI (Some "A") (JArr [session_entry "A" "hi" "t0"]) (Some "A")
                    (JArr [user_message "m1" "hi"]) 1 "" false "Failed to fetch")
               (s_ls awaiting_reply) []).
Proof.
  split; [reflexivity|].
  exact (failed_request_is_reported None json_read json_print ""
      text_trim text_collapse_ws text_length text_slice
      awaiting_reply 0
           pending_A (Throw (Exn "TypeError" "Failed to fetch"))
           (Exn "TypeError" "Failed to fetch") entropy_2 eq_refl
           (or_introl eq_refl)).
Defined.

(** A message is sent while the sessions key holds an object. *)
Lemma wrong_shaped_sessions_block_the_composer_witness :
  loadSessions json_read (s_ls client_with_object_sessions) = Ok (JObj [])
  /\ is_array (JObj []) = false
  /\ text_trim (input (s_ui client_with_object_sessions)) <> ""
  /\ isSending (s_ui client_with_object_sessions) = false
  /\ exists s',
       step None json_read json_print ""
           text_trim text_collapse_ws text_length text_slice
           client_with_object_sessions
         (Press_send entropy_1) = Some s'
       /\ s_inflight s' = []
       /\ isSending (s_ui s') = true.
Proof.
  assert (loadSessions json_read (s_ls client_with_object_sessions) = Ok (JObj []))
    as H1 by (vm_compute; reflexivity).
  assert (text_trim (input (s_ui client_with_object_sessions)) <> "") as H3
    by (vm_compute; discriminate).
  split; [exact H1|]. split; [reflexivity|]. split; [exact H3|].
  split; [reflexivity|].
  eassert (step None json_read json_print ""
      text_trim text_collapse_ws text_length text_slice
      client_with_object_sessions
             (Press_send entropy_1) = Some _) as E by (vm_compute; reflexivity).
  match type of E with _ = Some ?s' =>
    exists s'; split; [exact E|];
    pose proof (wrong_shaped_sessions_block_the_composer None json_read json_print ""
                  text_trim text_collapse_ws text_length text_slice
                  client_with_object_sessions s' entropy_1 (JObj []) H1
                  (or_introl eq_refl) H3 eq_refl E) as (R1 & R2 & _);
    split; [exact R1|exact R2]
  end.
Defined.

(** The reply of session ["A"] arrives. *)
Lemma reply_is_appended_witness :
  s_inflight awaiting_reply !! 0 = Some pending_A
  /\ res_ok response_A = true
  /\ "A" <> ""
  /\ is_provisional "A" = false
  /\ getSessionId (s_ls awaiting_reply) = Some "A"
  /\ exists s',
       step None json_read json_print ""
           text_trim text_collapse_ws text_length text_slice
           awaiting_reply
         (Settle 0 (Ok response_A) entropy_2) = Some s'
       /\ messages (s_ui s')
          = JArr [user_message "m1" "hi";
                  assistant_message "m2" "Quiet hours start at 10pm."].
Proof.
  assert ("A" <> "") as Hne by discriminate.
  assert (getSessionId (s_ls awaiting_reply) = Some "A") as Hk
    by (vm_compute; reflexivity).
  split; [reflexivity|]. split; [reflexivity|]. split; [exact Hne|].
  split; [reflexivity|]. split; [exact Hk|].
  destruct (reply_is_appended None json_read json_print ""
      text_trim text_collapse_ws text_length text_slice
      awaiting_reply 0
              pending_A response_A
              (ChatData (Some "A") (Some "Quiet hours start at 10pm.") None)
              entropy_2 "A" [user_message "m1" "hi"]
              eq_refl eq_refl eq_refl eq_refl Hne eq_refl eq_refl eq_refl Hk
              (or_introl eq_refl) eq_refl)
    as (s' & E & M & _).
  exists s'. split; [exact E|exact M].
Defined.

(** The first reply, over an empty storage. *)
Lemma sendMessage_adopts_the_server_id_witness :
  res_ok response_S1 = true
  /\ "S1" <> ""
  /\ getSessionId
       (h_ls (sendMessage_settle (Ok response_S1) (Hst ∅ [] "")).1) = Some "S1"
  /\ req_body (sendChatMessage_request None json_print "and on weekends?" None
                 (h_ls (sendMessage_settle (Ok response_S1) (Hst ∅ [] "")).1))
     = json_print (JObj [("session_id", JStr "S1");
                         ("message", JStr "and on weekends?")]).
Proof.
  assert ("S1" <> "") as Hne by discriminate.
  split; [reflexivity|]. split; [exact Hne|].
  pose proof (proj1 (sendMessage_adopts_the_server_id None json_print response_S1
                       (ChatData (Some "S1") (Some "Quiet hours start at 10pm.") None)
                       (Hst ∅ [] "") eq_refl eq_refl) "S1" eq_refl Hne)
    as (_ & R2 & _ & _ & R5).
  split; [exact R2|exact (R5 "and on weekends?")].
Defined.

(** The active session ["A"] is deleted. *)
Lemma deleting_the_active_chat_witness :
  loadSessions json_read (s_ls awaiting_reply)
  = Ok (JArr [session_entry "A" "first" "t0"])
  /\ (JNull ∉ [session_entry "A" "first" "t0"])
  /\ activeId (s_ui awaiting_reply) = Some "A"
  /\ exists s',
       step None json_read json_print ""
           text_trim text_collapse_ws text_length text_slice
           awaiting_reply (Delete_chat "A") = Some s'
       /\ activeId (s_ui s') = None
       /\ getSessionId (s_ls s') = None.
Proof.
  assert (loadSessions json_read (s_ls awaiting_reply)
          = Ok (JArr [session_entry "A" "first" "t0"])) as Hload
    by (vm_compute; reflexivity).
  assert (JNull ∉ [session_entry "A" "first" "t0"]) as Hn
    by (by intros ?%list_elem_of_singleton).
  split; [exact Hload|]. split; [exact Hn|]. split; [reflexivity|].
  eassert (step None json_read json_print ""
      text_trim text_collapse_ws text_length text_slice
      awaiting_reply (Delete_chat "A")
           = Some _) as E by (vm_compute; reflexivity).
  match type of E with _ = Some ?s' =>
    exists s'; split; [exact E|];
    pose proof (deleting_the_active_chat None json_read json_print ""
        text_trim text_collapse_ws text_length text_slice
                  awaiting_reply s' "A" _ Hload Hn eq_refl E) as (R1 & _ & R3 & _);
    split; [exact R1|exact R3]
  end.
Defined.

(** The first render over the storage of session ["A"]. *)
Lemma first_render_witness :
  exists s,
    mount json_read json_print "" storage_of_session_A = Some s
    /\ sessionId (s_ui s) = Some "A"
    /\ activeId (s_ui s) = Some "A".
Proof.
  eassert (mount json_read json_print "" storage_of_session_A = Some _) as E
    by (vm_compute; reflexivity).
  match type of E with _ = Some ?s =>
    exists s; split; [exact E|];
    pose proof (first_render json_read json_print "" storage_of_session_A s E)
      as (R1 & R2 & _);
    split; [exact R1|exact R2]
  end.
Defined.


(** The reply of session ["A"] arrives while session ["B"] is shown. *)
Lemma reply_after_switching_chats_witness :
  s_inflight reply_awaited_elsewhere !! 0 = Some pending_A
  /\ is_provisional "A" = false
  /\ "A" <> "" /\ "B" <> "" /\ "A" <> "B"
  /\ res_ok response_A = true
  /\ json_read (json_print (JArr [user_message "m0" "about B";
                                  assistant_message "m2" "Quiet hours start at 10pm."]))
     = Ok (JArr [user_message "m0" "about B";
                 assistant_message "m2" "Quiet hours start at 10pm."])
  /\ exists s',
       step None json_read json_print ""
           text_trim text_collapse_ws text_length text_slice
           reply_awaited_elsewhere
         (Settle 0 (Ok response_A) entropy_2) = Some s'
       /\ activeId (s_ui s') = Some "A"
       /\ s_ls s' !! MSG_KEY "A"
          = Some (json_print
                    (JArr [user_message "m0" "about B";
                           assistant_message "m2" "Quiet hours start at 10pm."])).
Proof.
  assert ("A" <> "") as Hna by discriminate.
  assert ("B" <> "") as Hnb by discriminate.
  assert ("A" <> "B") as Hab by discriminate.
  assert (json_read (json_print (JArr [user_message "m0" "about B";
                                       assistant_message "m2" "Quiet hours start at 10pm."]))
          = Ok (JArr [user_message "m0" "about B";
                      assistant_message "m2" "Quiet hours start at 10pm."])) as Hrt
    by (vm_compute; reflexivity).
  split; [reflexivity|]. split; [reflexivity|]. split; [exact Hna|].
  split; [exact Hnb|]. split; [exact Hab|]. split; [reflexivity|].
  split; [exact Hrt|].
  destruct (reply_after_switching_chats None json_read json_print ""
      text_trim text_collapse_ws text_length text_slice
              reply_awaited_elsewhere 0 pending_A response_A
              (ChatData (Some "A") (Some "Quiet hours start at 10pm.") None)
              entropy_2 "A" "B" [user_message "m0" "about B"]
              eq_refl eq_refl eq_refl Hna Hnb Hab eq_refl eq_refl eq_refl eq_refl
              eq_refl eq_refl Hrt)
    as (s' & E & R1 & _ & _ & _ & R5 & _).
  exists s'. split; [exact E|]. split; [exact R1|exact R5].
Defined.



